(** * Caddy chatbot: conversation orchestration and supervision workflow

    A shallow embedding of
    - [caddy_core/components.py] (message gate, answer streaming with
      bounded retry, role-play truncation, persistence of decisions), and
    - [integrations/google_chat/structures.py] (supervisor approval),
    together with the properties of the orchestration core.

    Conventions of the embedding:
    - a Python [str] is a list of Unicode code points ([list N]), so that
      [len], [find], slicing and [strip] count code points as Python does;
    - a Python [dict] (and a DynamoDB item) is a finite map from [str] to
      [value];
    - a DynamoDB table with a single partition key is a finite map from the
      key to the item; [put_item] replaces the item, [update_item] with a
      [set] expression creates the item when it is absent;
    - side effects on the chat surfaces are recorded as a trace of events,
      store writes are recorded in the tables of the [world]; the calls on
      the chat client and on the store succeed (but for a [list_append] on
      an attribute that is not a list, which the store refuses), and what is
      printed on the standard output is left out;
    - a Python exception is an explicit error result; the effects performed
      before the exception are kept;
    - the services outside the two files (evaluation modules, enrolment,
      the answer generator, JSON, the clock, the card layouts) are the
      fields of the record [collaborators]. *)

From Stdlib Require Import ZArith NArith List String Ascii Lia Bool DecimalString.
From stdpp Require Import base option list gmap.

Set Warnings "-register-all".
Set Default Proof Using "Type".

Open Scope string_scope.
Open Scope list_scope.
Open Scope Z_scope.

(** ** Python strings *)

Module PyStr.

(** A string is a sequence of code points. *)
Definition str := list N.

(** String literals of the source, written as Rocq strings. *)
Definition py (s : string) : str := map N_of_ascii (list_ascii_of_string s).
Coercion py : string >-> str.
Arguments py : simpl never.

(** [len(s)] *)
Definition len (s : str) : Z := Z.of_nat (length s).

(** [s.startswith(sub)], the test [find] performs at every position. *)
Fixpoint starts_with (sub s : str) : bool :=
  match sub, s with
  | [], _ => true
  | _ :: _, [] => false
  | a :: sub', b :: s' => N.eqb a b && starts_with sub' s'
  end.

Fixpoint find_from (sub s : str) (i : Z) : Z :=
  if starts_with sub s then i
  else match s with
       | [] => -1
       | _ :: s' => find_from sub s' (i + 1)
       end.

(** [s.find(sub)]: the lowest index at which [sub] occurs in [s], or [-1]. *)
Definition find (s sub : str) : Z := find_from sub s 0.

(** [s[:i]] (a negative [i] counts from the end, as in Python). *)
Definition slice_to (s : str) (i : Z) : str :=
  if i <? 0 then take (length s - Z.to_nat (- i)) s
  else take (Z.to_nat i) s.

(** [c.isspace()] for one code point: the white space table of CPython
    ([_PyUnicode_IsWhitespace]). *)
Definition is_space (c : N) : bool :=
  ((9 <=? c) && (c <=? 13) || (28 <=? c) && (c <=? 32)
   || (c =? 133) || (c =? 160) || (c =? 5760)
   || (8192 <=? c) && (c <=? 8202)
   || (c =? 8232) || (c =? 8233) || (c =? 8239) || (c =? 8287)
   || (c =? 12288))%N.

Fixpoint lstrip (s : str) : str :=
  match s with
  | c :: s' => if is_space c then lstrip s' else s
  | [] => []
  end.

Definition rstrip (s : str) : str := rev (lstrip (rev s)).

(** [s.strip()] *)
Definition strip (s : str) : str := rstrip (lstrip s).

(** [s.split(sep)] for a one character separator. *)
Fixpoint split_on (sep : N) (s : str) : list str :=
  match s with
  | [] => [[]]
  | c :: s' =>
      if N.eqb c sep then [] :: split_on sep s'
      else match split_on sep s' with
           | w :: ws => (c :: w) :: ws
           | [] => [[c]]
           end
  end.

(** *** Occurrences of a substring, stated without the search function *)

(** [sub] occurs in [s]. *)
Definition occurs (sub s : str) : Prop :=
  exists pre post, s = pre ++ sub ++ post.

(** [pre] is the text of [s] strictly before the first occurrence of [sub]. *)
Definition before_first (sub s pre : str) : Prop :=
  (exists post, s = pre ++ sub ++ post) /\
  forall pre' post', s = pre' ++ sub ++ post' -> (length pre <= length pre')%nat.

End PyStr.

Import PyStr.

(** ** Role-play truncation ([components.py], [remove_role_played_responses]) *)

Definition remove_role_played_responses (response : str) : bool * str :=
  let adviser_index := find response "Adviser: " in
  if negb (adviser_index =? -1) then
    (true, strip (slice_to response adviser_index))
  else
    let adviser_index := find response "Advisor: " in
    if negb (adviser_index =? -1) then
      (true, strip (slice_to response adviser_index))
    else (false, strip response).

(** ** Python values, dictionaries and exceptions *)

Inductive value :=
| VNone
| VBool (b : bool)
| VInt (z : Z)
| VStr (s : str)
| VList (l : list value)
| VDict (d : gmap str value).

Abbreviation dict := (gmap str value).

(** One entry [key: value] of a dictionary literal. *)
Notation "k =: v" := (@pair str value k v) (at level 60, no associativity).

(** A dictionary literal [{k1: v1, ...}] (the keys of the literals of the
    source are pairwise distinct). *)
Definition mk_dict (l : list (str * value)) : dict := list_to_map l.

Inductive exn :=
| KeyError (key : value)
| IndexError
| TypeError
| AttributeError
| UnboundLocalError
| GeneratorError (code : N)    (* raised by the answer generator while it streams *)
| JSONDecodeError
| ClientError                  (* botocore's ClientError: the store refuses the request *)
| SupervisionSpaceUnknown      (* Exception("supervision space returned unknown") *)
| CaddyFailed (error : exn).   (* Exception(f"Caddy failed to response, error: {error}") *)

(** [d[k]] on a dictionary. *)
Definition getitem (d : dict) (k : str) : exn + value :=
  match d !! k with
  | Some v => inr v
  | None => inl (KeyError (VStr k))
  end.

(** A subscript is a string key or an integer position. *)
Inductive key :=
| Field (k : str)
| Index (i : nat).

(** [v[k]] on any value. *)
Definition subscript (v : value) (k : key) : exn + value :=
  match v, k with
  | VDict d, Field s => getitem d s
  | VDict d, Index i => inl (KeyError (VInt (Z.of_nat i)))
  | VList l, Index i =>
      match l !! i with
      | Some x => inr x
      | None => inl IndexError
      end
  | VStr s, Index i =>
      match s !! i with
      | Some c => inr (VStr [c])
      | None => inl IndexError
      end
  | _, _ => inl TypeError
  end.

(** [v[k1][k2]...[kn]] *)
Fixpoint path (v : value) (ks : list key) : exn + value :=
  match ks with
  | [] => inr v
  | k :: ks' =>
      match subscript v k with
      | inl e => inl e
      | inr child => path child ks'
      end
  end.

(** [v[k] = x] *)
Definition store (v : value) (k : key) (x : value) : value :=
  match v, k with
  | VDict d, Field s => VDict (<[s := x]> d)
  | VList l, Index i => VList (<[i := x]> l)
  | _, _ => v
  end.

(** In-place change of the object [v[k1]...[kn]] by [f]; the value returned
    is the object [v] after the change. *)
Fixpoint update_at (v : value) (ks : list key) (f : value -> exn + value) : exn + value :=
  match ks with
  | [] => f v
  | k :: ks' =>
      match subscript v k with
      | inl e => inl e
      | inr child =>
          match update_at child ks' f with
          | inl e => inl e
          | inr child' => inr (store v k child')
          end
      end
  end.

(** Truth value of an object in a condition. *)
Definition truthy (v : value) : bool :=
  match v with
  | VNone => false
  | VBool b => b
  | VInt z => negb (z =? 0)
  | VStr s => negb (Nat.eqb (length s) 0)
  | VList l => negb (Nat.eqb (length l) 0)
  | VDict d => negb (Nat.eqb (size d) 0)
  end.

(** [v is True] and [v is False] *)
Definition is_True (v : value) : bool :=
  match v with VBool true => true | _ => false end.
Definition is_False (v : value) : bool :=
  match v with VBool false => true | _ => false end.

(** [for x in v]: the objects that the iteration yields. *)
Definition iterate (v : value) : exn + list value :=
  match v with
  | VList l => inr l
  | VStr s => inr ((fun c => VStr [c]) <$> s)
  | VDict d => inr ((fun kv => VStr kv.1) <$> map_to_list d)
  | _ => inl TypeError
  end.

(** ** Events, cards and the store *)

(** [caddy_core.models.ProcessChatMessageEvent] (built by [format_message]). *)
Module ProcessChatMessageEvent.
Record t := {
  user : str;
  name : str;
  space_id : str;
  thread_id : str;
  message_id : str;
  message_string : str;
  source_client : str;
  timestamp : value;
}.
End ProcessChatMessageEvent.

(** [caddy_core.models.UserMessage] *)
Module UserMessage.
Record t := {
  conversation_id : str;
  thread_id : str;
  message_id : str;
  client : str;
  user_email : str;
  message : str;
  message_sent_timestamp : str;
  message_received_timestamp : value;
}.
End UserMessage.

(** [caddy_core.models.LlmResponse] *)
Module LlmResponse.
Record t := {
  response_id : str;
  message_id : str;
  llm_prompt : str;
  llm_answer : str;
  thread_id : str;
  llm_prompt_timestamp : value;
  llm_response_json : str;
  llm_response_timestamp : value;
}.
End LlmResponse.

(** [caddy_core.models.SupervisionEvent] *)
Module SupervisionEvent.
Record t := {
  type : str;
  source_client : str;
  user : str;
  llmPrompt : str;
  llm_answer : str;
  llm_response_json : str;
  conversation_id : str;
  thread_id : str;
  message_id : str;
  response_id : str;
}.
End SupervisionEvent.

(** [caddy_core.models.ApprovalEvent] *)
Module ApprovalEvent.
Record t := {
  response_id : value;
  thread_id : value;
  approver_email : value;
  approved : bool;
  approval_timestamp : value;
  user_response_timestamp : value;
  supervisor_message : value;
}.
End ApprovalEvent.

(** The message templates of [chat_client.messages] that the core sends. *)
Inductive template :=
| SURVEY_ALREADY_COMPLETED
| COMPOSING_MESSAGE
| COMPOSING_MESSAGE_RETRY
| SUPERVISOR_REVIEWING_RESPONSE
| REQUEST_FAILURE
| AWAITING_SUPERVISOR_APPROVAL.

(** The five cards returned by [create_supervision_request_card]. *)
Inductive request_card :=
| request_failed
| request_processing
| request_awaiting
| request_approved
| request_rejected.

(** What is shown on a chat surface. The renderings belong to the chat
    client; the core only chooses which one to send. *)
Inductive content :=
| Template (t : template)
| ControlGroupSelection (control_group_message : value)
| SupervisionRequest (card : request_card) (user initial_query : str)
    (* [ResponseCard answer streaming] is [create_card(answer)], with the
       [RESPONSE_STREAMING] widget appended when [streaming]. *)
| ResponseCard (answer : value) (streaming : bool)
| SupervisionCard (user_email : str) (event : SupervisionEvent.t)
    (new_request_message_id : str) (approved rejected card_for_approval : content)
| Json (card : value).

(** Calls on the chat client and the clock, in the order they happen. The
    adviser space is the user-facing surface, the supervisor space the
    supervisor-facing one. *)
Inductive event :=
| UpdateMessageInAdviserSpace (message_type : str) (space_id message_id : value)
    (message : content)
| UpdateDynamicMessageInAdviserSpace (space_id message_id : value)
    (response_type : str) (message : content)
| CallCompleteConfirmation (user user_space thread_id : value)
| SendMessageToSupervisorSpace (space_id : value) (message : content)
| RespondToSupervisorThread (space_id : value) (message : content) (thread_id : value)
| UpdateMessageInSupervisorSpace (space_id message_id : value) (new_message : content)
| ChainStream (input : str) (chat_history : list (value * value))
| Sleep (seconds : Z).

(** The tables of [caddy_core.utils.tables] and the trace of events.
    [users_table] is keyed by [userEmail]; [evaluation_table] and
    [responses_table] by [threadId] (the key every [update_item] and [query]
    of the source uses). Nothing reads [message_table] back, it is kept as
    the list of items put. *)
Record world := {
  users_table : gmap str dict;
  evaluation_table : gmap str dict;
  responses_table : gmap str dict;
  message_table : list dict;
  trace : list event;
}.

Definition empty_world : world :=
  {| users_table := ∅; evaluation_table := ∅; responses_table := ∅;
     message_table := []; trace := [] |}.

Definition set_users_table (t : gmap str dict) (w : world) : world :=
  {| users_table := t; evaluation_table := evaluation_table w;
     responses_table := responses_table w; message_table := message_table w;
     trace := trace w |}.

Definition set_evaluation_table (t : gmap str dict) (w : world) : world :=
  {| users_table := users_table w; evaluation_table := t;
     responses_table := responses_table w; message_table := message_table w;
     trace := trace w |}.

Definition set_responses_table (t : gmap str dict) (w : world) : world :=
  {| users_table := users_table w; evaluation_table := evaluation_table w;
     responses_table := t; message_table := message_table w;
     trace := trace w |}.

Definition set_message_table (t : list dict) (w : world) : world :=
  {| users_table := users_table w; evaluation_table := evaluation_table w;
     responses_table := responses_table w; message_table := t;
     trace := trace w |}.

(** Record one more event. *)
Definition emit_to (e : event) (w : world) : world :=
  {| users_table := users_table w; evaluation_table := evaluation_table w;
     responses_table := responses_table w; message_table := message_table w;
     trace := trace w ++ [e] |}.

(** [table.put_item(Item=item)]: the item replaces the one with its key. *)
Definition put_item (key : str) (item : dict) (t : gmap str dict) : gmap str dict :=
  <[key := item]> t.

(** The [set a = :x, b = :y, ...] part of an update expression. *)
Definition set_attributes (sets : list (str * value)) (item : dict) : dict :=
  foldl (fun d kv => <[kv.1 := kv.2]> d) item sets.

(** [table.update_item(Key={key_name: key}, UpdateExpression="set ...")]:
    the attributes are set on the item, which is created when absent. *)
Definition update_item (key_name key : str) (sets : list (str * value))
    (t : gmap str dict) : gmap str dict :=
  <[key := set_attributes sets (default {[ key_name := VStr key ]} (t !! key))]> t.

(** One attempt at streaming an answer: the chunks the generator yields
    and, when it fails, the exception it raises after them. *)
Record stream := {
  chunks : list dict;
  failure : option exn;
}.

(** The collaborators outside the core. Each is a function of what the
    core passes to it; the chat client's calls are recorded as events and
    succeed. *)
Record collaborators := {
  (* caddy_core.services.evaluation *)
  execute_optional_modules : ProcessChatMessageEvent.t -> exn + dict;
  (* json *)
  json_loads : str -> exn + value;
  json_dumps_card : content -> str;
  json_dumps_str : str -> str;
  (* str(x) for an object that is not a string *)
  repr : value -> str;
  (* datetime.now() and the call start time in London *)
  datetime_now : value;
  call_start_clock : str;
  (* the answer generator: chain.stream(...) at attempt number [attempt] *)
  chain_stream : str -> list (value * value) -> Z -> stream;
  ai_prompt_timestamp : value;
  (* caddy_core.services.enrolment *)
  get_designated_supervisor_space : str -> value;
  (* identifiers given by the chat platform and the response record *)
  supervision_thread_and_message : value -> content -> value * value;
  supervision_reply_message : value -> content -> value -> value;
  new_response_id : str;
  (* integrations.google_chat.responses *)
  approval_json_widget : value -> value;
  rejection_json_widget : value -> value -> value;
}.

(** [str(x)] *)
Definition py_str (env : collaborators) (x : value) : str :=
  match x with
  | VStr s => s
  | _ => repr env x
  end.

(** Computations that read and write the world and may raise. *)
Definition M (A : Type) : Type := world -> (exn + A) * world.

#[global] Instance M_ret : MRet M := fun A x w => (inr x, w).

#[global] Instance M_bind : MBind M := fun A B f m w =>
  match m w with
  | (inl e, w') => (inl e, w')
  | (inr x, w') => f x w'
  end.

Definition raise {A} (e : exn) : M A := fun w => (inl e, w).
Definition lift {A} (r : exn + A) : M A := fun w => (r, w).
Definition gets {A} (f : world -> A) : M A := fun w => (inr (f w), w).
Definition modify (f : world -> world) : M unit := fun w => (inr tt, f w).
Definition emit (e : event) : M unit := modify (emit_to e).

(** [k in d] *)
Definition contains (d : dict) (k : str) : bool :=
  match d !! k with
  | Some _ => true
  | None => false
  end.

(** [table.query(KeyConditionExpression=Key(...).eq(key))["Items"]] on a
    table whose only key is the partition key. *)
Definition query (t : gmap str dict) (key : str) : list dict :=
  match t !! key with
  | Some item => [item]
  | None => []
  end.

(** ** The call gate and the store ([caddy_core/components.py]) *)

Record Response := { status_code : Z }.
Definition HTTP_204_NO_CONTENT : Z := 204.

Definition format_chat_history (user_messages : list dict) : exn + list (value * value) :=
  foldl (fun history message =>
           match history with
           | inl e => inl e
           | inr h =>
               match getitem message "llmPrompt" with
               | inl e => inl e
               | inr human =>
                   match getitem message "llmAnswer" with
                   | inl e => inl e
                   | inr ai => inr (h ++ [(human, ai)])
                   end
               end
           end) (inr []) user_messages.

Definition get_chat_history (message : UserMessage.t) : M (list (value * value)) :=
  items ← gets (fun w => query (responses_table w) message.(UserMessage.thread_id));
  lift (format_chat_history items).

Definition mark_call_complete (user thread_id : str) : M unit :=
  _ ← modify (fun w =>
         set_evaluation_table
           (update_item "threadId" thread_id ["callComplete" =: VBool true]
              (evaluation_table w)) w);
  modify (fun w =>
    set_users_table
      (update_item "userEmail" user ["activeCall" =: VBool false]
         (users_table w)) w).

Definition format_chat_message (env : collaborators)
    (event : ProcessChatMessageEvent.t) : UserMessage.t :=
  {| UserMessage.conversation_id := event.(ProcessChatMessageEvent.space_id);
     UserMessage.thread_id := event.(ProcessChatMessageEvent.thread_id);
     UserMessage.message_id := event.(ProcessChatMessageEvent.message_id);
     UserMessage.client := event.(ProcessChatMessageEvent.source_client);
     UserMessage.user_email := event.(ProcessChatMessageEvent.user);
     UserMessage.message := event.(ProcessChatMessageEvent.message_string);
     UserMessage.message_sent_timestamp :=
       py_str env event.(ProcessChatMessageEvent.timestamp);
     UserMessage.message_received_timestamp := datetime_now env |}.

Definition store_message (env : collaborators) (message : UserMessage.t) : M unit :=
  modify (fun w =>
    set_message_table
      (message_table w ++
       [mk_dict
          ["messageId" =: VStr message.(UserMessage.message_id);
           "conversationId" =: VStr message.(UserMessage.conversation_id);
           "threadId" =: VStr message.(UserMessage.thread_id);
           "client" =: VStr message.(UserMessage.client);
           "userEmail" =: VStr message.(UserMessage.user_email);
           "message" =: VStr message.(UserMessage.message);
           "messageSentTimestamp" =: VStr message.(UserMessage.message_sent_timestamp);
           "messageReceivedTimestamp" =:
             VStr (py_str env message.(UserMessage.message_received_timestamp))]]) w).

Definition store_response (env : collaborators) (response : LlmResponse.t) : M unit :=
  modify (fun w =>
    set_responses_table
      (put_item response.(LlmResponse.thread_id)
         (mk_dict
            ["responseId" =: VStr response.(LlmResponse.response_id);
             "messageId" =: VStr response.(LlmResponse.message_id);
             "threadId" =: VStr response.(LlmResponse.thread_id);
             "llmPrompt" =: VStr response.(LlmResponse.llm_prompt);
             "llmAnswer" =: VStr response.(LlmResponse.llm_answer);
             "llmResponseJSon" =: VStr response.(LlmResponse.llm_response_json);
             "llmPromptTimestamp" =:
               VStr (py_str env response.(LlmResponse.llm_prompt_timestamp));
             "llmResponseTimestamp" =:
               VStr (py_str env response.(LlmResponse.llm_response_timestamp))])
         (responses_table w)) w).

Definition store_user_thanked_timestamp (env : collaborators)
    (ai_answer : LlmResponse.t) : M unit :=
  modify (fun w =>
    set_responses_table
      (update_item "threadId" ai_answer.(LlmResponse.thread_id)
         ["userThankedTimestamp" =: VStr (py_str env (datetime_now env))]
         (responses_table w)) w).

Definition store_approver_received_timestamp (env : collaborators)
    (event : SupervisionEvent.t) : M unit :=
  modify (fun w =>
    set_responses_table
      (update_item "threadId" event.(SupervisionEvent.thread_id)
         ["approverReceivedTimestamp" =: VStr (py_str env (datetime_now env))]
         (responses_table w)) w).

Definition store_approver_event (env : collaborators)
    (approval_event : ApprovalEvent.t) : M unit :=
  modify (fun w =>
    set_responses_table
      (update_item "threadId" (py_str env approval_event.(ApprovalEvent.thread_id))
         ["approverEmail" =: approval_event.(ApprovalEvent.approver_email);
          "approved" =: VBool approval_event.(ApprovalEvent.approved);
          "approvalTimestamp" =:
            VStr (py_str env approval_event.(ApprovalEvent.approval_timestamp));
          "userResponseTimestamp" =:
            VStr (py_str env approval_event.(ApprovalEvent.user_response_timestamp));
          "supervisorMessage" =: approval_event.(ApprovalEvent.supervisor_message)]
         (responses_table w)) w).

(** [store_evaluation_module] writes [str(split)] into the object
    [module_values["modulesUsed"][0]] in place. The caller keeps using
    [module_values], so the dictionary after the change is returned. *)
Definition store_evaluation_module (env : collaborators) (user thread_id : str)
    (module_values : dict) : M dict :=
  user_arguments ← lift (path (VDict module_values) [Field "modulesUsed"; Index 0]);
  argument_output ← lift (getitem module_values "moduleOutputs");
  continue_conversation ← lift (getitem module_values "continueConversation");
  control_group_message ← lift (getitem module_values "controlGroupMessage");
  module_values' ← lift (update_at (VDict module_values)
                       [Field "modulesUsed"; Index 0; Field "module_arguments"]
                       (fun module_arguments =>
                          match subscript module_arguments (Field "split") with
                          | inl e => inl e
                          | inr split =>
                              match module_arguments with
                              | VDict _ =>
                                  inr (store module_arguments (Field "split")
                                         (VStr (py_str env split)))
                              | _ => inl TypeError
                              end
                          end));
  user_arguments ← lift (path module_values' [Field "modulesUsed"; Index 0]);
  let call_start_time := VStr (call_start_clock env) in
  _ ← modify (fun w =>
         set_evaluation_table
           (put_item thread_id
              (mk_dict
                 ["threadId" =: VStr thread_id;
                  "callStart" =: call_start_time;
                  "modulesUsed" =: user_arguments;
                  "moduleOutputs" =: argument_output;
                  "continueConversation" =: continue_conversation;
                  "controlGroupMessage" =: control_group_message;
                  "callComplete" =: VBool false])
              (evaluation_table w)) w);
  _ ← modify (fun w =>
         set_users_table
           (update_item "userEmail" user
              ["activeCall" =: VBool true;
               "callStart" =: call_start_time;
               "activeThreadId" =: VStr thread_id;
               "modulesUsed" =: user_arguments;
               "moduleOutputs" =: argument_output;
               "continueConversation" =: continue_conversation;
               "controlGroupMessage" =: control_group_message]
              (users_table w)) w);
  mret (match module_values' with VDict d => d | _ => module_values end).

Definition check_existing_call (env : collaborators)
    (caddy_message : ProcessChatMessageEvent.t) : M (dict * bool) :=
  let user := caddy_message.(ProcessChatMessageEvent.user) in
  let thread_id := caddy_message.(ProcessChatMessageEvent.thread_id) in
  let survey_complete := false in
  user_response ← gets (fun w => users_table w !! user);
  active ← match user_response with
            | Some item =>
                activeCall ← lift (getitem item "activeCall");
                mret (is_True activeCall)
            | None => mret false
            end;
  if active : bool then
    response_items ← gets (fun w => query (evaluation_table w) thread_id);
    match response_items with
    | item0 :: _ =>
        modulesUsed ← lift (getitem item0 "modulesUsed");
        moduleOutputs ← lift (getitem item0 "moduleOutputs");
        continueConversation ← lift (getitem item0 "continueConversation");
        controlGroupMessage ← lift (getitem item0 "controlGroupMessage");
        let module_values :=
          mk_dict ["modulesUsed" =: modulesUsed;
                   "moduleOutputs" =: moduleOutputs;
                   "continueConversation" =: continueConversation;
                   "controlGroupMessage" =: controlGroupMessage] in
        let survey_complete :=
          if contains item0 "surveyResponse" then true else survey_complete in
        mret (module_values, survey_complete)
    | [] =>
        user_active_response ← gets (fun w => users_table w !! user);
        match user_active_response with
        | Some item =>
            modulesUsed ← lift (getitem item "modulesUsed");
            moduleOutputs ← lift (getitem item "moduleOutputs");
            continueConversation ← lift (getitem item "continueConversation");
            controlGroupMessage ← lift (getitem item "controlGroupMessage");
            mret (mk_dict ["modulesUsed" =: modulesUsed;
                           "moduleOutputs" =: moduleOutputs;
                           "continueConversation" =: continueConversation;
                           "controlGroupMessage" =: controlGroupMessage],
                  false)
        | None => mret (∅, survey_complete)
        end
    end
  else
    module_values ← lift (execute_optional_modules env caddy_message);
    module_values ← store_evaluation_module env user thread_id module_values;
    mret (module_values, survey_complete).

(** ** Answer streaming with bounded retry ([send_to_llm]) *)

(** The merge of one chunk into the response, the loop
    [for key, value in chunk.items()]. *)
Definition merge_chunk (caddy_response chunk : dict) : dict :=
  map_fold (fun key value caddy_response =>
              match caddy_response !! key, value with
              | Some (VStr accumulated), VStr delta =>
                  <[key := VStr (accumulated ++ delta)]> caddy_response
              | _, _ => <[key := value]> caddy_response
              end) caddy_response chunk.

(** The names [send_to_llm] binds before the retry loop. *)
Record request := {
  caddy_query : UserMessage.t;
  chat_history : list (value * value);
  supervisor_space : value;
  supervision_thread_id : value;
  supervision_message_id : value;
}.

(** The variables of the retry loop. [supervision_caddy_message_id] is
    unbound until the first answer chunk of some attempt; [first_chunk] is
    [True] ([true]) and then [None] ([false]). *)
Record locals := {
  first_chunk : bool;
  caddy_response : dict;
  accumulated_answer : str;
  supervision_caddy_message_id : option value;
}.

(** How a loop body ends: it falls through to the next iteration, leaves
    the loop, or raises. *)
Inductive flow :=
| Next
| Break
| Raise (e : exn).

Definition adviser_update (r : request) (t : template) : event :=
  UpdateMessageInAdviserSpace "cardsV2"
    (VStr r.(caddy_query).(UserMessage.conversation_id))
    (VStr r.(caddy_query).(UserMessage.message_id)) (Template t).

(** The block under [if first_chunk:]. *)
Definition announce_answer (env : collaborators) (r : request)
    (l : locals) (w : world) : flow * locals * world :=
  match getitem l.(caddy_response) "answer" with
  | inl e => (Raise e, l, w)
  | inr answer =>
      let response_card := ResponseCard answer true in
      let w := emit_to (RespondToSupervisorThread r.(supervisor_space) response_card
                          r.(supervision_thread_id)) w in
      let id := supervision_reply_message env r.(supervisor_space) response_card
                  r.(supervision_thread_id) in
      let w := emit_to (adviser_update r SUPERVISOR_REVIEWING_RESPONSE) w in
      (Next,
       {| first_chunk := false;
          caddy_response := l.(caddy_response);
          accumulated_answer := l.(accumulated_answer);
          supervision_caddy_message_id := Some id |},
       w)
  end.

(** The block under [if len(accumulated_answer) >= 75:], the interim
    update of the supervisor's view. *)
Definition flush (r : request) (l : locals) (w : world) : flow * locals * world :=
  match getitem l.(caddy_response) "answer" with
  | inl e => (Raise e, l, w)
  | inr (VStr answer) =>
      let '(early_terminate, answer) := remove_role_played_responses answer in
      let l := {| first_chunk := l.(first_chunk);
                  caddy_response := <[("answer" : str) := VStr answer]> l.(caddy_response);
                  accumulated_answer := l.(accumulated_answer);
                  supervision_caddy_message_id := l.(supervision_caddy_message_id) |} in
      match l.(supervision_caddy_message_id) with
      | None => (Raise UnboundLocalError, l, w)
      | Some id =>
          let w := emit_to (UpdateMessageInSupervisorSpace r.(supervisor_space) id
                              (ResponseCard (VStr answer) true)) w in
          let l := {| first_chunk := l.(first_chunk);
                      caddy_response := l.(caddy_response);
                      accumulated_answer := "";
                      supervision_caddy_message_id := l.(supervision_caddy_message_id) |} in
          (if early_terminate then Break else Next, l, w)
      end
  | inr _ => (Raise AttributeError, l, w)
  end.

(** The body of [for chunk in chain.stream(...)]. *)
Definition stream_body (env : collaborators) (r : request) (chunk : dict)
    (l : locals) (w : world) : flow * locals * world :=
  let l := {| first_chunk := l.(first_chunk);
              caddy_response := merge_chunk l.(caddy_response) chunk;
              accumulated_answer := l.(accumulated_answer);
              supervision_caddy_message_id := l.(supervision_caddy_message_id) |} in
  match chunk !! ("answer" : str) with
  | None => (Next, l, w)
  | Some delta =>
      match (if l.(first_chunk) then announce_answer env r l w else (Next, l, w)) with
      | (Next, l, w) =>
          match delta with
          | VStr delta =>
              let l := {| first_chunk := l.(first_chunk);
                          caddy_response := l.(caddy_response);
                          accumulated_answer := l.(accumulated_answer) ++ delta;
                          supervision_caddy_message_id := l.(supervision_caddy_message_id) |} in
              if 75 <=? len l.(accumulated_answer) then flush r l w
              else (Next, l, w)
          | _ => (Raise TypeError, l, w)
          end
      | stopped => stopped
      end
  end.

(** [for chunk in chain.stream(...)]: the chunks are taken one at a time;
    the generator's failure is met only when the chunks before it have all
    been consumed. *)
Fixpoint consume (env : collaborators) (r : request) (chunks : list dict)
    (failure : option exn) (l : locals) (w : world) : flow * locals * world :=
  match chunks with
  | [] =>
      match failure with
      | Some e => (Raise e, l, w)
      | None => (Next, l, w)
      end
  | chunk :: rest =>
      match stream_body env r chunk l w with
      | (Next, l, w) => consume env r rest failure l w
      | stopped => stopped
      end
  end.

(** The [try] block of one attempt. *)
Definition attempt_body (env : collaborators) (r : request) (attempt : Z)
    (l : locals) (w : world) : flow * locals * world :=
  let l := {| first_chunk := true;
              caddy_response := ∅;
              accumulated_answer := "";
              supervision_caddy_message_id := l.(supervision_caddy_message_id) |} in
  let query := r.(caddy_query).(UserMessage.message) in
  let w := emit_to (ChainStream query r.(chat_history)) w in
  let s := chain_stream env query r.(chat_history) attempt in
  match consume env r s.(chunks) s.(failure) l w with
  | (Raise e, l, w) => (Raise e, l, w)
  | (_, l, w) => (Break, l, w)
  end.

(** [range(n)] *)
Definition range (n : nat) : list Z := map Z.of_nat (seq 0 n).

(** [for attempt in range(4): try: ... except Exception as error: ...],
    over the attempt numbers still to run. [None] is the normal end of the
    loop, [Some e] the exception that leaves [send_to_llm]. *)
Fixpoint retry_loop (env : collaborators) (r : request) (attempts : list Z)
    (l : locals) (w : world) : option exn * locals * world :=
  match attempts with
  | [] => (None, l, w)
  | attempt :: rest =>
      match attempt_body env r attempt l w with
      | (Raise error, l, w) =>
          if attempt =? 3 then
            let w := emit_to (adviser_update r REQUEST_FAILURE) w in
            let w := emit_to (UpdateMessageInSupervisorSpace r.(supervisor_space)
                                r.(supervision_message_id)
                                (SupervisionRequest request_failed
                                   r.(caddy_query).(UserMessage.user_email)
                                   r.(caddy_query).(UserMessage.message))) w in
            (Some (CaddyFailed error), l, w)
          else
            let w := emit_to (adviser_update r COMPOSING_MESSAGE_RETRY) w in
            let wait := attempt ^ 2 in
            let w := emit_to (Sleep wait) w in
            retry_loop env r rest l w
      | (_, l, w) => (None, l, w)
      end
  end.

Definition initial_locals : locals :=
  {| first_chunk := true; caddy_response := ∅; accumulated_answer := "";
     supervision_caddy_message_id := None |}.

(** Lines 472 to 536 of [send_to_llm]: the answer left by the retry loop
    is cleaned once more, stored and sent for approval. *)
Definition finalise_answer (env : collaborators) (r : request) (l : locals) : M unit :=
  let caddy_query := r.(caddy_query) in
  let user := caddy_query.(UserMessage.user_email) in
  let card c := SupervisionRequest c user caddy_query.(UserMessage.message) in
  answer ← lift (getitem l.(caddy_response) "answer");
  answer ← match answer with
            | VStr answer => mret (remove_role_played_responses answer).2
            | _ => raise AttributeError
            end;
  let response_card := ResponseCard (VStr answer) false in
  supervision_caddy_message_id ←
    match l.(supervision_caddy_message_id) with
    | Some id => mret id
    | None => raise UnboundLocalError
    end;
  _ ← emit (UpdateMessageInSupervisorSpace r.(supervisor_space)
              supervision_caddy_message_id response_card);
  let ai_response_timestamp := datetime_now env in
  let llm_response :=
    {| LlmResponse.response_id := new_response_id env;
       LlmResponse.message_id := caddy_query.(UserMessage.message_id);
       LlmResponse.llm_prompt := caddy_query.(UserMessage.message);
       LlmResponse.llm_answer := answer;
       LlmResponse.thread_id := caddy_query.(UserMessage.thread_id);
       LlmResponse.llm_prompt_timestamp := ai_prompt_timestamp env;
       LlmResponse.llm_response_json := json_dumps_card env response_card;
       LlmResponse.llm_response_timestamp := ai_response_timestamp |} in
  _ ← store_response env llm_response;
  let supervision_event :=
    {| SupervisionEvent.type := "SUPERVISION_REQUIRED";
       SupervisionEvent.source_client := caddy_query.(UserMessage.client);
       SupervisionEvent.user := caddy_query.(UserMessage.user_email);
       SupervisionEvent.llmPrompt := llm_response.(LlmResponse.llm_prompt);
       SupervisionEvent.llm_answer := llm_response.(LlmResponse.llm_answer);
       SupervisionEvent.llm_response_json :=
         json_dumps_str env llm_response.(LlmResponse.llm_response_json);
       SupervisionEvent.conversation_id := caddy_query.(UserMessage.conversation_id);
       SupervisionEvent.thread_id := caddy_query.(UserMessage.thread_id);
       SupervisionEvent.message_id := caddy_query.(UserMessage.message_id);
       SupervisionEvent.response_id := llm_response.(LlmResponse.response_id) |} in
  _ ← emit (adviser_update r AWAITING_SUPERVISOR_APPROVAL);
  _ ← store_user_thanked_timestamp env llm_response;
  _ ← emit (UpdateMessageInSupervisorSpace r.(supervisor_space)
              r.(supervision_message_id) (card request_awaiting));
  let supervision_card :=
    SupervisionCard user supervision_event
      (py_str env r.(supervision_message_id))
      (card request_approved) (card request_rejected) response_card in
  _ ← emit (UpdateMessageInSupervisorSpace r.(supervisor_space)
              supervision_caddy_message_id supervision_card);
  store_approver_received_timestamp env supervision_event.

(** The retry loop as a step of [send_to_llm]: an exception that leaves
    the loop leaves [send_to_llm]. *)
Definition run_retry_loop (env : collaborators) (r : request) : M locals :=
  fun w =>
    match retry_loop env r (range 4) initial_locals w with
    | (Some e, _, w) => (inl e, w)
    | (None, l, w) => (inr l, w)
    end.

Definition send_to_llm (env : collaborators) (caddy_query : UserMessage.t) : M unit :=
  let query := caddy_query.(UserMessage.message) in
  chat_history ← get_chat_history caddy_query;
  _ ← lift (subscript (VList (VStr <$> split_on 64 caddy_query.(UserMessage.user_email)))
              (Index 1));
  let user := caddy_query.(UserMessage.user_email) in
  let supervisor_space := get_designated_supervisor_space env user in
  _ ← match supervisor_space with
       | VStr s =>
           if bool_decide (s = ("Unknown" : str)) then raise SupervisionSpaceUnknown
           else mret tt
       | _ => mret tt
       end;
  let request_processing := SupervisionRequest request_processing user query in
  _ ← emit (SendMessageToSupervisorSpace supervisor_space request_processing);
  let '(supervision_thread_id, supervision_message_id) :=
    supervision_thread_and_message env supervisor_space request_processing in
  let r := {| caddy_query := caddy_query; chat_history := chat_history;
              supervisor_space := supervisor_space;
              supervision_thread_id := supervision_thread_id;
              supervision_message_id := supervision_message_id |} in
  l ← run_retry_loop env r;
  finalise_answer env r l.

(** [any(isinstance(output, dict) and output.get("end_interaction"))] over
    the values of the module outputs, the test of the loop that ends the
    interaction. *)
Definition signals_end_interaction (output : value) : bool :=
  match output with
  | VDict d =>
      match d !! ("end_interaction" : str) with
      | Some flag => truthy flag
      | None => false
      end
  | _ => false
  end.

Definition handle_message (env : collaborators)
    (caddy_message : ProcessChatMessageEvent.t) : M (option Response) :=
  '(module_values, survey_complete) ← check_existing_call env caddy_message;
  if survey_complete : bool then
    _ ← emit (UpdateMessageInAdviserSpace "text"
                (VStr caddy_message.(ProcessChatMessageEvent.space_id))
                (VStr caddy_message.(ProcessChatMessageEvent.message_id))
                (Template SURVEY_ALREADY_COMPLETED));
    mret (Some {| status_code := HTTP_204_NO_CONTENT |})
  else
    module_outputs_json ← lift (getitem module_values "moduleOutputs");
    continue_conversation ← lift (getitem module_values "continueConversation");
    control_group_message ← lift (getitem module_values "controlGroupMessage");
    let message_query := format_chat_message env caddy_message in
    _ ← store_message env message_query;
    if is_False continue_conversation then
      _ ← emit (UpdateMessageInAdviserSpace "cardsV2"
                  (VStr message_query.(UserMessage.conversation_id))
                  (VStr message_query.(UserMessage.message_id))
                  (ControlGroupSelection control_group_message));
      _ ← emit (CallCompleteConfirmation
                  (VStr message_query.(UserMessage.user_email))
                  (VStr message_query.(UserMessage.conversation_id))
                  (VStr message_query.(UserMessage.thread_id)));
      mret (Some {| status_code := HTTP_204_NO_CONTENT |})
    else
      module_outputs_json ←
        match module_outputs_json with
        | VStr s => lift (json_loads env s)
        | _ => raise TypeError
        end;
      outputs ← match module_outputs_json with
                 | VDict d => mret (map_to_list d).*2
                 | _ => raise AttributeError
                 end;
      if existsb signals_end_interaction outputs then
        mret (Some {| status_code := HTTP_204_NO_CONTENT |})
      else
        _ ← emit (UpdateMessageInAdviserSpace "cardsV2"
                    (VStr message_query.(UserMessage.conversation_id))
                    (VStr message_query.(UserMessage.message_id))
                    (Template COMPOSING_MESSAGE));
        _ ← send_to_llm env message_query;
        mret None.

(** ** Supervisor approval ([integrations/google_chat/structures.py]) *)

(** [card["cardsV2"][0]["card"]["sections"]] *)
Definition sections : list key := [Field "cardsV2"; Index 0; Field "card"; Field "sections"].


(** [s.split("/")[i]] *)
Definition split_component (s : value) (i : nat) : exn + value :=
  match s with
  | VStr s => subscript (VList (VStr <$> split_on 47 s)) (Index i)
  | _ => inl AttributeError
  end.

(** [json.loads(s)] *)
Definition loads (env : collaborators) (s : value) : exn + value :=
  match s with
  | VStr s => json_loads env s
  | _ => inl TypeError
  end.


(** The sections are copied into a deque (whatever can be iterated is
    accepted), the last one (the approve and reject buttons) is popped and
    the decision is appended in its place; the list made of the deque is
    put back. *)
Definition create_updated_supervision_card (env : collaborators)
    (supervision_card approver : value) (approved : bool)
    (supervisor_message : value) : exn + value :=
  let approval_section :=
    if approved then approval_json_widget env approver
    else rejection_json_widget env approver supervisor_message in
  update_at supervision_card sections
    (fun card_for_approval_sections =>
       match iterate card_for_approval_sections with
       | inl e => inl e
       | inr card_for_approval_sections =>
           match rev card_for_approval_sections with
           | [] => inl IndexError
           | _ :: kept => inr (VList (rev kept ++ [approval_section]))
           end
       end).



(** The store write of [handle_survey_response] ([structures.py], lines
    251 to 259): the answer [{question: response}] is appended to the
    [surveyResponse] list of the thread's evaluation record, which is
    created when absent. The store refuses [list_append] on an attribute
    that is not a list, and [update_item] then raises. The update of the
    survey card that follows it in the source writes to no table and is
    left out. *)
Definition record_survey_response (thread_id question : str) (response : value) : M unit :=
  let survey_response := [VDict (mk_dict [question =: response])] in
  item ← gets (fun w => default {[ ("threadId" : str) := VStr thread_id ]}
                          (evaluation_table w !! thread_id));
  answers ← match item !! ("surveyResponse" : str) with
             | Some (VList answers) => mret answers
             | Some _ => raise ClientError
             | None => mret []
             end;
  modify (fun w =>
    set_evaluation_table
      (update_item "threadId" thread_id
         ["surveyResponse" =: VList (answers ++ survey_response)]
         (evaluation_table w)) w).

(** ** Notions used in the statements *)

(** The two literal markers of a role-played continuation. *)
Definition is_marker (m : str) : Prop :=
  m = ("Adviser: " : str) \/ m = ("Advisor: " : str).

(** [pre] is the text of [s] strictly before the first marker of either
    spelling. *)
Definition before_first_marker (s pre : str) : Prop :=
  (exists m post, is_marker m /\ s = pre ++ m ++ post) /\
  forall m pre' post', is_marker m -> s = pre' ++ m ++ post' ->
    (length pre <= length pre')%nat.

(** The interim updates of the supervisor's view: the streaming card sent
    with [update_message_in_supervisor_space] at a flush. *)
Definition is_interim_update (e : event) : bool :=
  match e with
  | UpdateMessageInSupervisorSpace _ _ (ResponseCard _ true) => true
  | _ => false
  end.

Definition interim_updates (tr : list event) : nat :=
  length (filter (fun e => is_interim_update e = true) tr).

(** The schedule of a trace: the attempts at streaming (each opens a
    stream with [chain.stream]) and the backoff waits, in the order they
    happen. *)
Inductive step :=
| Attempt
| Wait (seconds : Z).

Definition schedule (tr : list event) : list step :=
  omap (fun e => match e with
                 | ChainStream _ _ => Some Attempt
                 | Sleep n => Some (Wait n)
                 | _ => None
                 end) tr.

(** The terminal failure notices on the user-facing and on the
    supervisor-facing surface. *)
Definition is_user_failure_notice (e : event) : bool :=
  match e with
  | UpdateMessageInAdviserSpace _ _ _ (Template REQUEST_FAILURE) => true
  | _ => false
  end.

Definition is_supervisor_failure_notice (e : event) : bool :=
  match e with
  | UpdateMessageInSupervisorSpace _ _ (SupervisionRequest request_failed _ _) => true
  | _ => false
  end.

Definition user_failure_notices (tr : list event) : nat :=
  length (filter (fun e => is_user_failure_notice e = true) tr).

Definition supervisor_failure_notices (tr : list event) : nat :=
  length (filter (fun e => is_supervisor_failure_notice e = true) tr).

Arguments interim_updates : simpl never.
Arguments schedule : simpl never.
Arguments user_failure_notices : simpl never.
Arguments supervisor_failure_notices : simpl never.

(** An attempt fails when its [try] block raises, and completes when it
    leaves the retry loop; neither depends on what the earlier attempts
    left behind. *)
Definition attempt_fails (env : collaborators) (r : request) (attempt : Z) : Prop :=
  forall l w, exists e l' w', attempt_body env r attempt l w = (Raise e, l', w').

Definition attempt_completes (env : collaborators) (r : request) (attempt : Z) : Prop :=
  forall l w, exists l' w', attempt_body env r attempt l w = (Break, l', w').

(** The answer text a chunk brings, when it is a string. *)
Definition answer_delta (chunk : dict) : option str :=
  match chunk !! ("answer" : str) with
  | Some (VStr delta) => Some delta
  | _ => None
  end.




(** The answer text accumulated in the response so far. *)
Definition held_answer (caddy_response : dict) : str :=
  match caddy_response !! ("answer" : str) with
  | Some (VStr answer) => answer
  | _ => []
  end.

(** Early termination in the words of the specification: the accumulated
    answer takes each piece of answer text; at each interim update it is
    scanned for a marker, and when one is found the stream is treated as
    finished and no further fragment is consumed; otherwise the answer
    goes on from the text shown in the update. For the answer [answer]
    accumulated so far and the unflushed text [buffer], [stops_after] is
    the number of chunks consumed when the stream is ended in this way, and
    [None] when it never is. *)
Fixpoint stops_after (answer buffer : str) (chunks : list dict) : option nat :=
  match chunks with
  | [] => None
  | chunk :: rest =>
      match answer_delta chunk with
      | None => S <$> stops_after answer buffer rest
      | Some delta =>
          if 75 <=? len (buffer ++ delta) then
            let '(marker_found, shown) := remove_role_played_responses (answer ++ delta) in
            if marker_found then Some 1%nat
            else S <$> stops_after shown [] rest
          else S <$> stops_after (answer ++ delta) (buffer ++ delta) rest
      end
  end.


(** The merge rule for one field in the words of the specification: text
    arriving for a field that holds text is appended, anything else
    replaces what the field holds. *)
Definition merge_value (current arriving : option value) : option value :=
  match arriving with
  | None => current
  | Some v =>
      match current, v with
      | Some (VStr accumulated), VStr delta => Some (VStr (accumulated ++ delta))
      | _, _ => Some v
      end
  end.



(** An evaluation record with [callComplete] false: an open call. *)
Definition is_open (item : dict) : bool :=
  match item !! ("callComplete" : str) with
  | Some (VBool false) => true
  | _ => false
  end.

Definition open_calls (w : world) : gmap str dict :=
  filter (fun kv => is_open kv.2 = true) (evaluation_table w).

(** The user's record says a call is active. *)
Definition has_active_call (w : world) (user : str) : Prop :=
  exists item, users_table w !! user = Some item /\
               item !! ("activeCall" : str) = Some (VBool true).

(** What one user does: send a message, or press "Mark call complete" on
    the card of a thread ([finalise_caddy_call], which calls
    [mark_call_complete] with the thread of the card). *)
Inductive action :=
| SendMessage (caddy_message : ProcessChatMessageEvent.t)
| MarkCallComplete (thread_id : str).

Definition perform (env : collaborators) (user : str) (a : action) (w : world) : world :=
  match a with
  | SendMessage caddy_message => (handle_message env caddy_message w).2
  | MarkCallComplete thread_id => (mark_call_complete user thread_id w).2
  end.

(** A sequence of actions, from first to last. *)
Definition run (env : collaborators) (user : str) (actions : list action) (w : world)
    : world :=
  foldl (fun w a => perform env user a w) w actions.

Definition sent_by (user : str) (a : action) : Prop :=
  match a with
  | SendMessage caddy_message => caddy_message.(ProcessChatMessageEvent.user) = user
  | MarkCallComplete _ => True
  end.

(** The completion is pressed on the thread the user's record holds as
    [activeThreadId]. *)
Definition completes_active_thread (user : str) (a : action) (w : world) : Prop :=
  match a with
  | SendMessage _ => True
  | MarkCallComplete thread_id =>
      exists item, users_table w !! user = Some item /\
                   item !! ("activeThreadId" : str) = Some (VStr thread_id)
  end.

(** The worlds one user reaches from an empty store, with every completion
    pressed on the active thread. *)
Inductive reachable (env : collaborators) (user : str) : world -> Prop :=
| reachable_empty : reachable env user empty_world
| reachable_step w a :
    reachable env user w -> sent_by user a -> completes_active_thread user a w ->
    reachable env user (perform env user a w).


(** A world seen through the three observers of the retry policy. *)
Definition same_notices (w w' : world) : Prop :=
  schedule (trace w') = schedule (trace w) /\
  user_failure_notices (trace w') = user_failure_notices (trace w) /\
  supervisor_failure_notices (trace w') = supervisor_failure_notices (trace w).

(** The two tables of the call gate are the same in two worlds. *)
Definition same_gate (w w' : world) : Prop :=
  users_table w' = users_table w /\ evaluation_table w' = evaluation_table w.

(** A computation that writes to neither table of the call gate. *)
Definition keeps_gate {A} (m : M A) : Prop := forall w, same_gate w (m w).2.

(** Every open record is the record of the user's active thread. *)
Definition open_is_active (user : str) (w : world) : Prop :=
  forall thread_id item,
    evaluation_table w !! thread_id = Some item -> is_open item = true ->
    exists user_item,
      users_table w !! user = Some user_item /\
      user_item !! ("activeCall" : str) = Some (VBool true) /\
      user_item !! ("activeThreadId" : str) = Some (VStr thread_id).

(** ** A concrete instance, to run the model *)

Module Example.

Definition module_values (continue_conversation : bool) (module_outputs : str) : dict :=
  mk_dict
    ["modulesUsed" =:
       VList [VDict (mk_dict ["module_arguments" =:
                                VDict (mk_dict ["split" =: VInt 1])])];
     "moduleOutputs" =: VStr module_outputs;
     "continueConversation" =: VBool continue_conversation;
     "controlGroupMessage" =: VStr "control group"].

(** The two JSON texts of the examples: [{}] and an object whose module
    [m] asks to end the interaction (34 is the double quote). *)
Definition end_interaction_json : str :=
  py "{" ++ [34%N] ++ py "m" ++ [34%N] ++ py ": {" ++ [34%N]
  ++ py "end_interaction" ++ [34%N] ++ py ": true}}".

(** The cards of the examples: the answer card, as [create_card] lays it
    out, and the request card shown once a request is approved. *)
Definition answer_section : value :=
  VDict (mk_dict ["widgets" =:
                    VList [VDict (mk_dict ["textParagraph" =:
                                             VDict (mk_dict ["text" =: VStr "Claim online."])])]]).

Definition card_of (card_sections : list value) : value :=
  VDict (mk_dict ["cardsV2" =:
                    VList [VDict (mk_dict ["cardId" =: VStr "aiResponseCard";
                                           "card" =:
                                             VDict (mk_dict ["sections" =:
                                                               VList card_sections])])]]).

Definition approved_request_card : value :=
  VDict (mk_dict ["cardsV2" =: VList []]).

(** The texts that the examples parse: they stand for the JSON of the
    answer card and of the request card. *)
Definition parse (s : str) : exn + value :=
  if bool_decide (s = ("{}" : str)) then inr (VDict ∅)
  else if bool_decide (s = end_interaction_json) then
    inr (VDict (mk_dict ["m" =: VDict (mk_dict ["end_interaction" =: VBool true])]))
  else if bool_decide (s = ("card" : str)) then inr (card_of [answer_section])
  else if bool_decide (s = ("approved" : str)) then inr approved_request_card
  else inl JSONDecodeError.

Definition env (module_values : dict) (streams : Z -> stream) : collaborators :=
  {| execute_optional_modules := fun _ => inr module_values;
     json_loads := parse;
     json_dumps_card := fun _ => "card";
     json_dumps_str := fun s => s;
     repr := fun x => match x with VInt 1 => "1" | _ => "object" end;
     datetime_now := VStr "2024-05-01 10:00:00";
     call_start_clock := "01-05-2024 10:00";
     chain_stream := fun _ _ attempt => streams attempt;
     ai_prompt_timestamp := VStr "2024-05-01 09:59:59";
     get_designated_supervisor_space := fun _ => VStr "SUPERVISORS";
     supervision_thread_and_message := fun _ _ => (VStr "sthread", VStr "srequest");
     supervision_reply_message := fun _ _ _ => VStr "sreply";
     new_response_id := "response-1";
     approval_json_widget := fun approver => VDict (mk_dict ["approvedBy" =: approver]);
     rejection_json_widget := fun approver message =>
       VDict (mk_dict ["rejectedBy" =: approver; "message" =: message]) |}.

Definition message (thread_id : str) : ProcessChatMessageEvent.t :=
  {| ProcessChatMessageEvent.user := "adviser@example.org";
     ProcessChatMessageEvent.name := "users/1";
     ProcessChatMessageEvent.space_id := "SPACE";
     ProcessChatMessageEvent.thread_id := thread_id;
     ProcessChatMessageEvent.message_id := "MESSAGE";
     ProcessChatMessageEvent.message_string := "How do I claim Universal Credit?";
     ProcessChatMessageEvent.source_client := "Google Chat";
     ProcessChatMessageEvent.timestamp := VStr "2024-05-01T09:59:58Z" |}.

Definition query (env : collaborators) : UserMessage.t :=
  format_chat_message env (message "THREAD").

Definition request (env : collaborators) : request :=
  {| caddy_query := query env; chat_history := [];
     supervisor_space := VStr "SUPERVISORS";
     supervision_thread_id := VStr "sthread";
     supervision_message_id := VStr "srequest" |}.

(** A stream of answer text, one chunk per piece. *)
Definition answer_stream (pieces : list str) (failure : option exn) : stream :=
  {| chunks := (fun piece => mk_dict ["answer" =: VStr piece]) <$> pieces;
     failure := failure |}.

(** The answer stored by [send_to_llm] when every attempt streams [pieces]. *)
Definition stored_answer (pieces : list str) : option value :=
  let env := env (module_values true "{}") (fun _ => answer_stream pieces None) in
  item ← responses_table (send_to_llm env (query env) empty_world).2 !! ("THREAD" : str);
  item !! ("llmAnswer" : str).

(** Three instances: the evaluation module puts the call in the control
    group; the call proceeds and the generator answers; a module asks to end
    the interaction. *)
Definition control_env : collaborators :=
  env (module_values false "{}") (fun _ => answer_stream [] None).

Definition answering_env : collaborators :=
  env (module_values true "{}") (fun _ => answer_stream [py "Claim online."] None).

Definition ending_env : collaborators :=
  env (module_values true end_interaction_json) (fun _ => answer_stream [] None).

Definition user : str := "adviser@example.org".

(** What [check_existing_call] returns, and the world it leaves. *)
Definition gate_values (env : collaborators) (m : ProcessChatMessageEvent.t)
    (w : world) : dict :=
  match (check_existing_call env m w).1 with
  | inr (module_values, _) => module_values
  | inl _ => ∅
  end.

Definition gate_world (env : collaborators) (m : ProcessChatMessageEvent.t)
    (w : world) : world :=
  (check_existing_call env m w).2.

(** A call on thread A is answered, marked complete and its survey is
    answered; then a new call is opened on thread B. *)
Definition after_survey : world :=
  let w := (handle_message answering_env (message "A") empty_world).2 in
  let w := (mark_call_complete user "A" w).2 in
  (record_survey_response "A" "Was Caddy helpful?" (VStr "Yes") w).2.

Definition after_survey_and_new_call : world :=
  (handle_message answering_env (message "B") after_survey).2.

(** The event of the chat platform when the supervisor a@b.org presses
    the approve button of the supervision card. *)
Definition approve_buttons : value :=
  VDict (mk_dict ["widgets" =: VList [VDict (mk_dict ["buttonList" =: VDict ∅])]]).

Definition approval_event : value :=
  VDict (mk_dict
    ["common" =:
       VDict (mk_dict
         ["parameters" =:
            VDict (mk_dict
              ["aiResponse" =: VStr "card";
               "conversationId" =: VStr "SPACE";
               "responseId" =: VStr "response-1";
               "threadId" =: VStr "A";
               "messageId" =: VStr "MESSAGE";
               "newRequestId" =: VStr "srequest";
               "requestApproved" =: VStr "approved";
               "userEmail" =: VStr user])]);
     "user" =: VDict (mk_dict ["email" =: VStr "a@b.org"]);
     "space" =: VDict (mk_dict ["name" =: VStr "spaces/SUPERVISORS"]);
     "message" =:
       VDict (mk_dict
         ["name" =: VStr "spaces/SUPERVISORS/messages/sreply";
          "cardsV2" =:
            VList [VDict (mk_dict
                     ["card" =:
                        VDict (mk_dict ["sections" =:
                                          VList [answer_section; approve_buttons]])])]]);
     "eventTime" =: VStr "2024-05-01T10:05:00Z"]).


(** The locals after a stream whose answer ends in a role-played turn. *)
Definition truncated_locals : locals :=
  {| first_chunk := false;
     caddy_response := mk_dict ["answer" =: VStr "Claim online. Adviser: anything else?"];
     accumulated_answer := "";
     supervision_caddy_message_id := Some (VStr "sreply") |}.

(** The generator fails after one chunk on the first three attempts; on
    the fourth it answers, or fails again. *)
Definition retry_streams (fourth : stream) (attempt : Z) : stream :=
  if attempt <? 3 then answer_stream [py "Uni"] (Some (GeneratorError 503))
  else fourth.

End Example.

(** ** Further notions used in the statements *)

(** The schedule of [failed] attempts that are retried, the first of them
    the attempt number [first]: each is followed by its backoff wait, the
    square of its number. *)
Definition retried (first failed : nat) : list step :=
  flat_map (fun attempt => [Attempt; Wait (Z.of_nat attempt ^ 2)]) (seq first failed).

(** The interim updates of one message of the supervisor's view. *)
Definition rewrites (space id : value) (e : event) : Prop :=
  exists text, e = UpdateMessageInSupervisorSpace space id (ResponseCard (VStr text) true).

(** The four fields of a call's configuration. *)
Definition configuration : list str :=
  [py "modulesUsed"; py "moduleOutputs"; py "continueConversation"; py "controlGroupMessage"].

(** The fields of the configuration that [handle_message] reads. *)
Definition read_by_handle_message : list str :=
  [py "moduleOutputs"; py "continueConversation"; py "controlGroupMessage"].

(** Several events, in order. *)
Definition emit_all (events : list event) (w : world) : world :=
  foldl (fun w e => emit_to e w) w events.

(** One exchange of the history, as stored on an answer record. *)
Definition exchange_of (item : dict) (exchange : value * value) : Prop :=
  item !! ("llmPrompt" : str) = Some exchange.1 /\
  item !! ("llmAnswer" : str) = Some exchange.2.

(** ** The chat client, down to the requests it sends ([structures.py]) *)

(** The two service accounts of [GoogleChat]: [self.caddy], which writes
    to the adviser spaces, and [self.supervisor]. *)
Inductive account :=
| Caddy
| Supervisor.

(** A request to the chat platform:
    [spaces().messages().create(parent, body, messageReplyOption)] and
    [spaces().messages().patch(name, updateMask, body)]. *)
Inductive api_request :=
| MessagesCreate (sender : account) (parent : str) (body : value)
    (messageReplyOption : option str)
| MessagesPatch (sender : account) (name : str) (updateMask : str) (body : value).

(** What [GoogleChat] uses from outside [structures.py]: the platform,
    which answers every request ([execute]), [json.dumps], the services of
    [caddy_core.services] and the contents of [integrations.google_chat]. *)
Record google_chat := {
  execute : api_request -> value;
  json_dumps : value -> str;
  analyse : str -> value;
  get_survey : value -> value;
  check_if_survey_required : value -> value;
  supervisor_rejection : value -> value -> value;
  PROCESSING_MESSAGE : value;
  PII_DETECTED : value;
  CALL_COMPLETE : value;
  SURVEY_COMPLETE_WIDGET : value;
}.

(** The tables and the requests sent so far. *)
Record chat := {
  tables : world;
  requests : list api_request;
}.

(** Computations of the chat client. *)
Definition G (A : Type) : Type := chat -> (exn + A) * chat.

#[global] Instance G_ret : MRet G := fun A x s => (inr x, s).

#[global] Instance G_bind : MBind G := fun A B f m s =>
  match m s with
  | (inl e, s') => (inl e, s')
  | (inr x, s') => f x s'
  end.

Definition throw {A} (e : exn) : G A := fun s => (inl e, s).
(** The result of a computation that sends and writes nothing. *)
Definition read {A} (r : exn + A) : G A := fun s => (r, s).

(** A function of [caddy_core.components], run on the tables. *)
Definition on_tables {A} (m : M A) : G A := fun s =>
  let '(r, w) := m (tables s) in (r, {| tables := w; requests := requests s |}).

(** [request.execute()] *)
Definition send (client : google_chat) (request : api_request) : G value := fun s =>
  (inr (execute client request),
   {| tables := tables s; requests := requests s ++ [request] |}).

(** [f"spaces/{space_id}"], [f"spaces/{space_id}/messages/{message_id}"] and
    [f"spaces/{space_id}/threads/{thread_id}"] *)
Definition space_name (env : collaborators) (space_id : value) : str :=
  py "spaces/" ++ py_str env space_id.

Definition message_name (env : collaborators) (space_id message_id : value) : str :=
  py "spaces/" ++ py_str env space_id ++ py "/messages/" ++ py_str env message_id.

Definition thread_name (env : collaborators) (space_id thread_id : value) : str :=
  py "spaces/" ++ py_str env space_id ++ py "/threads/" ++ py_str env thread_id.

Definition REPLY_MESSAGE_FALLBACK_TO_NEW_THREAD : option str :=
  Some (py "REPLY_MESSAGE_FALLBACK_TO_NEW_THREAD").

(** [send_dynamic_to_adviser_space]; when no case of the [match] applies,
    [response] is unbound at the line that reads it. *)
Definition send_dynamic_to_adviser_space (env : collaborators) (client : google_chat)
    (response_type : str) (space_id message thread_id : value) : G (value * value) :=
  let thread := VDict (mk_dict ["name" =: VStr (thread_name env space_id thread_id)]) in
  response ←
    (if bool_decide (response_type = py "text") then
       send client
         (MessagesCreate Caddy (space_name env space_id)
            (VDict (mk_dict ["text" =: message; "thread" =: thread]))
            REPLY_MESSAGE_FALLBACK_TO_NEW_THREAD)
     else if bool_decide (response_type = py "cardsV2") then
       cardsV2 ← read (subscript message (Field "cardsV2"));
       send client
         (MessagesCreate Caddy (space_name env space_id)
            (VDict (mk_dict ["cardsV2" =: cardsV2; "thread" =: thread]))
            REPLY_MESSAGE_FALLBACK_TO_NEW_THREAD)
     else throw UnboundLocalError);
  name ← read (path response [Field "thread"; Field "name"]);
  thread_id ← read (split_component name 3);
  name ← read (path response [Field "name"]);
  message_id ← read (split_component name 3);
  mret (thread_id, message_id).

(** [update_message_in_adviser_space]: a [match] without a default case. *)
Definition update_message_in_adviser_space (env : collaborators) (client : google_chat)
    (message_type : str) (space_id message_id message : value) : G unit :=
  if bool_decide (message_type = py "text") then
    _ ← send client (MessagesPatch Caddy (message_name env space_id message_id) "text" message);
    mret tt
  else if bool_decide (message_type = py "cardsV2") then
    _ ← send client
          (MessagesPatch Caddy (message_name env space_id message_id) "cardsV2" message);
    mret tt
  else mret tt.

Definition update_survey_card_in_adviser_space (env : collaborators) (client : google_chat)
    (space_id message_id card : value) : G unit :=
  _ ← send client (MessagesPatch Caddy (message_name env space_id message_id) "cardsV2" card);
  mret tt.

Definition update_message_in_supervisor_space (env : collaborators) (client : google_chat)
    (space_id message_id new_message : value) : G unit :=
  _ ← send client
        (MessagesPatch Supervisor (message_name env space_id message_id) "cardsV2" new_message);
  mret tt.

Definition update_dynamic_message_in_adviser_space (env : collaborators)
    (client : google_chat) (space_id message_id : value) (response_type : str)
    (message : value) : G unit :=
  _ ← send client
        (MessagesPatch Caddy (message_name env space_id message_id) response_type message);
  mret tt.

Definition run_survey (env : collaborators) (client : google_chat)
    (survey_card user_space thread_id : value) : G unit :=
  _ ← send_dynamic_to_adviser_space env client "cardsV2" user_space survey_card thread_id;
  mret tt.

(** Computations that only raise or return. *)
#[global] Instance exn_ret : MRet (sum exn) := fun A x => inr x.

#[global] Instance exn_bind : MBind (sum exn) := fun A B f m =>
  match m with
  | inl e => inl e
  | inr x => f x
  end.

(** The layout shared by the cards that [GoogleChat] builds:
    [{"cardsV2": [{"cardId": ..., "card": {"sections": [...]}}]}], a section
    [{"widgets": [...]}] and a widget [{"buttonList": {"buttons": [...]}}]. *)
Definition one_card (card_id : str) (card_sections : list value) : value :=
  VDict (mk_dict
    ["cardsV2" =:
       VList [VDict (mk_dict
                ["cardId" =: VStr card_id;
                 "card" =: VDict (mk_dict ["sections" =: VList card_sections])])]]).

Definition widgets_section (widgets : list value) : value :=
  VDict (mk_dict ["widgets" =: VList widgets]).

Definition button_list (buttons : list value) : value :=
  VDict (mk_dict ["buttonList" =: VDict (mk_dict ["buttons" =: VList buttons])]).

(** A button [{"text": ..., "onClick": {"action": {...}}}]. *)
Definition button (text : str) (action : list (str * value)) : value :=
  VDict (mk_dict
    ["text" =: VStr text;
     "onClick" =: VDict (mk_dict ["action" =: VDict (mk_dict action)])]).

Definition action_parameter (key : str) (x : value) : value :=
  VDict (mk_dict ["key" =: VStr key; "value" =: x]).

(** [str(i)] for a counter. *)
Definition decimal (i : nat) : str := py (NilEmpty.string_of_uint (Nat.to_uint i)).

(** The button of one answer of a survey question. *)
Definition survey_button (question answer : value) : value :=
  VDict (mk_dict
    ["text" =: answer;
     "onClick" =:
       VDict (mk_dict
         ["action" =:
            VDict (mk_dict
              ["function" =: VStr "survey_response";
               "parameters" =:
                 VList [action_parameter "question" question;
                        action_parameter "response" answer]])])]).

(** The text that shows a question, [f"<b>{question}</b>"]. *)
Definition question_text (env : collaborators) (question : value) : str :=
  py "<b>" ++ py_str env question ++ py "</b>".

(** The section of the question number [i]: a label, the question and the
    buttons of its answers. *)
Definition survey_section (env : collaborators) (i : nat) (question_dict : value)
    : exn + value :=
  question ← subscript question_dict (Field "question");
  values ← subscript question_dict (Field "values");
  values ← iterate values;
  let label_section :=
    VDict (mk_dict ["decoratedText" =:
                      VDict (mk_dict ["topLabel" =: VStr (py "Question " ++ decimal i)])]) in
  let question_section :=
    VDict (mk_dict ["textParagraph" =:
                      VDict (mk_dict ["text" =: VStr (question_text env question)])]) in
  let button_section :=
    VDict (mk_dict ["buttonList" =:
                      VDict (mk_dict ["buttons" =: VList (survey_button question <$> values)])]) in
  inr (VDict (mk_dict ["widgets" =: VList [label_section; question_section; button_section]])).

(** The loop of [get_post_call_survey_card], from the question number
    [S i] on. *)
Fixpoint survey_sections (env : collaborators) (i : nat) (questions : list value)
    : exn + list value :=
  match questions with
  | [] => inr []
  | question_dict :: rest =>
      section ← survey_section env (S i) question_dict;
      sections ← survey_sections env (S i) rest;
      inr (section :: sections)
  end.

Definition get_post_call_survey_card (env : collaborators)
    (post_call_survey_questions : value) : exn + value :=
  questions ← iterate post_call_survey_questions;
  card_sections ← survey_sections env 0 questions;
  inr (one_card "postCallSurvey" card_sections).

(** [x == s] for a string [s]. *)
Definition equals_text (x : value) (s : str) : bool :=
  match x with
  | VStr t => bool_decide (t = s)
  | _ => false
  end.

(** The loop of [handle_survey_response] over the sections of the survey
    card: the first section that shows the question is deleted. [None]
    when no section shows it. *)
Fixpoint delete_question (target : str) (card_sections : list value)
    : exn + option (list value) :=
  match card_sections with
  | [] => inr None
  | section :: rest =>
      text ← path section [Field "widgets"; Index 1; Field "textParagraph"; Field "text"];
      if equals_text text target then inr (Some rest)
      else
        deleted ← delete_question target rest;
        inr (match deleted with
             | Some rest' => Some (section :: rest')
             | None => None
             end)
  end.

(** The sections of the survey card once the question is answered: the
    completion widget is appended when no section remains. *)
Definition answered (client : google_chat) (target : str) (card_sections : value)
    : exn + value :=
  match card_sections with
  | VList l =>
      deleted ← delete_question target l;
      let remaining := default l deleted in
      inr (VList (if Nat.eqb (length remaining) 0
                  then remaining ++ [SURVEY_COMPLETE_WIDGET client]
                  else remaining))
  | VStr [] => inl AttributeError
  | VDict d => if Nat.eqb (size d) 0 then inl AttributeError else inl (KeyError (VInt 0))
  | _ => inl TypeError
  end.

Definition handle_survey_response (env : collaborators) (client : google_chat)
    (event : value) : G unit :=
  question ← read (path event [Field "common"; Field "parameters"; Field "question"]);
  response ← read (path event [Field "common"; Field "parameters"; Field "response"]);
  name ← read (path event [Field "message"; Field "thread"; Field "name"]);
  threadId ← read (split_component name 3);
  card ← read (path event [Field "message"; Field "cardsV2"]);
  name ← read (path event [Field "space"; Field "name"]);
  spaceId ← read (split_component name 1);
  name ← read (path event [Field "message"; Field "name"]);
  messageId ← read (split_component name 3);
  question_key ← match question with
                  | VStr q => mret q
                  | _ => throw TypeError
                  end;
  _ ← on_tables (record_survey_response (py_str env threadId) question_key response);
  card ← read (update_at card [Index 0; Field "card"; Field "sections"]
                (answered client (question_text env question)));
  update_survey_card_in_adviser_space env client spaceId messageId
    (VDict (mk_dict ["cardsV2" =: card])).

(** The card that offers to mark the call complete; its button carries
    the survey. *)
Definition call_complete_card (client : google_chat) (survey_card : value) : value :=
  one_card "callCompleteCard"
    [widgets_section
       [button_list
          [button "Mark call complete"
             ["function" =: VStr "call_complete";
              "parameters" =:
                VList [action_parameter "survey" (VStr (json_dumps client survey_card))]]]]].

Definition call_complete_confirmation (env : collaborators) (client : google_chat)
    (user user_space thread_id : value) : G unit :=
  survey_card ← read (get_post_call_survey_card env (get_survey client user));
  _ ← send_dynamic_to_adviser_space env client "cardsV2" user_space
        (call_complete_card client survey_card) thread_id;
  mret tt.

Definition finalise_caddy_call (env : collaborators) (client : google_chat)
    (event : value) : G unit :=
  survey ← read (path event [Field "common"; Field "parameters"; Field "survey"]);
  survey_card ← read (loads env survey);
  name ← read (path event [Field "message"; Field "thread"; Field "name"]);
  thread_id ← read (split_component name 3);
  name ← read (path event [Field "space"; Field "name"]);
  user_space ← read (split_component name 1);
  user ← read (path event [Field "user"; Field "email"]);
  _ ← on_tables (mark_call_complete (py_str env user) (py_str env thread_id));
  let survey_required := check_if_survey_required client user in
  if is_True survey_required then
    name ← read (path event [Field "message"; Field "name"]);
    message_id ← read (split_component name 3);
    _ ← update_survey_card_in_adviser_space env client user_space message_id
          (CALL_COMPLETE client);
    run_survey env client survey_card user_space thread_id
  else mret tt.

(** [handle_supervisor_rejection], the sibling of
    [handle_supervisor_approval]. *)
Definition handle_supervisor_rejection (env : collaborators) (client : google_chat)
    (event : value) : G unit :=
  let parameter name := read (path event [Field "common"; Field "parameters"; Field name]) in
  cardsV2 ← read (path event [Field "message"; Field "cardsV2"]);
  let supervisor_card := VDict (mk_dict ["cardsV2" =: cardsV2]) in
  user_space ← parameter (py "conversationId");
  approver ← read (path event [Field "user"; Field "email"]);
  response_id ← parameter (py "responseId");
  name ← read (path event [Field "space"; Field "name"]);
  supervisor_space ← read (split_component name 1);
  name ← read (path event [Field "message"; Field "name"]);
  message_id ← read (split_component name 3);
  user_message_id ← parameter (py "messageId");
  supervisor_message ←
    read (path event [Field "common"; Field "formInputs"; Field "supervisorResponse";
                     Field "stringInputs"; Field "value"; Index 0]);
  thread_id ← parameter (py "threadId");
  request_message_id ← parameter (py "newRequestId");
  requestRejected ← parameter (py "requestRejected");
  request_card ← read (loads env requestRejected);
  user_email ← parameter (py "userEmail");
  _ ← update_message_in_supervisor_space env client supervisor_space request_message_id
        request_card;
  _ ← update_dynamic_message_in_adviser_space env client user_space user_message_id "cardsV2"
        (supervisor_rejection client approver supervisor_message);
  updated_supervision_card ←
    read (create_updated_supervision_card env supervisor_card approver false
           supervisor_message);
  _ ← update_message_in_supervisor_space env client supervisor_space message_id
        updated_supervision_card;
  eventTime ← read (path event [Field "eventTime"]);
  let rejection_event :=
    {| ApprovalEvent.response_id := response_id;
       ApprovalEvent.thread_id := thread_id;
       ApprovalEvent.approver_email := approver;
       ApprovalEvent.approved := false;
       ApprovalEvent.approval_timestamp := eventTime;
       ApprovalEvent.user_response_timestamp := datetime_now env;
       ApprovalEvent.supervisor_message := supervisor_message |} in
  _ ← on_tables (store_approver_event env rejection_event);
  call_complete_confirmation env client user_email user_space thread_id.

(** *** Incoming messages ([format_message]) *)

(** [s.replace(old, new)] for a non-empty [old]: the occurrences are taken
    from left to right and do not overlap; [skip] counts the characters of
    the occurrence being replaced that are still to pass. *)
Fixpoint replace_from (old new : str) (skip : nat) (s : str) : str :=
  match s with
  | [] => []
  | c :: s' =>
      match skip with
      | S skip' => replace_from old new skip' s'
      | O =>
          if starts_with old s then new ++ replace_from old new (length old - 1) s'
          else c :: replace_from old new 0 s'
      end
  end.

Definition replace (s old new : str) : str := replace_from old new 0 s.

(** [caddy_core.models.CaddyMessageEvent], as [format_message] fills it. *)
Module CaddyMessageEvent.
Record t := {
  type : str;
  user : value;
  name : value;
  space_id : value;
  thread_id : value;
  message_id : value;
  message_string : str;
  source_client : str;
  timestamp : value;
}.
End CaddyMessageEvent.

(** The card that warns of personal data in a message; both buttons carry
    the event of the message. *)
Definition pii_warning_card (client : google_chat) (message message_event : value)
    : list value :=
  [VDict (mk_dict
     ["cardId" =: VStr "PIIDetected";
      "card" =:
        VDict (mk_dict
          ["sections" =:
             VList
               [widgets_section
                  [VDict (mk_dict ["textParagraph" =: VDict (mk_dict ["text" =: message])])];
                widgets_section
                  [button_list
                     [button "Proceed without redaction"
                        ["function" =: VStr "Proceed";
                         "parameters" =:
                           VList [action_parameter "message_event"
                                    (VStr (json_dumps client message_event))]];
                      button "Edit original query"
                        ["function" =: VStr "edit_query_dialog";
                         "interaction" =: VStr "OPEN_DIALOG";
                         "parameters" =:
                           VList [action_parameter "message_event"
                                    (VStr (json_dumps client message_event))]]]]]])])].

Definition send_pii_warning_to_adviser_space (env : collaborators) (client : google_chat)
    (space_id thread_id message message_event : value) : G unit :=
  _ ← send client
        (MessagesCreate Caddy (space_name env space_id)
           (VDict (mk_dict
              ["cardsV2" =: VList (pii_warning_card client message message_event);
               "thread" =:
                 VDict (mk_dict ["name" =: VStr (thread_name env space_id thread_id)])]))
           REPLY_MESSAGE_FALLBACK_TO_NEW_THREAD);
  mret tt.

(** [format_message] returns the string ["PII Detected"] or the event for
    the core. *)
Definition format_message (env : collaborators) (client : google_chat) (event : value)
    : G (str + CaddyMessageEvent.t) :=
  name ← read (path event [Field "space"; Field "name"]);
  space_id ← read (split_component name 1);
  message ← read (subscript event (Field "message"));
  thread_id ←
    match message with
    | VDict d =>
        if contains d "thread" then
          name ← read (path message [Field "thread"; Field "name"]);
          read (split_component name 3)
        else mret VNone
    | _ => throw TypeError
    end;
  text ← read (subscript message (Field "text"));
  message_string ← match text with
                    | VStr text => mret (replace text "@Caddy" "")
                    | _ => throw AttributeError
                    end;
  let proceed := match event with
                 | VDict d => contains d "proceed"
                 | _ => false
                 end in
  let pii_identified := if proceed then VNone else analyse client message_string in
  if negb proceed && truthy pii_identified then
    _ ← send_pii_warning_to_adviser_space env client space_id thread_id
          (PII_DETECTED client) event;
    mret (inl (py "PII Detected"))
  else
    '(thread_id, message_id) ←
      send_dynamic_to_adviser_space env client "cardsV2" space_id
        (PROCESSING_MESSAGE client) thread_id;
    user ← read (path event [Field "user"; Field "email"]);
    name ← read (path event [Field "user"; Field "name"]);
    timestamp ← read (subscript event (Field "eventTime"));
    mret (inr {| CaddyMessageEvent.type := "PROCESS_CHAT_MESSAGE";
                 CaddyMessageEvent.user := user;
                 CaddyMessageEvent.name := name;
                 CaddyMessageEvent.space_id := space_id;
                 CaddyMessageEvent.thread_id := thread_id;
                 CaddyMessageEvent.message_id := message_id;
                 CaddyMessageEvent.message_string := message_string;
                 CaddyMessageEvent.source_client := "Google Chat";
                 CaddyMessageEvent.timestamp := timestamp |}).




(** *** The supervision card ([create_supervision_card]) *)

(** The fields of the supervision event that the card uses. *)
Record supervision := {
  llm_response_json : value;
  supervised_conversation_id : value;
  supervised_response_id : value;
  supervised_message_id : value;
  supervised_thread_id : value;
}.

(** The code points of the thumbs up and thumbs down signs. *)
Definition thumbs_up : str := [128077%N].
Definition thumbs_down : str := [128078%N].

Definition approval_buttons_section (client : google_chat) (user_email : value)
    (event : supervision) (new_request_message_id request_approved request_rejected : value)
    : value :=
  widgets_section
    [button_list
       [button thumbs_up
          ["function" =: VStr "Approved";
           "parameters" =:
             VList [action_parameter "aiResponse"
                      (VStr (json_dumps client event.(llm_response_json)));
                    action_parameter "conversationId" event.(supervised_conversation_id);
                    action_parameter "responseId" event.(supervised_response_id);
                    action_parameter "messageId" event.(supervised_message_id);
                    action_parameter "threadId" event.(supervised_thread_id);
                    action_parameter "newRequestId" new_request_message_id;
                    action_parameter "requestApproved"
                      (VStr (json_dumps client request_approved));
                    action_parameter "userEmail" user_email]];
        button thumbs_down
          ["function" =: VStr "rejected_dialog";
           "interaction" =: VStr "OPEN_DIALOG";
           "parameters" =:
             VList [action_parameter "conversationId" event.(supervised_conversation_id);
                    action_parameter "responseId" event.(supervised_response_id);
                    action_parameter "messageId" event.(supervised_message_id);
                    action_parameter "threadId" event.(supervised_thread_id);
                    action_parameter "newRequestId" new_request_message_id;
                    action_parameter "requestRejected"
                      (VStr (json_dumps client request_rejected));
                    action_parameter "userEmail" user_email]]]].

(** The sections are copied into a deque, the buttons are appended and the
    list is put back. *)
Definition create_supervision_card (client : google_chat) (user_email : value)
    (event : supervision) (new_request_message_id request_approved request_rejected : value)
    : exn + value :=
  let approval_buttons_section :=
    approval_buttons_section client user_email event new_request_message_id
      request_approved request_rejected in
  update_at event.(llm_response_json) sections
    (fun card_for_approval_sections =>
       card_for_approval_sections ← iterate card_for_approval_sections;
       inr (VList (card_for_approval_sections ++ [approval_buttons_section]))).

(** ** Further notions used in the statements about the chat client *)

(** What [finalise_caddy_call] reads from the event of the button. *)
Definition completion_of (event : value) (survey thread_id user_space user : value) : Prop :=
  path event [Field "common"; Field "parameters"; Field "survey"] = inr survey /\
  (exists name, path event [Field "message"; Field "thread"; Field "name"] = inr name /\
                split_component name 3 = inr thread_id) /\
  (exists name, path event [Field "space"; Field "name"] = inr name /\
                split_component name 1 = inr user_space) /\
  path event [Field "user"; Field "email"] = inr user.

(** The question of [question_dict] is shown as [target] on the card. *)
Definition shows (env : collaborators) (target : str) (question_dict : value) : bool :=
  match subscript question_dict (Field "question") with
  | inr question => bool_decide (question_text env question = target)
  | inl _ => false
  end.

(** The position of the first question shown as [target]. *)
Fixpoint first_shown (env : collaborators) (target : str) (questions : list value)
    : option nat :=
  match questions with
  | [] => None
  | question_dict :: rest =>
      if shows env target question_dict then Some 0%nat
      else S <$> first_shown env target rest
  end.

(** [card_sections] are the sections of a survey card for [questions]:
    each section is the one that [get_post_call_survey_card] builds for its
    question, under some number. *)
Definition sections_of (env : collaborators) (questions card_sections : list value) : Prop :=
  Forall2 (fun question_dict section =>
             exists i, survey_section env i question_dict = inr section)
    questions card_sections.

(** What is left of a list once the position [answered_at] is deleted. *)
Definition left_after {A} (answered_at : option nat) (l : list A) : list A :=
  match answered_at with
  | Some k => delete k l
  | None => l
  end.

(** What [handle_survey_response] reads from the event of an answer. *)
Definition answer_of (event : value) (question response threadId card spaceId messageId
    : value) : Prop :=
  path event [Field "common"; Field "parameters"; Field "question"] = inr question /\
  path event [Field "common"; Field "parameters"; Field "response"] = inr response /\
  (exists name, path event [Field "message"; Field "thread"; Field "name"] = inr name /\
                split_component name 3 = inr threadId) /\
  path event [Field "message"; Field "cardsV2"] = inr card /\
  (exists name, path event [Field "space"; Field "name"] = inr name /\
                split_component name 1 = inr spaceId) /\
  (exists name, path event [Field "message"; Field "name"] = inr name /\
                split_component name 3 = inr messageId).

(** The survey answers that an evaluation record holds: none when it has
    no [surveyResponse]; [None] when its [surveyResponse] is not a list. *)
Definition survey_answers (item : dict) : option (list value) :=
  match item !! ("surveyResponse" : str) with
  | None => Some []
  | Some (VList answers) => Some answers
  | Some _ => None
  end.

(** What a supervisor's rejection carries: the values that
    [handle_supervisor_rejection] reads from the event of the chat
    platform. *)
Record rejection := {
  supervision_cards : value;      (* the supervision card as shown *)
  adviser_space : value;          (* the end user's space *)
  rejected_by : value;            (* the approver's email *)
  rejected_response_id : value;
  rejection_space : value;        (* the supervisor space *)
  supervision_card_id : value;    (* the message of the supervision card *)
  adviser_message_id : value;
  supervisor_reply : value;       (* what the supervisor answers instead *)
  rejected_thread_id : value;
  request_message_id : value;
  request_rejected_card : value;
  adviser_email : value;
  rejection_time : value;
}.

Definition carries_rejection (env : collaborators) (event : value) (a : rejection) : Prop :=
  let parameter name := path event [Field "common"; Field "parameters"; Field name] in
  path event [Field "message"; Field "cardsV2"] = inr a.(supervision_cards) /\
  parameter (py "conversationId") = inr a.(adviser_space) /\
  path event [Field "user"; Field "email"] = inr a.(rejected_by) /\
  parameter (py "responseId") = inr a.(rejected_response_id) /\
  (exists name, path event [Field "space"; Field "name"] = inr name /\
                split_component name 1 = inr a.(rejection_space)) /\
  (exists name, path event [Field "message"; Field "name"] = inr name /\
                split_component name 3 = inr a.(supervision_card_id)) /\
  parameter (py "messageId") = inr a.(adviser_message_id) /\
  path event [Field "common"; Field "formInputs"; Field "supervisorResponse";
              Field "stringInputs"; Field "value"; Index 0] = inr a.(supervisor_reply) /\
  parameter (py "threadId") = inr a.(rejected_thread_id) /\
  parameter (py "newRequestId") = inr a.(request_message_id) /\
  (exists text, parameter (py "requestRejected") = inr text /\
                loads env text = inr a.(request_rejected_card)) /\
  parameter (py "userEmail") = inr a.(adviser_email).

(** The first two requests of [handle_supervisor_rejection]: the request
    card of the supervisor space and the adviser's message. *)
Definition rejection_notices (env : collaborators) (client : google_chat) (a : rejection)
    : list api_request :=
  [MessagesPatch Supervisor (message_name env a.(rejection_space) a.(request_message_id))
     "cardsV2" a.(request_rejected_card);
   MessagesPatch Caddy (message_name env a.(adviser_space) a.(adviser_message_id))
     "cardsV2" (supervisor_rejection client a.(rejected_by) a.(supervisor_reply))].



(** ** Further instances, to run the model of the chat client *)

Module Scenario.

(** The collaborators of the examples, for a given supervisor space and a
    given parser. *)
Definition env (space : value) (parse : str -> exn + value) : collaborators :=
  {| execute_optional_modules := execute_optional_modules Example.control_env;
     json_loads := parse;
     json_dumps_card := json_dumps_card Example.control_env;
     json_dumps_str := json_dumps_str Example.control_env;
     repr := repr Example.control_env;
     datetime_now := datetime_now Example.control_env;
     call_start_clock := call_start_clock Example.control_env;
     chain_stream := chain_stream Example.control_env;
     ai_prompt_timestamp := ai_prompt_timestamp Example.control_env;
     get_designated_supervisor_space := fun _ => space;
     supervision_thread_and_message := supervision_thread_and_message Example.control_env;
     supervision_reply_message := supervision_reply_message Example.control_env;
     new_response_id := new_response_id Example.control_env;
     approval_json_widget := approval_json_widget Example.control_env;
     rejection_json_widget := rejection_json_widget Example.control_env |}.

(** A user whose supervisor space is not known. *)
Definition unenrolled_env : collaborators := env (VStr "Unknown") Example.parse.

(** The query of a user with the email address [email]. *)
Definition query_of (email : str) : UserMessage.t :=
  format_chat_message Example.control_env
    {| ProcessChatMessageEvent.user := email;
       ProcessChatMessageEvent.name := "users/1";
       ProcessChatMessageEvent.space_id := "SPACE";
       ProcessChatMessageEvent.thread_id := "THREAD";
       ProcessChatMessageEvent.message_id := "MESSAGE";
       ProcessChatMessageEvent.message_string := "How do I claim Universal Credit?";
       ProcessChatMessageEvent.source_client := "Google Chat";
       ProcessChatMessageEvent.timestamp := VStr "2024-05-01T09:59:58Z" |}.

(** The platform creates every message as [SENT] in the thread [A] of the
    space [SPACE]. *)
Definition platform_answer : value :=
  VDict (mk_dict
    ["name" =: VStr "spaces/SPACE/messages/SENT";
     "thread" =: VDict (mk_dict ["name" =: VStr "spaces/SPACE/threads/A"])]).

Definition helpful : value :=
  VDict (mk_dict ["question" =: VStr "Was Caddy helpful?";
                  "values" =: VList [VStr "Yes"; VStr "No"]]).

Definition again : value :=
  VDict (mk_dict ["question" =: VStr "Would you use Caddy again?";
                  "values" =: VList [VStr "Yes"; VStr "No"]]).

Definition survey_complete_widget : value :=
  VDict (mk_dict ["textParagraph" =: VDict (mk_dict ["text" =: VStr "Survey complete"])]).

Definition client : google_chat :=
  {| execute := fun _ => platform_answer;
     json_dumps := fun _ => py "json";
     analyse := fun text =>
       VList (if find text "My name is" =? -1 then [] else [VStr "PERSON"]);
     get_survey := fun _ => VList [helpful; again];
     check_if_survey_required := fun _ => VBool true;
     supervisor_rejection := fun approver message =>
       VDict (mk_dict ["rejectedBy" =: approver; "text" =: message]);
     PROCESSING_MESSAGE := one_card "processing" [];
     PII_DETECTED := VStr "Personal data detected";
     CALL_COMPLETE := one_card "callComplete" [];
     SURVEY_COMPLETE_WIDGET := survey_complete_widget |}.

Definition no_requests : chat := {| tables := empty_world; requests := [] |}.

(** The adviser presses "Mark call complete" on the card [PRESSED] of
    thread A; the button carries the survey text [survey]. *)
Definition completion_event (survey : str) : value :=
  VDict (mk_dict
    ["common" =: VDict (mk_dict ["parameters" =: VDict (mk_dict ["survey" =: VStr survey])]);
     "message" =:
       VDict (mk_dict
         ["name" =: VStr "spaces/SPACE/messages/PRESSED";
          "thread" =: VDict (mk_dict ["name" =: VStr "spaces/SPACE/threads/A"])]);
     "space" =: VDict (mk_dict ["name" =: VStr "spaces/SPACE"]);
     "user" =: VDict (mk_dict ["email" =: VStr Example.user])]).

(** The sections of the survey card of the two questions. *)
Definition survey_card_sections : list value :=
  match survey_sections Example.control_env 0 [helpful; again] with
  | inr card_sections => card_sections
  | inl _ => []
  end.

(** The adviser answers [response] to [question] on the survey card with
    the sections [card_sections]. *)
Definition answer_event (question response : str) (card_sections : list value) : value :=
  VDict (mk_dict
    ["common" =:
       VDict (mk_dict
         ["parameters" =:
            VDict (mk_dict ["question" =: VStr question; "response" =: VStr response])]);
     "message" =:
       VDict (mk_dict
         ["name" =: VStr "spaces/SPACE/messages/SURVEY";
          "thread" =: VDict (mk_dict ["name" =: VStr "spaces/SPACE/threads/A"]);
          "cardsV2" =:
            VList [VDict (mk_dict
                     ["cardId" =: VStr "postCallSurvey";
                      "card" =: VDict (mk_dict ["sections" =: VList card_sections])])]]);
     "space" =: VDict (mk_dict ["name" =: VStr "spaces/SPACE"])]).

(** The supervisor a@b.org rejects the answer of thread A and replies;
    the supervision card shows [card_sections]. *)
Definition rejection_event (card_sections : list value) : value :=
  VDict (mk_dict
    ["common" =:
       VDict (mk_dict
         ["parameters" =:
            VDict (mk_dict
              ["conversationId" =: VStr "SPACE";
               "responseId" =: VStr "response-1";
               "threadId" =: VStr "A";
               "messageId" =: VStr "MESSAGE";
               "newRequestId" =: VStr "srequest";
               "requestRejected" =: VStr "approved";
               "userEmail" =: VStr Example.user]);
          "formInputs" =:
            VDict (mk_dict
              ["supervisorResponse" =:
                 VDict (mk_dict
                   ["stringInputs" =:
                      VDict (mk_dict ["value" =: VList [VStr "Claim by phone."]])])])]);
     "user" =: VDict (mk_dict ["email" =: VStr "a@b.org"]);
     "space" =: VDict (mk_dict ["name" =: VStr "spaces/SUPERVISORS"]);
     "message" =:
       VDict (mk_dict
         ["name" =: VStr "spaces/SUPERVISORS/messages/sreply";
          "cardsV2" =:
            VList [VDict (mk_dict
                     ["card" =: VDict (mk_dict ["sections" =: VList card_sections])])]]);
     "eventTime" =: VStr "2024-05-01T10:05:00Z"]).

Definition rejected (card_sections : list value) : rejection :=
  {| supervision_cards :=
       VList [VDict (mk_dict
                ["card" =: VDict (mk_dict ["sections" =: VList card_sections])])];
     adviser_space := VStr "SPACE";
     rejected_by := VStr "a@b.org";
     rejected_response_id := VStr "response-1";
     rejection_space := VStr "SUPERVISORS";
     supervision_card_id := VStr "sreply";
     adviser_message_id := VStr "MESSAGE";
     supervisor_reply := VStr "Claim by phone.";
     rejected_thread_id := VStr "A";
     request_message_id := VStr "srequest";
     request_rejected_card := Example.approved_request_card;
     adviser_email := VStr Example.user;
     rejection_time := VStr "2024-05-01T10:05:00Z" |}.

(** A message to Caddy with the text [text]. *)
Definition chat_event (text : str) : value :=
  VDict (mk_dict
    ["space" =: VDict (mk_dict ["name" =: VStr "spaces/SPACE"]);
     "message" =:
       VDict (mk_dict
         ["text" =: VStr text;
          "thread" =: VDict (mk_dict ["name" =: VStr "spaces/SPACE/threads/A"])]);
     "user" =: VDict (mk_dict ["email" =: VStr Example.user; "name" =: VStr "users/1"]);
     "eventTime" =: VStr "2024-05-01T09:59:58Z"]).

(** The parser of the buttons of the warning: the text [event] stands for
    the JSON of the message that was flagged. *)
Definition flagged : value := chat_event (py "@Caddy My name is Ann").



(** The adviser proceeds without redaction, or submits an edited query. *)
Definition proceed_event : value :=
  VDict (mk_dict
    ["common" =:
       VDict (mk_dict
         ["parameters" =: VDict (mk_dict ["message_event" =: VStr "event"])])]).


(** The supervision event of an answer card. *)
Definition supervised : supervision :=
  {| llm_response_json := Example.card_of [Example.answer_section];
     supervised_conversation_id := VStr "SPACE";
     supervised_response_id := VStr "response-1";
     supervised_message_id := VStr "MESSAGE";
     supervised_thread_id := VStr "A" |}.

End Scenario.

(** ** Facts about the string functions *)

Section PyStrFacts.

Lemma starts_with_spec (sub s : str) :
  starts_with sub s = true <-> exists post, s = sub ++ post.
Proof.
  revert s. induction sub as [|a sub IH]; intros s; simpl.
  - split; [intros _; now exists s | reflexivity].
  - destruct s as [|b s].
    + split; [discriminate | intros [post H]; discriminate].
    + rewrite andb_true_iff, N.eqb_eq, IH. split.
      * intros [-> [post ->]]. now exists post.
      * intros [post H]. injection H as -> ->. split; [reflexivity | now exists post].
Qed.

Lemma find_from_range (sub s : str) (i : Z) :
  find_from sub s i = -1 \/ i <= find_from sub s i <= i + len s.
Proof.
  unfold len. revert i. induction s as [|c s IH]; intros i; simpl.
  - destruct (starts_with sub []); [right; lia | now left].
  - destruct (starts_with sub (c :: s)); [right; lia |].
    destruct (IH (i + 1)) as [H | H]; [now left | right; lia].
Qed.

Lemma find_from_shift (sub s : str) (i : Z) :
  find_from sub s i = -1 /\ find_from sub s 0 = -1 \/
  find_from sub s i = i + find_from sub s 0 /\ 0 <= find_from sub s 0.
Proof.
  revert i. induction s as [|c s IH]; intros i; simpl.
  - destruct (starts_with sub []); [right; lia | now left].
  - destruct (starts_with sub (c :: s)); [right; lia |].
    change (0 + 1) with 1.
    destruct (IH (i + 1)) as [[H1 H0] | [H1 H0]];
      destruct (IH 1) as [[K1 K0] | [K1 K0]];
      first [lia | left; split; assumption | right; lia].
Qed.

(** A found index splits the string at the first occurrence. *)
Lemma find_found (s sub : str) :
  find s sub <> -1 ->
  before_first sub s (slice_to s (find s sub)).
Proof.
  unfold find. induction s as [|c s IH]; simpl.
  - destruct (starts_with sub []) eqn:E; [intros _ | congruence].
    apply starts_with_spec in E as [post E].
    split; [exists post; exact E | intros; simpl; lia].
  - destruct (starts_with sub (c :: s)) eqn:E.
    + intros _. apply starts_with_spec in E as [post E].
      split; [exists post; exact E | intros; simpl; lia].
    + change (0 + 1) with 1. intros Hne.
      destruct (find_from_shift sub s 1) as [[H1 H0] | [H1 H0]]; [congruence |].
      destruct (IH ltac:(lia)) as [[post Hpost] Hmin].
      rewrite H1. unfold slice_to in *.
      replace (1 + find_from sub s 0 <? 0) with false by (symmetry; apply Z.ltb_ge; lia).
      replace (find_from sub s 0 <? 0) with false in * by (symmetry; apply Z.ltb_ge; lia).
      replace (Z.to_nat (1 + find_from sub s 0)) with (S (Z.to_nat (find_from sub s 0))) by lia.
      simpl. split.
      * exists post. simpl. congruence.
      * intros pre' post' Heq. destruct pre' as [|c' pre'].
        -- exfalso. assert (starts_with sub (c :: s) = true) as Habs
             by (apply starts_with_spec; exists post'; exact Heq).
           congruence.
        -- simpl in Heq. injection Heq as _ Heq.
           specialize (Hmin _ _ Heq). simpl. lia.
Qed.

(** [find] answers [-1] only when there is no occurrence. *)
Lemma find_not_found (s sub : str) :
  find s sub = -1 -> ~ occurs sub s.
Proof.
  unfold find. induction s as [|c s IH]; simpl.
  - destruct (starts_with sub []) eqn:E; [discriminate |].
    intros _ (pre & post & Heq). destruct pre; simpl in Heq.
    + assert (starts_with sub [] = true) by (apply starts_with_spec; now exists post).
      congruence.
    + discriminate.
  - destruct (starts_with sub (c :: s)) eqn:E; [discriminate |].
    change (0 + 1) with 1. intros H (pre & post & Heq).
    destruct (find_from_shift sub s 1) as [[H1 H0] | [H1 H0]]; [| lia].
    destruct pre as [|c' pre]; simpl in Heq.
    + assert (starts_with sub (c :: s) = true) by (apply starts_with_spec; now exists post).
      congruence.
    + injection Heq as _ Heq. apply (IH H0). now exists pre, post.
Qed.

Lemma before_first_occurs (sub s pre : str) :
  before_first sub s pre -> occurs sub s.
Proof. intros [[post H] _]. now exists pre, post. Qed.

(** The text before the first occurrence is unique. *)
Lemma before_first_unique (sub s p q : str) :
  before_first sub s p -> before_first sub s q -> p = q.
Proof.
  intros [[post1 H1] M1] [[post2 H2] M2].
  pose proof (M1 _ _ H2). pose proof (M2 _ _ H1).
  assert (length p = length q) as Hlen by lia.
  rewrite H1 in H2. now apply app_inj_1 in H2 as [? _].
Qed.

Lemma lstrip_spec (s : str) :
  exists ws, s = ws ++ lstrip s /\ forallb is_space ws = true /\
             (match lstrip s with c :: _ => is_space c = false | [] => True end).
Proof.
  induction s as [|c s (ws & H1 & H2 & H3)]; simpl.
  - exists []. auto.
  - destruct (is_space c) eqn:E.
    + exists (c :: ws). simpl. rewrite E, H2. split; [congruence | auto].
    + exists []. simpl. auto.
Qed.

(** [strip] removes exactly a run of white space at each end. *)
Lemma strip_spec (s : str) :
  exists l r, s = l ++ strip s ++ r /\
              forallb is_space l = true /\ forallb is_space r = true /\
              (match strip s with c :: _ => is_space c = false | [] => True end) /\
              (match rev (strip s) with c :: _ => is_space c = false | [] => True end).
Proof.
  unfold strip, rstrip.
  destruct (lstrip_spec s) as (l & Hl & Hlws & Hlhd).
  destruct (lstrip_spec (rev (lstrip s))) as (r & Hr & Hrws & Hrhd).
  exists l, (rev r).
  assert (lstrip s = rev (lstrip (rev (lstrip s))) ++ rev r) as Hmid.
  { rewrite <- rev_app_distr, <- Hr. now rewrite rev_involutive. }
  repeat split.
  - rewrite <- Hmid. exact Hl.
  - exact Hlws.
  - rewrite forallb_forall in *. intros x Hx. apply Hrws. now apply in_rev.
  - destruct (rev (lstrip (rev (lstrip s)))) as [|c t] eqn:E; [exact I |].
    rewrite Hmid in Hlhd. simpl in Hlhd. exact Hlhd.
  - rewrite rev_involutive. exact Hrhd.
Qed.

End PyStrFacts.

(** ** Role-play truncation *)

Section Truncation.

Lemma occurs_find (s sub : str) : occurs sub s -> find s sub <> -1.
Proof. intros Hocc Hfind. exact (find_not_found s sub Hfind Hocc). Qed.

Lemma not_occurs_find (s sub : str) : ~ occurs sub s -> find s sub = -1.
Proof.
  intros Hno. destruct (Z.eq_dec (find s sub) (-1)) as [E | E]; [exact E |].
  exfalso. apply Hno. exact (before_first_occurs _ _ _ (find_found s sub E)).
Qed.

(** The three outcomes of [remove_role_played_responses], by the index
    that [find] returned. *)
Lemma remove_role_played_responses_cases (s : str) :
  (find s "Adviser: " <> -1 /\
   remove_role_played_responses s = (true, strip (slice_to s (find s "Adviser: ")))) \/
  (find s "Adviser: " = -1 /\ find s "Advisor: " <> -1 /\
   remove_role_played_responses s = (true, strip (slice_to s (find s "Advisor: ")))) \/
  (find s "Adviser: " = -1 /\ find s "Advisor: " = -1 /\
   remove_role_played_responses s = (false, strip s)).
Proof.
  unfold remove_role_played_responses.
  destruct (Z.eqb_spec (find s "Adviser: ") (-1)) as [E1 | E1]; simpl.
  - destruct (Z.eqb_spec (find s "Advisor: ") (-1)) as [E2 | E2]; simpl.
    + right. right. auto.
    + right. left. auto.
  - left. auto.
Qed.

(** The cut at ["Adviser: "], the cut at ["Advisor: "] and the answer
    without a marker. *)
Lemma truncated_at_adviser (s pre : str) :
  before_first "Adviser: " s pre ->
  remove_role_played_responses s = (true, strip pre).
Proof.
  intros Hpre.
  destruct (remove_role_played_responses_cases s)
    as [[F1 ->] | [(F1 & _) | (F1 & _)]].
  - f_equal. f_equal. exact (before_first_unique _ _ _ _ (find_found _ _ F1) Hpre).
  - exfalso. exact (find_not_found _ _ F1 (before_first_occurs _ _ _ Hpre)).
  - exfalso. exact (find_not_found _ _ F1 (before_first_occurs _ _ _ Hpre)).
Qed.

Lemma truncated_at_advisor (s pre : str) :
  ~ occurs "Adviser: " s -> before_first "Advisor: " s pre ->
  remove_role_played_responses s = (true, strip pre).
Proof.
  intros Hno Hpre.
  destruct (remove_role_played_responses_cases s)
    as [[F1 _] | [(_ & F2 & ->) | (_ & F2 & _)]].
  - exfalso. apply Hno. exact (before_first_occurs _ _ _ (find_found _ _ F1)).
  - f_equal. f_equal. exact (before_first_unique _ _ _ _ (find_found _ _ F2) Hpre).
  - exfalso. exact (find_not_found _ _ F2 (before_first_occurs _ _ _ Hpre)).
Qed.

Lemma not_truncated (s : str) :
  ~ occurs "Adviser: " s -> ~ occurs "Advisor: " s ->
  remove_role_played_responses s = (false, strip s).
Proof.
  intros Hno1 Hno2.
  destruct (remove_role_played_responses_cases s)
    as [[F1 _] | [(_ & F2 & _) | (_ & _ & ->)]].
  - exfalso. apply Hno1. exact (before_first_occurs _ _ _ (find_found _ _ F1)).
  - exfalso. apply Hno2. exact (before_first_occurs _ _ _ (find_found _ _ F2)).
  - reflexivity.
Qed.

(** C10. [remove_role_played_responses s] is [(True, p)] with [p] the
    stripped text before the first ["Adviser: "] when that marker occurs in
    [s]; otherwise [(True, p)] with [p] the stripped text before the first
    ["Advisor: "] when that one occurs; otherwise [(False, s.strip())]. An
    ["Adviser: "] therefore wins over an earlier ["Advisor: "], and the
    text is stripped in all three cases. *)
Theorem remove_role_played_responses_spec (s : str) :
  (forall pre, before_first "Adviser: " s pre ->
     remove_role_played_responses s = (true, strip pre)) /\
  (~ occurs "Adviser: " s ->
   forall pre, before_first "Advisor: " s pre ->
     remove_role_played_responses s = (true, strip pre)) /\
  (~ occurs "Adviser: " s -> ~ occurs "Advisor: " s ->
     remove_role_played_responses s = (false, strip s)).
Proof.
  split; [| split].
  - intros pre. apply truncated_at_adviser.
  - intros Hno pre. now apply truncated_at_advisor.
  - apply not_truncated.
Qed.

(** The precedence at work: the ["Advisor: "] that comes first is kept. *)
Lemma remove_role_played_responses_spec_witness :
  before_first "Adviser: " "a Advisor: b Adviser: c" "a Advisor: b " /\
  remove_role_played_responses "a Advisor: b Adviser: c" = (true, strip "a Advisor: b ").
Proof.
  assert (before_first "Adviser: " "a Advisor: b Adviser: c" "a Advisor: b ") as H.
  { apply (find_found "a Advisor: b Adviser: c" "Adviser: "). vm_compute. discriminate. }
  split; [exact H |].
  exact (proj1 (remove_role_played_responses_spec "a Advisor: b Adviser: c") _ H).
Defined.

End Truncation.

(** ** Tools for the proofs about dictionaries and computations *)

Lemma py_inj (a b : string) : py a = py b -> a = b.
Proof.
  unfold py. revert b.
  induction a as [|c a IH]; intros [|d b]; simpl; try discriminate; auto.
  intros H. injection H as Hc Hr. f_equal; [| now apply IH].
  apply (f_equal ascii_of_N) in Hc. now rewrite !ascii_N_embedding in Hc.
Qed.

(** Two different literals are different keys. *)
Ltac key_ne :=
  let H := fresh in
  intros H; first [ apply py_inj in H; discriminate H | vm_compute in H; discriminate H ].

Ltac map_lookup :=
  repeat first [ rewrite lookup_insert_eq
               | rewrite lookup_insert_ne by key_ne
               | rewrite lookup_empty ].

Ltac run_M :=
  unfold mbind, M_bind, mret, M_ret, lift, gets, modify, emit, raise.

Lemma slice_to_length (s : str) (i : Z) :
  0 <= i <= len s -> length (slice_to s i) = Z.to_nat i.
Proof.
  unfold slice_to, len. intros H.
  replace (i <? 0) with false by (symmetry; apply Z.ltb_ge; lia).
  rewrite length_take. lia.
Qed.

Lemma find_range (s sub : str) : find s sub = -1 \/ 0 <= find s sub <= len s.
Proof. unfold find. destruct (find_from_range sub s 0); [now left | right; lia]. Qed.

(** The first occurrence of a substring is where [find] says. *)
Lemma occurrence_after_find (s sub pre post : str) :
  s = pre ++ sub ++ post ->
  find s sub <> -1 /\ (Z.to_nat (find s sub) <= length pre)%nat.
Proof.
  intros Heq.
  assert (find s sub <> -1) as Hne by (apply occurs_find; now exists pre, post).
  split; [exact Hne |].
  destruct (find_found s sub Hne) as [_ Hmin].
  specialize (Hmin _ _ Heq).
  destruct (find_range s sub) as [? | Hr]; [contradiction |].
  now rewrite slice_to_length in Hmin.
Qed.

Lemma before_first_marker_intro (s pre m post : str) :
  is_marker m -> s = pre ++ m ++ post ->
  (find s "Adviser: " = -1 \/ (length pre <= Z.to_nat (find s "Adviser: "))%nat) ->
  (find s "Advisor: " = -1 \/ (length pre <= Z.to_nat (find s "Advisor: "))%nat) ->
  before_first_marker s pre.
Proof.
  intros Hm Heq H1 H2. split; [now exists m, post |].
  intros m' pre' post' [-> | ->] Heq';
    destruct (occurrence_after_find _ _ _ _ Heq') as [Hne Hle]; intuition lia.
Qed.

(** ** The finalised answer *)

Section FinalisedAnswer.

Variable env : collaborators.

(** [finalise_answer] stores the cleaned text of the answer the retry loop
    left. *)
Lemma finalise_answer_stores (r : request) (l : locals) (w : world) (s : str) (id : value) :
  l.(caddy_response) !! ("answer" : str) = Some (VStr s) ->
  l.(supervision_caddy_message_id) = Some id ->
  exists w' item,
    finalise_answer env r l w = (inr tt, w') /\
    responses_table w' !! r.(caddy_query).(UserMessage.thread_id) = Some item /\
    item !! ("llmAnswer" : str) = Some (VStr (remove_role_played_responses s).2).
Proof.
  intros Ha Hid. unfold finalise_answer, getitem. rewrite Ha, Hid.
  unfold store_response, store_user_thanked_timestamp, store_approver_received_timestamp.
  run_M. cbn. eexists. eexists. split; [reflexivity |]. split.
  - cbn. unfold update_item, put_item. map_lookup. cbn. map_lookup. cbn. reflexivity.
  - map_lookup. reflexivity.
Qed.

(** C1, as the code has it. When the answer text that the retry loop left
    in [caddy_response["answer"]] contains ["Adviser: "], the answer stored
    as [llmAnswer] is the text before the first ["Adviser: "] with the
    white space at both ends removed; when it contains only ["Advisor: "],
    it is the stripped text before the first ["Advisor: "]. *)
Theorem finalised_answer_truncated (r : request) (l : locals) (w : world)
    (s : str) (id : value) :
  l.(caddy_response) !! ("answer" : str) = Some (VStr s) ->
  l.(supervision_caddy_message_id) = Some id ->
  occurs "Adviser: " s \/ occurs "Advisor: " s ->
  exists w' item final,
    finalise_answer env r l w = (inr tt, w') /\
    responses_table w' !! r.(caddy_query).(UserMessage.thread_id) = Some item /\
    item !! ("llmAnswer" : str) = Some (VStr final) /\
    (forall pre, before_first "Adviser: " s pre -> final = strip pre) /\
    (~ occurs "Adviser: " s ->
     forall pre, before_first "Advisor: " s pre -> final = strip pre).
Proof.
  intros Ha Hid _.
  destruct (finalise_answer_stores r l w s id Ha Hid) as (w' & item & Hrun & Hitem & Hans).
  exists w', item, (remove_role_played_responses s).2.
  repeat split; try assumption.
  - intros pre Hpre. now rewrite (truncated_at_adviser s pre Hpre).
  - intros Hno pre Hpre. now rewrite (truncated_at_advisor s pre Hno Hpre).
Qed.

End FinalisedAnswer.

Lemma finalised_answer_truncated_witness :
  let env := Example.env (Example.module_values true "{}")
               (fun _ => Example.answer_stream [] None) in
  exists w' item final,
    finalise_answer env (Example.request env) Example.truncated_locals empty_world
      = (inr tt, w') /\
    responses_table w' !! ("THREAD" : str) = Some item /\
    item !! ("llmAnswer" : str) = Some (VStr final) /\
    final = strip "Claim online. ".
Proof.
  intros env.
  assert (before_first "Adviser: " "Claim online. Adviser: anything else?" "Claim online. ")
    as Hpre.
  { apply (find_found "Claim online. Adviser: anything else?" "Adviser: ").
    vm_compute. discriminate. }
  destruct (finalised_answer_truncated env (Example.request env)
              Example.truncated_locals empty_world
              "Claim online. Adviser: anything else?" (VStr "sreply")
              eq_refl eq_refl (or_introl (before_first_occurs _ _ _ Hpre)))
    as (w' & item & final & Hrun & Hitem & Hans & Hadviser & _).
  exists w', item, final. repeat split; try assumption.
  exact (Hadviser _ Hpre).
Defined.

(** The claim as it is written fails in three ways: the stored text is
    stripped; an ["Adviser: "] is cut at even when an ["Advisor: "] comes
    first; and the same text split into different fragments is not always
    finalised to the same answer (a flush strips the text accumulated so
    far, here the space before [b]). *)
Lemma finalised_answer_is_not_the_text_before_the_first_marker :
  (before_first_marker "Hi Adviser: x" "Hi " /\
   (remove_role_played_responses "Hi Adviser: x").2 <> ("Hi " : str)) /\
  (before_first_marker "a Advisor: b Adviser: c" "a " /\
   (remove_role_played_responses "a Advisor: b Adviser: c").2 <> strip "a ") /\
  (let text := repeat 97%N 74 ++ py " b Adviser: x" in
   let first_piece := repeat 97%N 74 ++ py " " in
   first_piece ++ py "b Adviser: x" = text /\
   Example.stored_answer [text] = Some (VStr (repeat 97%N 74 ++ py " b")) /\
   Example.stored_answer [first_piece; py "b Adviser: x"]
     = Some (VStr (repeat 97%N 74 ++ py "b"))).
Proof.
  split; [| split].
  - split.
    + apply (before_first_marker_intro _ _ "Adviser: " "x");
        [now left | reflexivity | right; vm_compute; lia | left; reflexivity].
    + vm_compute. discriminate.
  - split.
    + apply (before_first_marker_intro _ _ "Advisor: " "b Adviser: c");
        [now right | reflexivity | right; vm_compute; lia | right; vm_compute; lia].
    + vm_compute. discriminate.
  - cbv zeta. split; [reflexivity |]. split; vm_compute; reflexivity.
Qed.

(** ** Merging the fragments *)

Section Merge.

Lemma merge_chunk_lookup (caddy_response chunk : dict) (key : str) :
  merge_chunk caddy_response chunk !! key
  = merge_value (caddy_response !! key) (chunk !! key).
Proof.
  unfold merge_chunk. revert key.
  apply (map_fold_weak_ind
           (fun (r : dict) (m : dict) =>
              forall key, r !! key = merge_value (caddy_response !! key) (m !! key))).
  - intros key. now rewrite lookup_empty.
  - intros i x m r Hfresh IH key.
    destruct (decide (i = key)) as [-> | Hne].
    + rewrite lookup_insert_eq. specialize (IH key). rewrite Hfresh in IH. simpl in IH.
      rewrite IH. unfold merge_value.
      destruct (caddy_response !! key) as [[]|]; destruct x;
        now rewrite lookup_insert_eq.
    + rewrite (lookup_insert_ne m) by exact Hne. rewrite <- IH.
      destruct (r !! i) as [[]|]; destruct x; now rewrite lookup_insert_ne.
Qed.




End Merge.

(** *** The fields in the streaming loop *)

Section MergeInTheLoop.

Variable env : collaborators.
Variable r : request.





End MergeInTheLoop.



(** ** The flush policy *)

Section Flush.

Variable env : collaborators.
Variable r : request.










End Flush.



Example flush_policy_run :
  let env := Example.env (Example.module_values true "{}")
               (fun _ => Example.answer_stream [] None) in
  let pieces := [repeat 97%N 40; repeat 98%N 40; repeat 99%N 10] in
  let '(fl, l', w') :=
    consume env (Example.request env) (chunks (Example.answer_stream pieces None)) None
      initial_locals empty_world in
  (fl, accumulated_answer l', interim_updates (trace w')) = (Next, repeat 99%N 10, 1%nat).
Proof. vm_compute. reflexivity. Qed.

(** A marker in the second piece: the update at that piece ends the
    stream, and the third piece, which would fill the buffer again, is not
    consumed. *)
Example early_termination_run :
  let env := Example.env (Example.module_values true "{}")
               (fun _ => Example.answer_stream [] None) in
  let pieces := [repeat 97%N 40; py " Adviser: " ++ repeat 98%N 40; repeat 99%N 80] in
  let yielded := chunks (Example.answer_stream pieces None) in
  let '(fl, l', w') :=
    consume env (Example.request env) yielded None initial_locals empty_world in
  (stops_after [] [] yielded, fl, held_answer (caddy_response l'),
   interim_updates (trace w'))
  = (Some 2%nat, Break, repeat 97%N 40, 1%nat).
Proof. vm_compute. reflexivity. Qed.

(** ** The retry loop *)

Section Retry.

Variable env : collaborators.
Variable r : request.

(** What a trace observer sees of one more event. *)
Lemma schedule_emit (e : event) (w : world) :
  schedule (trace (emit_to e w))
  = schedule (trace w) ++ match e with
                          | ChainStream _ _ => [Attempt]
                          | Sleep n => [Wait n]
                          | _ => []
                          end.
Proof.
  unfold schedule. cbn. rewrite omap_app. f_equal. now destruct e.
Qed.

Lemma user_failure_notices_emit (e : event) (w : world) :
  user_failure_notices (trace (emit_to e w))
  = (user_failure_notices (trace w) + (if is_user_failure_notice e then 1 else 0))%nat.
Proof.
  unfold user_failure_notices. cbn. rewrite filter_app, length_app. f_equal.
  rewrite filter_cons, filter_nil.
  destruct (is_user_failure_notice e); case_decide; simpl; congruence.
Qed.

Lemma supervisor_failure_notices_emit (e : event) (w : world) :
  supervisor_failure_notices (trace (emit_to e w))
  = (supervisor_failure_notices (trace w)
     + (if is_supervisor_failure_notice e then 1 else 0))%nat.
Proof.
  unfold supervisor_failure_notices. cbn. rewrite filter_app, length_app. f_equal.
  rewrite filter_cons, filter_nil.
  destruct (is_supervisor_failure_notice e); case_decide; simpl; congruence.
Qed.

Lemma same_notices_refl (w : world) : same_notices w w.
Proof. now repeat split. Qed.

Lemma same_notices_trans (w1 w2 w3 : world) :
  same_notices w1 w2 -> same_notices w2 w3 -> same_notices w1 w3.
Proof. unfold same_notices. intuition congruence. Qed.

Lemma same_notices_emit (e : event) (w : world) :
  match e with Sleep _ | ChainStream _ _ => False | _ => True end ->
  is_user_failure_notice e = false ->
  is_supervisor_failure_notice e = false ->
  same_notices w (emit_to e w).
Proof.
  intros Hs Hu Hv. unfold same_notices.
  rewrite schedule_emit, user_failure_notices_emit, supervisor_failure_notices_emit, Hu, Hv.
  destruct e; try contradiction; rewrite ?app_nil_r; auto with lia.
Qed.

(** Streaming sends no backoff wait and no failure notice. *)
Lemma stream_body_notices (chunk : dict) (l : locals) (w : world) :
  same_notices w (stream_body env r chunk l w).2.
Proof.
  unfold stream_body, announce_answer, flush. cbn.
  repeat (case_match; cbn; simplify_eq);
    repeat first [ apply same_notices_refl
                 | eapply same_notices_trans; [| apply same_notices_emit; cbn; auto; fail ] ].
Qed.

Lemma consume_notices (chunks : list dict) (failure : option exn) (l : locals) (w : world) :
  same_notices w (consume env r chunks failure l w).2.
Proof.
  revert l w. induction chunks as [|chunk chunks IH]; intros l w; simpl.
  - destruct failure; apply same_notices_refl.
  - pose proof (stream_body_notices chunk l w) as H.
    destruct (stream_body env r chunk l w) as [[fl l1] w1]. simpl in H.
    destruct fl; simpl; try exact H.
    eapply same_notices_trans; [exact H | apply IH].
Qed.

(** An attempt opens one stream; it sends no backoff wait and no failure
    notice. *)
Lemma attempt_body_notices (attempt : Z) (l : locals) (w : world) :
  let w' := (attempt_body env r attempt l w).2 in
  schedule (trace w') = schedule (trace w) ++ [Attempt] /\
  user_failure_notices (trace w') = user_failure_notices (trace w) /\
  supervisor_failure_notices (trace w') = supervisor_failure_notices (trace w).
Proof.
  unfold attempt_body.
  match goal with
  | |- context [consume env r ?cs ?f ?l0 ?w0] =>
      pose proof (consume_notices cs f l0 w0) as H;
      destruct (consume env r cs f l0 w0) as [[fl l1] w1]
  end.
  simpl in H. destruct H as (S1 & U1 & V1).
  rewrite schedule_emit, user_failure_notices_emit, supervisor_failure_notices_emit in *.
  cbn in *. rewrite Nat.add_0_r in *.
  destruct fl; cbn; auto.
Qed.

(** C2. When the attempts 1, 2 and 3 raise: if attempt 4 completes, the
    loop ends normally with what attempt 4 produced, after four attempts
    with the backoff waits 0, 1 and 4 before the second, the third and the
    fourth (none before the first), and without any failure notice; if
    attempt 4 raises too, the loop raises the fatal error, which leaves
    [send_to_llm] at the retry loop, after the same schedule and exactly one
    terminal failure notice on the user-facing surface and one on the
    supervisor-facing surface. *)
Theorem retry_bound (l : locals) (w : world) :
  attempt_fails env r 0 -> attempt_fails env r 1 -> attempt_fails env r 2 ->
  (attempt_completes env r 3 ->
   exists l3 w3 l' w',
     retry_loop env r (range 4) l w = (None, l', w') /\
     attempt_body env r 3 l3 w3 = (Break, l', w') /\
     schedule (trace w')
     = schedule (trace w)
       ++ [Attempt; Wait 0; Attempt; Wait 1; Attempt; Wait 4; Attempt] /\
     user_failure_notices (trace w') = user_failure_notices (trace w) /\
     supervisor_failure_notices (trace w') = supervisor_failure_notices (trace w)) /\
  (attempt_fails env r 3 ->
   exists e l' w',
     retry_loop env r (range 4) l w = (Some (CaddyFailed e), l', w') /\
     (l = initial_locals -> run_retry_loop env r w = (inl (CaddyFailed e), w')) /\
     schedule (trace w')
     = schedule (trace w)
       ++ [Attempt; Wait 0; Attempt; Wait 1; Attempt; Wait 4; Attempt] /\
     user_failure_notices (trace w') = S (user_failure_notices (trace w)) /\
     supervisor_failure_notices (trace w') = S (supervisor_failure_notices (trace w))).
Proof.
  intros F0 F1 F2.
  change (range 4) with [0; 1; 2; 3].
  destruct (F0 l w) as (e0 & l0 & w0 & H0).
  pose proof (attempt_body_notices 0 l w) as N0.
  cbv zeta in N0. rewrite H0 in N0. cbn [snd] in N0.
  set (w0' := emit_to (Sleep (0 ^ 2)) (emit_to (adviser_update r COMPOSING_MESSAGE_RETRY) w0)).
  destruct (F1 l0 w0') as (e1 & l1 & w1 & H1).
  pose proof (attempt_body_notices 1 l0 w0') as N1.
  cbv zeta in N1. rewrite H1 in N1. cbn [snd] in N1.
  set (w1' := emit_to (Sleep (1 ^ 2)) (emit_to (adviser_update r COMPOSING_MESSAGE_RETRY) w1)).
  destruct (F2 l1 w1') as (e2 & l2 & w2 & H2).
  pose proof (attempt_body_notices 2 l1 w1') as N2.
  cbv zeta in N2. rewrite H2 in N2. cbn [snd] in N2.
  set (w2' := emit_to (Sleep (2 ^ 2)) (emit_to (adviser_update r COMPOSING_MESSAGE_RETRY) w2)).
  pose proof (attempt_body_notices 3 l2 w2') as N3.
  assert (schedule (trace w2')
          = schedule (trace w) ++ [Attempt; Wait 0; Attempt; Wait 1; Attempt; Wait 4] /\
          user_failure_notices (trace w2') = user_failure_notices (trace w) /\
          supervisor_failure_notices (trace w2') = supervisor_failure_notices (trace w))
    as (S2 & U2 & V2).
  { destruct N0 as (S0 & U0 & V0), N1 as (S1 & U1 & V1), N2 as (S2 & U2 & V2).
    subst w2'. rewrite !schedule_emit, !user_failure_notices_emit,
      !supervisor_failure_notices_emit, S2, U2, V2.
    subst w1'. rewrite !schedule_emit, !user_failure_notices_emit,
      !supervisor_failure_notices_emit, S1, U1, V1.
    subst w0'. rewrite !schedule_emit, !user_failure_notices_emit,
      !supervisor_failure_notices_emit, S0, U0, V0.
    cbn. rewrite !app_nil_r, <- !app_assoc. cbn. auto with lia. }
  assert (forall res, retry_loop env r [3] l2 w2' = res ->
                      retry_loop env r [0; 1; 2; 3] l w = res) as Hloop.
  { intros res <-. cbn [retry_loop]. rewrite H0. cbn [Z.eqb]. fold w0'.
    rewrite H1. cbn [Z.eqb Pos.eqb]. fold w1'. rewrite H2. cbn [Z.eqb Pos.eqb]. fold w2'.
    reflexivity. }
  split.
  - intros C3. destruct (C3 l2 w2') as (l3 & w3 & H3).
    cbv zeta in N3. rewrite H3 in N3. cbn [snd] in N3. destruct N3 as (S3 & U3 & V3).
    exists l2, w2', l3, w3. split; [| split; [exact H3 |]].
    + apply Hloop. cbn [retry_loop]. now rewrite H3.
    + rewrite S3, U3, V3, S2, <- !app_assoc. auto.
  - intros F3. destruct (F3 l2 w2') as (e3 & l3 & w3 & H3).
    cbv zeta in N3. rewrite H3 in N3. cbn [snd] in N3. destruct N3 as (S3 & U3 & V3).
    eexists e3, l3, _.
    assert (retry_loop env r [0; 1; 2; 3] l w
            = (Some (CaddyFailed e3), l3,
               emit_to (UpdateMessageInSupervisorSpace (supervisor_space r)
                          (supervision_message_id r)
                          (SupervisionRequest request_failed
                             (UserMessage.user_email (caddy_query r))
                             (UserMessage.message (caddy_query r))))
                 (emit_to (adviser_update r REQUEST_FAILURE) w3))) as Hres.
    { apply Hloop. cbn [retry_loop]. rewrite H3. reflexivity. }
    split; [exact Hres |]. split.
    + intros ->. unfold run_retry_loop. change (range 4) with [0; 1; 2; 3].
      now rewrite Hres.
    + rewrite !schedule_emit, !user_failure_notices_emit, !supervisor_failure_notices_emit.
      cbn. rewrite !app_nil_r, S3, U3, V3, S2, U2, V2, <- !app_assoc. auto with lia.
Qed.

End Retry.

Lemma retry_bound_witness :
  let answering := Example.answer_stream [py "Universal "; py "Credit"] None in
  let failing := Example.answer_stream [] (Some (GeneratorError 500)) in
  let env fourth := Example.env (Example.module_values true "{}")
                      (Example.retry_streams fourth) in
  let four_attempts := [Attempt; Wait 0; Attempt; Wait 1; Attempt; Wait 4; Attempt] in
  (exists l3 w3 l' w',
     retry_loop (env answering) (Example.request (env answering)) (range 4)
       initial_locals empty_world = (None, l', w') /\
     attempt_body (env answering) (Example.request (env answering)) 3 l3 w3
       = (Break, l', w') /\
     schedule (trace w') = four_attempts /\
     user_failure_notices (trace w') = 0%nat /\
     supervisor_failure_notices (trace w') = 0%nat) /\
  (exists e l' w',
     retry_loop (env failing) (Example.request (env failing)) (range 4)
       initial_locals empty_world = (Some (CaddyFailed e), l', w') /\
     (initial_locals = initial_locals ->
      run_retry_loop (env failing) (Example.request (env failing)) empty_world
      = (inl (CaddyFailed e), w')) /\
     schedule (trace w') = four_attempts /\
     user_failure_notices (trace w') = 1%nat /\
     supervisor_failure_notices (trace w') = 1%nat).
Proof.
  intros answering failing env four_attempts.
  assert (forall fourth attempt, (attempt <? 3) = true ->
            attempt_fails (env fourth) (Example.request (env fourth)) attempt) as Hfails.
  { intros fourth attempt Hlt l w. unfold attempt_body.
    cbn [chain_stream env Example.env]. unfold Example.retry_streams. rewrite Hlt.
    eexists _, _, _. reflexivity. }
  split.
  - apply (proj1 (retry_bound (env answering) (Example.request (env answering))
                    initial_locals empty_world
                    (Hfails _ 0 eq_refl) (Hfails _ 1 eq_refl) (Hfails _ 2 eq_refl))).
    intros l w. eexists _, _. reflexivity.
  - apply (proj2 (retry_bound (env failing) (Example.request (env failing))
                    initial_locals empty_world
                    (Hfails _ 0 eq_refl) (Hfails _ 1 eq_refl) (Hfails _ 2 eq_refl))).
    intros l w. eexists _, _, _. reflexivity.
Defined.

Example retry_run :
  let env := Example.env (Example.module_values true "{}")
               (Example.retry_streams
                  (Example.answer_stream [py "Universal "; py "Credit"] None)) in
  let '(outcome, l', w') :=
    retry_loop env (Example.request env) (range 4) initial_locals empty_world in
  (outcome, caddy_response l' !! ("answer" : str), schedule (trace w'))
  = (None, Some (VStr "Universal Credit"),
     [Attempt; Wait 0; Attempt; Wait 1; Attempt; Wait 4; Attempt]).
Proof. vm_compute. reflexivity. Qed.

(** ** The call gate *)

Section Gate.

Variable env : collaborators.

(** C9. When the user's record says a call is active and the evaluation
    table has no record for the thread of the message,
    [check_existing_call] returns the configuration cached on the user's
    record with [survey_complete] false, and writes nothing: no evaluation
    record is created for the thread. *)
Theorem active_call_on_unrecorded_thread (caddy_message : ProcessChatMessageEvent.t)
    (w : world) (item : dict) (modulesUsed moduleOutputs continueConversation
    controlGroupMessage : value) :
  users_table w !! caddy_message.(ProcessChatMessageEvent.user) = Some item ->
  item !! ("activeCall" : str) = Some (VBool true) ->
  evaluation_table w !! caddy_message.(ProcessChatMessageEvent.thread_id) = None ->
  item !! ("modulesUsed" : str) = Some modulesUsed ->
  item !! ("moduleOutputs" : str) = Some moduleOutputs ->
  item !! ("continueConversation" : str) = Some continueConversation ->
  item !! ("controlGroupMessage" : str) = Some controlGroupMessage ->
  check_existing_call env caddy_message w
  = (inr (mk_dict ["modulesUsed" =: modulesUsed;
                   "moduleOutputs" =: moduleOutputs;
                   "continueConversation" =: continueConversation;
                   "controlGroupMessage" =: controlGroupMessage],
          false),
     w).
Proof.
  intros Huser Hactive Hnone H1 H2 H3 H4.
  unfold check_existing_call, query, getitem. run_M.
  rewrite Huser, Hactive. cbn. rewrite Hnone. cbn.
  rewrite Huser, H1, H2, H3, H4. reflexivity.
Qed.

(** With an active call and a record for the thread, the record's
    configuration is returned, and [survey_complete] says whether the
    record has a [surveyResponse]. *)
Lemma check_existing_call_recorded (caddy_message : ProcessChatMessageEvent.t)
    (w : world) (user_item item : dict) (modulesUsed moduleOutputs
    continueConversation controlGroupMessage : value) :
  users_table w !! caddy_message.(ProcessChatMessageEvent.user) = Some user_item ->
  user_item !! ("activeCall" : str) = Some (VBool true) ->
  evaluation_table w !! caddy_message.(ProcessChatMessageEvent.thread_id) = Some item ->
  item !! ("modulesUsed" : str) = Some modulesUsed ->
  item !! ("moduleOutputs" : str) = Some moduleOutputs ->
  item !! ("continueConversation" : str) = Some continueConversation ->
  item !! ("controlGroupMessage" : str) = Some controlGroupMessage ->
  check_existing_call env caddy_message w
  = (inr (mk_dict ["modulesUsed" =: modulesUsed;
                   "moduleOutputs" =: moduleOutputs;
                   "continueConversation" =: continueConversation;
                   "controlGroupMessage" =: controlGroupMessage],
          contains item "surveyResponse"),
     w).
Proof.
  intros Huser Hactive Hitem H1 H2 H3 H4.
  unfold check_existing_call, query, getitem. run_M.
  rewrite Huser, Hactive. cbn. rewrite Hitem. cbn.
  rewrite H1, H2, H3, H4. now destruct (contains item "surveyResponse").
Qed.

(** C4, as the code has it. When the user's record says a call is active
    and the evaluation record of the message's thread holds the
    configuration of a call (the four fields that [check_existing_call]
    reads from it) and carries survey responses, [handle_message] tells the
    user that the survey is already complete and returns: nothing else is
    sent, no message is stored and no answer is generated. *)
Theorem survey_complete_short_circuit (caddy_message : ProcessChatMessageEvent.t)
    (w : world) (user_item item : dict) (modulesUsed moduleOutputs
    continueConversation controlGroupMessage surveyResponse : value) :
  users_table w !! caddy_message.(ProcessChatMessageEvent.user) = Some user_item ->
  user_item !! ("activeCall" : str) = Some (VBool true) ->
  evaluation_table w !! caddy_message.(ProcessChatMessageEvent.thread_id) = Some item ->
  item !! ("modulesUsed" : str) = Some modulesUsed ->
  item !! ("moduleOutputs" : str) = Some moduleOutputs ->
  item !! ("continueConversation" : str) = Some continueConversation ->
  item !! ("controlGroupMessage" : str) = Some controlGroupMessage ->
  item !! ("surveyResponse" : str) = Some surveyResponse ->
  handle_message env caddy_message w
  = (inr (Some {| status_code := HTTP_204_NO_CONTENT |}),
     emit_to (UpdateMessageInAdviserSpace "text"
                (VStr caddy_message.(ProcessChatMessageEvent.space_id))
                (VStr caddy_message.(ProcessChatMessageEvent.message_id))
                (Template SURVEY_ALREADY_COMPLETED)) w).
Proof.
  intros Huser Hactive Hitem H1 H2 H3 H4 Hsurvey.
  unfold handle_message. unfold mbind at 1. unfold M_bind.
  rewrite (check_existing_call_recorded _ _ _ _ _ _ _ _ Huser Hactive Hitem H1 H2 H3 H4).
  unfold contains. rewrite Hsurvey. reflexivity.
Qed.

(** [check_existing_call] sends nothing and stores no message or answer. *)
Lemma check_existing_call_quiet (caddy_message : ProcessChatMessageEvent.t) (w : world) :
  let w' := (check_existing_call env caddy_message w).2 in
  trace w' = trace w /\ message_table w' = message_table w /\
  responses_table w' = responses_table w.
Proof.
  unfold check_existing_call, store_evaluation_module, query, getitem. run_M. cbn.
  repeat (case_match; cbn; simplify_eq; try (repeat split; reflexivity)).
Qed.

(** C8. For a message that [check_existing_call] admitted with
    [continueConversation] true: when the output of some module is a
    dictionary whose [end_interaction] is set, [handle_message] stores the
    message and returns; the world it leaves is the one that
    [check_existing_call] left, with the message stored, so nothing is sent
    to the user and the answer generator is not invoked. *)
Theorem end_interaction_stops_silently (caddy_message : ProcessChatMessageEvent.t)
    (w w1 : world) (module_values outputs payload : dict) (json : str)
    (controlGroupMessage flag : value) (module : str) :
  check_existing_call env caddy_message w = (inr (module_values, false), w1) ->
  module_values !! ("continueConversation" : str) = Some (VBool true) ->
  module_values !! ("moduleOutputs" : str) = Some (VStr json) ->
  module_values !! ("controlGroupMessage" : str) = Some controlGroupMessage ->
  json_loads env json = inr (VDict outputs) ->
  outputs !! module = Some (VDict payload) ->
  payload !! ("end_interaction" : str) = Some flag ->
  truthy flag = true ->
  exists w',
    handle_message env caddy_message w
    = (inr (Some {| status_code := HTTP_204_NO_CONTENT |}), w') /\
    w' = (store_message env (format_chat_message env caddy_message) w1).2 /\
    trace w' = trace w /\
    responses_table w' = responses_table w /\
    length (message_table w') = S (length (message_table w)).
Proof.
  intros Hgate Hcc Hmo Hcg Hjson Hmodule Hflag Htruthy.
  pose proof (check_existing_call_quiet caddy_message w) as Hquiet.
  rewrite Hgate in Hquiet. cbn in Hquiet. destruct Hquiet as (Htrace & Hmsg & Hresp).
  eexists. split; [| split; [reflexivity |]].
  - unfold handle_message. unfold mbind at 1. unfold M_bind. rewrite Hgate.
    unfold getitem. rewrite Hmo, Hcc, Hcg. run_M. cbn. rewrite Hjson.
    replace (existsb signals_end_interaction (map_to_list outputs).*2) with true;
      [reflexivity |].
    symmetry. apply existsb_exists. exists (VDict payload). split.
    + apply list_elem_of_In, list_elem_of_fmap. exists (module, VDict payload).
      split; [reflexivity |]. now apply elem_of_map_to_list.
    + cbn. now rewrite Hflag.
  - cbn. rewrite Htrace, Hresp, Hmsg, length_app. cbn. repeat split; lia.
Qed.

End Gate.

(** *** The call gate at work *)

(** A first message opens a call on thread A (control group); a message on
    thread B then runs under the configuration cached on the user's record. *)
Lemma active_call_on_unrecorded_thread_witness :
  let w := (handle_message Example.control_env (Example.message "A") empty_world).2 in
  let modules_used :=
    VDict (mk_dict ["module_arguments" =: VDict (mk_dict ["split" =: VStr "1"])]) in
  check_existing_call Example.control_env (Example.message "B") w
  = (inr (mk_dict ["modulesUsed" =: modules_used;
                   "moduleOutputs" =: VStr "{}";
                   "continueConversation" =: VBool false;
                   "controlGroupMessage" =: VStr "control group"],
          false),
     w).
Proof.
  intros w modules_used.
  refine (active_call_on_unrecorded_thread Example.control_env (Example.message "B") w
            (default ∅ (users_table w !! Example.user))
            modules_used (VStr "{}") (VBool false) (VStr "control group")
            _ _ _ _ _ _ _);
    vm_compute; reflexivity.
Defined.

(** After the survey of thread A and with a new call open on thread B, a
    further message on thread A is turned away. *)
Lemma survey_complete_short_circuit_witness :
  let w := Example.after_survey_and_new_call in
  handle_message Example.answering_env (Example.message "A") w
  = (inr (Some {| status_code := HTTP_204_NO_CONTENT |}),
     emit_to (UpdateMessageInAdviserSpace "text" (VStr "SPACE") (VStr "MESSAGE")
                (Template SURVEY_ALREADY_COMPLETED)) w).
Proof.
  intros w.
  refine (survey_complete_short_circuit Example.answering_env (Example.message "A") w
            (default ∅ (users_table w !! Example.user))
            (default ∅ (evaluation_table w !! ("A" : str)))
            (VDict (mk_dict ["module_arguments" =: VDict (mk_dict ["split" =: VStr "1"])]))
            (VStr "{}") (VBool true) (VStr "control group")
            (VList [VDict (mk_dict ["Was Caddy helpful?" =: VStr "Yes"])])
            _ _ _ _ _ _ _ _);
    vm_compute; reflexivity.
Defined.

(** The claim as it is written fails when no call is active, which is the
    state the survey itself is answered in: the call on thread A was marked
    complete before its survey was answered, so a further message on thread A
    opens a new call, is stored and is answered (the survey notice is not
    sent), and the record that carried the survey response is replaced. *)
Lemma survey_response_does_not_stop_an_inactive_user :
  let w := Example.after_survey in
  let result := handle_message Example.answering_env (Example.message "A") w in
  let record w := default ∅ (evaluation_table w !! ("A" : str)) in
  let is_survey_notice e :=
    match e with
    | UpdateMessageInAdviserSpace _ _ _ (Template SURVEY_ALREADY_COMPLETED) => true
    | _ => false
    end in
  (record w !! ("surveyResponse" : str),
   result.1,
   existsb is_survey_notice (trace result.2),
   length (message_table w), length (message_table result.2),
   length (omap (fun e => match e with ChainStream input _ => Some input | _ => None end)
             (trace result.2)),
   record result.2 !! ("surveyResponse" : str),
   record result.2 !! ("callComplete" : str))
  = (Some (VList [VDict (mk_dict ["Was Caddy helpful?" =: VStr "Yes"])]),
     inr None,
     false,
     1%nat, 2%nat,
     2%nat,
     None,
     Some (VBool false)).
Proof. vm_compute. reflexivity. Qed.

(** A record with survey responses and without configuration. The user
    opens a call on thread A and writes on thread B while it is active; the
    call is marked complete on the card of thread B and the survey is
    answered there, which makes a record for B that has [callComplete] and
    [surveyResponse] only. With a new call open on thread C, a further
    message on thread B finds this record: [check_existing_call] raises
    [KeyError('modulesUsed')] before it looks for the survey responses, and
    nothing is sent or stored. *)
Example survey_on_a_thread_without_call :
  let env := Example.control_env in
  let w := run env Example.user
             [SendMessage (Example.message "A"); SendMessage (Example.message "B");
              MarkCallComplete "B"] empty_world in
  let w := (record_survey_response "B" "Was Caddy helpful?" (VStr "Yes") w).2 in
  let w := run env Example.user [SendMessage (Example.message "C")] w in
  (users_table w !! Example.user ≫= (fun item => item !! ("activeCall" : str)),
   evaluation_table w !! ("B" : str),
   handle_message env (Example.message "B") w)
  = (Some (VBool true),
     Some (mk_dict
             ["threadId" =: VStr "B";
              "callComplete" =: VBool true;
              "surveyResponse" =:
                VList [VDict (mk_dict ["Was Caddy helpful?" =: VStr "Yes"])]]),
     (inl (KeyError (VStr "modulesUsed")), w)).
Proof. vm_compute. reflexivity. Qed.

(** A module that asks to end the interaction: the message is stored and
    nothing is sent. *)
Lemma end_interaction_stops_silently_witness :
  exists w',
    handle_message Example.ending_env (Example.message "A") empty_world
    = (inr (Some {| status_code := HTTP_204_NO_CONTENT |}), w') /\
    trace w' = [] /\
    responses_table w' = ∅ /\
    length (message_table w') = 1%nat.
Proof.
  destruct (end_interaction_stops_silently Example.ending_env (Example.message "A")
              empty_world
              (Example.gate_world Example.ending_env (Example.message "A") empty_world)
              (Example.gate_values Example.ending_env (Example.message "A") empty_world)
              (mk_dict ["m" =: VDict (mk_dict ["end_interaction" =: VBool true])])
              (mk_dict ["end_interaction" =: VBool true])
              Example.end_interaction_json (VStr "control group") (VBool true) "m")
    as (w' & Hrun & _ & Htrace & Hresp & Hmsg);
    try (vm_compute; reflexivity).
  exists w'. auto.
Defined.

(** ** One active call per user *)

Section Calls.

Variable env : collaborators.

Lemma same_gate_refl (w : world) : same_gate w w.
Proof. now split. Qed.

Lemma same_gate_trans (w1 w2 w3 : world) :
  same_gate w1 w2 -> same_gate w2 w3 -> same_gate w1 w3.
Proof. unfold same_gate. intuition congruence. Qed.

Lemma same_gate_emit (e : event) (w : world) : same_gate w (emit_to e w).
Proof. now split. Qed.

Lemma keeps_gate_ret {A} (x : A) : keeps_gate (mret x).
Proof. intros w. apply same_gate_refl. Qed.

Lemma keeps_gate_raise {A} (e : exn) : keeps_gate (raise e : M A).
Proof. intros w. apply same_gate_refl. Qed.

Lemma keeps_gate_lift {A} (x : exn + A) : keeps_gate (lift x).
Proof. intros w. apply same_gate_refl. Qed.

Lemma keeps_gate_gets {A} (f : world -> A) : keeps_gate (gets f).
Proof. intros w. apply same_gate_refl. Qed.

Lemma keeps_gate_emit (e : event) : keeps_gate (emit e).
Proof. intros w. apply same_gate_emit. Qed.

Lemma keeps_gate_responses (f : world -> gmap str dict) :
  keeps_gate (modify (fun w => set_responses_table (f w) w)).
Proof. intros w. now split. Qed.

Lemma keeps_gate_messages (f : world -> list dict) :
  keeps_gate (modify (fun w => set_message_table (f w) w)).
Proof. intros w. now split. Qed.

Lemma keeps_gate_bind {A B} (m : M A) (k : A -> M B) :
  keeps_gate m -> (forall x, keeps_gate (k x)) -> keeps_gate (mbind k m).
Proof.
  intros Hm Hk w. unfold mbind, M_bind. specialize (Hm w).
  destruct (m w) as [[e | x] w1]; simpl in *; [exact Hm |].
  eapply same_gate_trans; [exact Hm | apply Hk].
Qed.

Ltac keeps_gate_with known :=
  repeat first
    [ known
    | apply keeps_gate_ret | apply keeps_gate_raise | apply keeps_gate_lift
    | apply keeps_gate_gets | apply keeps_gate_emit
    | apply keeps_gate_responses | apply keeps_gate_messages
    | apply keeps_gate_bind; [| intros ?]
    | progress cbv zeta
    | match goal with |- keeps_gate (match ?x with _ => _ end) => destruct x end
    | match goal with |- keeps_gate (let '(_, _) := ?x in _) => destruct x end ].

Ltac keeps_gate := keeps_gate_with fail.

Lemma stream_body_gate (r : request) (chunk : dict) (l : locals) (w : world) :
  same_gate w (stream_body env r chunk l w).2.
Proof.
  unfold stream_body, announce_answer, flush. cbn.
  repeat (case_match; cbn; simplify_eq); now split.
Qed.

Lemma consume_gate (r : request) (chunks : list dict) (failure : option exn)
    (l : locals) (w : world) :
  same_gate w (consume env r chunks failure l w).2.
Proof.
  revert l w. induction chunks as [|chunk chunks IH]; intros l w; simpl.
  - destruct failure; apply same_gate_refl.
  - pose proof (stream_body_gate r chunk l w) as H.
    destruct (stream_body env r chunk l w) as [[fl l1] w1]. simpl in H.
    destruct fl; simpl; try exact H.
    eapply same_gate_trans; [exact H | apply IH].
Qed.

Lemma attempt_body_gate (r : request) (attempt : Z) (l : locals) (w : world) :
  same_gate w (attempt_body env r attempt l w).2.
Proof.
  unfold attempt_body.
  match goal with
  | |- context [consume env r ?cs ?f ?l0 ?w0] =>
      pose proof (consume_gate r cs f l0 w0) as H;
      destruct (consume env r cs f l0 w0) as [[fl l1] w1]
  end.
  simpl in H.
  assert (same_gate w w1) as H' by (eapply same_gate_trans; [| exact H]; now split).
  destruct fl; exact H'.
Qed.

Lemma retry_loop_gate (r : request) (attempts : list Z) (l : locals) (w : world) :
  same_gate w (retry_loop env r attempts l w).2.
Proof.
  revert l w. induction attempts as [|attempt attempts IH]; intros l w; simpl.
  - apply same_gate_refl.
  - pose proof (attempt_body_gate r attempt l w) as H.
    destruct (attempt_body env r attempt l w) as [[fl l1] w1]. simpl in H.
    destruct fl; simpl; try exact H.
    destruct (attempt =? 3); simpl.
    + eapply same_gate_trans; [exact H | now split].
    + eapply same_gate_trans; [| apply IH].
      eapply same_gate_trans; [exact H | now split].
Qed.

Lemma run_retry_loop_gate (r : request) : keeps_gate (run_retry_loop env r).
Proof.
  intros w. unfold run_retry_loop.
  pose proof (retry_loop_gate r (range 4) initial_locals w) as H.
  destruct (retry_loop env r (range 4) initial_locals w) as [[[e|] l] w1]; exact H.
Qed.

Lemma finalise_answer_gate (r : request) (l : locals) : keeps_gate (finalise_answer env r l).
Proof.
  unfold finalise_answer, store_response, store_user_thanked_timestamp,
    store_approver_received_timestamp.
  keeps_gate.
Qed.

Lemma send_to_llm_gate (caddy_query : UserMessage.t) : keeps_gate (send_to_llm env caddy_query).
Proof.
  unfold send_to_llm, get_chat_history.
  keeps_gate_with ltac:(first [apply run_retry_loop_gate | apply finalise_answer_gate]).
Qed.

(** After [check_existing_call], [handle_message] writes to neither table of
    the call gate. *)
Lemma handle_message_gate (caddy_message : ProcessChatMessageEvent.t) (w : world) :
  same_gate (check_existing_call env caddy_message w).2 (handle_message env caddy_message w).2.
Proof.
  unfold handle_message. unfold mbind at 1. unfold M_bind.
  destruct (check_existing_call env caddy_message w) as [[e | [module_values survey]] w1];
    simpl; [apply same_gate_refl |].
  match goal with |- same_gate w1 (?m w1).2 => enough (keeps_gate m) as H by apply H end.
  unfold store_message.
  keeps_gate_with ltac:(apply send_to_llm_gate).
Qed.

Variable user : str.

(** What [store_evaluation_module] writes: nothing when it raises, and
    otherwise an open record for the thread and the active call on the user's
    record. *)
Lemma store_evaluation_module_effect (thread_id : str) (module_values : dict) (w : world) :
  let w' := (store_evaluation_module env user thread_id module_values w).2 in
  w' = w \/
  exists item user_item,
    evaluation_table w' = <[thread_id := item]> (evaluation_table w) /\
    users_table w' = <[user := user_item]> (users_table w) /\
    user_item !! ("activeCall" : str) = Some (VBool true) /\
    user_item !! ("activeThreadId" : str) = Some (VStr thread_id).
Proof.
  unfold store_evaluation_module. run_M. cbn.
  repeat (case_match; cbn; simplify_eq; try (left; reflexivity)).
  all: right; eexists _, _; split; [reflexivity |]; split; [reflexivity |];
    unfold set_attributes; cbn; split; map_lookup; reflexivity.
Qed.

(** A record is written by [check_existing_call] only when the user's
    record does not say that a call is active. *)
Lemma check_existing_call_effect (caddy_message : ProcessChatMessageEvent.t) (w : world) :
  caddy_message.(ProcessChatMessageEvent.user) = user ->
  let thread_id := caddy_message.(ProcessChatMessageEvent.thread_id) in
  let w' := (check_existing_call env caddy_message w).2 in
  w' = w \/
  (~ has_active_call w user /\
   exists item user_item,
     evaluation_table w' = <[thread_id := item]> (evaluation_table w) /\
     users_table w' = <[user := user_item]> (users_table w) /\
     user_item !! ("activeCall" : str) = Some (VBool true) /\
     user_item !! ("activeThreadId" : str) = Some (VStr thread_id)).
Proof.
  intros Huser. cbv zeta. unfold check_existing_call. rewrite Huser.
  unfold query, getitem. run_M. cbn.
  destruct (users_table w !! user) as [user_item|] eqn:Hitem; cbn.
  - destruct (user_item !! ("activeCall" : str)) as [v|] eqn:Hv; cbn; [| now left].
    destruct (is_True v) eqn:Htrue; cbn.
    + left. repeat (case_match; cbn; simplify_eq); reflexivity.
    + assert (~ has_active_call w user) as Hinactive.
      { intros (item' & Hitem' & Hactive). rewrite Hitem in Hitem'.
        injection Hitem' as <-. rewrite Hv in Hactive. now injection Hactive as ->. }
      destruct (execute_optional_modules env caddy_message) as [e | module_values];
        cbn; [now left |].
      pose proof (store_evaluation_module_effect
                    caddy_message.(ProcessChatMessageEvent.thread_id) module_values w) as H.
      cbv zeta in H.
      destruct (store_evaluation_module env user
                  caddy_message.(ProcessChatMessageEvent.thread_id) module_values w)
        as [[e | x] w1]; cbn in *; destruct H as [-> | H]; auto.
  - assert (~ has_active_call w user) as Hinactive.
    { intros (item' & Hitem' & _). congruence. }
    destruct (execute_optional_modules env caddy_message) as [e | module_values];
      cbn; [now left |].
    pose proof (store_evaluation_module_effect
                  caddy_message.(ProcessChatMessageEvent.thread_id) module_values w) as H.
    cbv zeta in H.
    destruct (store_evaluation_module env user
                caddy_message.(ProcessChatMessageEvent.thread_id) module_values w)
      as [[e | x] w1]; cbn in *; destruct H as [-> | H]; auto.
Qed.

(** Marking a call complete sets [callComplete] on the
    thread's record and clears [activeCall] on the user's record, together. *)
Lemma mark_call_complete_effect (thread_id : str) (w : world) :
  let w' := (mark_call_complete user thread_id w).2 in
  exists item user_item,
    evaluation_table w' = <[thread_id := item]> (evaluation_table w) /\
    item !! ("callComplete" : str) = Some (VBool true) /\
    users_table w' = <[user := user_item]> (users_table w) /\
    user_item !! ("activeCall" : str) = Some (VBool false).
Proof.
  cbv zeta. unfold mark_call_complete, update_item, set_attributes. run_M. cbn.
  eexists _, _. split; [reflexivity |]. split; [now map_lookup |].
  split; [reflexivity |]. now map_lookup.
Qed.

Lemma reachable_open_is_active (w : world) :
  reachable env user w -> open_is_active user w.
Proof.
  induction 1 as [| w a Hreach IH Hsent Hactive].
  - intros thread_id item H. cbn in H. now rewrite lookup_empty in H.
  - destruct a as [caddy_message | thread_id]; unfold perform; cbn in Hsent, Hactive.
    + destruct (handle_message_gate caddy_message w) as [Husers Hevaluation].
      intros t item. rewrite Husers, Hevaluation.
      destruct (check_existing_call_effect caddy_message w Hsent)
        as [-> | (Hinactive & item' & user_item & -> & -> & Hcall & Hthread)];
        [apply IH |].
      intros Hitem Hopen. rewrite lookup_insert_eq.
      destruct (decide (ProcessChatMessageEvent.thread_id caddy_message = t)) as [<- | Hne].
      * now exists user_item.
      * rewrite lookup_insert_ne in Hitem by exact Hne.
        destruct (IH t item Hitem Hopen) as (user_item' & H1 & H2 & _).
        exfalso. apply Hinactive. now exists user_item'.
    + destruct Hactive as (user_item & Huser & Hthread).
      destruct (mark_call_complete_effect thread_id w)
        as (item' & user_item' & He & Hcomplete & Hu & _).
      intros t item. rewrite He, Hu. intros Hitem Hopen.
      destruct (decide (thread_id = t)) as [<- | Hne].
      * rewrite lookup_insert_eq in Hitem. injection Hitem as <-.
        unfold is_open in Hopen. now rewrite Hcomplete in Hopen.
      * rewrite lookup_insert_ne in Hitem by exact Hne.
        destruct (IH t item Hitem Hopen) as (user_item0 & H1 & _ & H3).
        rewrite Huser in H1. injection H1 as <-. congruence.
Qed.

Lemma size_at_most_one {A} (m : gmap str A) :
  (forall k1 k2 v1 v2, m !! k1 = Some v1 -> m !! k2 = Some v2 -> k1 = k2) ->
  (size m <= 1)%nat.
Proof.
  induction m as [| k v m Hfresh _] using map_ind; intros Hone.
  - rewrite map_size_empty. lia.
  - rewrite map_size_insert_None by exact Hfresh.
    destruct (decide (m = ∅)) as [-> | Hne]; [rewrite map_size_empty; lia |].
    apply map_choose in Hne as (k' & v' & Hk').
    assert (k' = k) as ->.
    { apply (Hone k' k v' v); [| apply lookup_insert_eq].
      rewrite lookup_insert_ne; [exact Hk' | congruence]. }
    congruence.
Qed.

(** What [mark_call_complete] writes: [callComplete] on the record of the
    thread, made when the thread has none, and [activeCall] on the user's
    record; the other fields of the two records stay. *)
Lemma mark_call_complete_writes (thread_id : str) (w : world) :
  let w' := (mark_call_complete user thread_id w).2 in
  evaluation_table w'
  = <[thread_id := <[("callComplete" : str) := VBool true]>
                     (default {[ ("threadId" : str) := VStr thread_id ]}
                        (evaluation_table w !! thread_id))]> (evaluation_table w) /\
  users_table w'
  = <[user := <[("activeCall" : str) := VBool false]>
                (default {[ ("userEmail" : str) := VStr user ]} (users_table w !! user))]>
      (users_table w).
Proof. split; reflexivity. Qed.

(** The thread that the user's record holds as active has a record. *)
Lemma reachable_active_thread_recorded (w : world) :
  reachable env user w ->
  forall item thread_id,
    users_table w !! user = Some item ->
    item !! ("activeThreadId" : str) = Some (VStr thread_id) ->
    is_Some (evaluation_table w !! thread_id).
Proof.
  induction 1 as [| w a Hreach IH Hsent Hactive]; intros item t Hitem Hthread.
  - cbn in Hitem. now rewrite lookup_empty in Hitem.
  - destruct a as [caddy_message | thread_id]; unfold perform in *; cbn in Hsent, Hactive.
    + destruct (handle_message_gate caddy_message w) as [Husers Hevaluation].
      rewrite Husers in Hitem. rewrite Hevaluation.
      destruct (check_existing_call_effect caddy_message w Hsent)
        as [Hsame | (_ & item' & user_item & He & Hu & _ & Hthread')].
      * rewrite Hsame in *. now apply (IH item).
      * rewrite He. rewrite Hu, lookup_insert_eq in Hitem. injection Hitem as <-.
        rewrite Hthread in Hthread'. injection Hthread' as ->.
        rewrite lookup_insert_eq. eauto.
    + destruct (mark_call_complete_writes thread_id w) as [He Hu].
      rewrite Hu, lookup_insert_eq in Hitem. injection Hitem as <-.
      rewrite lookup_insert_ne in Hthread by (intros H; vm_compute in H; discriminate H).
      rewrite He. apply lookup_insert_is_Some'. right.
      destruct (users_table w !! user) as [item|] eqn:Hitem; cbn in Hthread.
      * now apply (IH item).
      * rewrite lookup_singleton_ne in Hthread
          by (intros H; vm_compute in H; discriminate H).
        discriminate.
Qed.

(** C5, as the code has it. For the worlds that one user reaches from an
    empty store by sending messages and by marking calls complete on the
    thread that the user's record holds as active: at most one evaluation
    record has [callComplete] false, and such a completion creates no
    evaluation record, since the active thread has one. In any world:
    [handle_message] writes no evaluation record when the user's record says
    that a call is active, and marking a call complete sets [callComplete]
    true on the record of the thread it is given and [activeCall] false on
    the user's record, together. *)
Theorem single_active_call :
  (forall w, reachable env user w -> (size (open_calls w) <= 1)%nat) /\
  (forall thread_id w,
     reachable env user w ->
     completes_active_thread user (MarkCallComplete thread_id) w ->
     dom (evaluation_table (mark_call_complete user thread_id w).2)
     =@{gset str} dom (evaluation_table w)) /\
  (forall caddy_message w,
     caddy_message.(ProcessChatMessageEvent.user) = user ->
     has_active_call w user ->
     evaluation_table (handle_message env caddy_message w).2 = evaluation_table w) /\
  (forall thread_id w,
     let w' := (mark_call_complete user thread_id w).2 in
     exists item user_item,
       evaluation_table w' !! thread_id = Some item /\
       item !! ("callComplete" : str) = Some (VBool true) /\
       users_table w' !! user = Some user_item /\
       user_item !! ("activeCall" : str) = Some (VBool false)).
Proof.
  split; [| split; [| split]].
  - intros w Hreach. apply size_at_most_one.
    intros k1 k2 v1 v2 H1 H2. unfold open_calls in *.
    apply map_lookup_filter_Some in H1 as [H1 O1], H2 as [H2 O2]. cbn in *.
    destruct (reachable_open_is_active w Hreach k1 v1 H1 O1) as (u1 & Hu1 & _ & T1).
    destruct (reachable_open_is_active w Hreach k2 v2 H2 O2) as (u2 & Hu2 & _ & T2).
    congruence.
  - intros thread_id w Hreach (item & Hitem & Hthread).
    destruct (mark_call_complete_writes thread_id w) as [-> _].
    apply dom_insert_lookup_L.
    exact (reachable_active_thread_recorded w Hreach item thread_id Hitem Hthread).
  - intros caddy_message w Huser Hactive.
    destruct (handle_message_gate caddy_message w) as [_ ->].
    destruct (check_existing_call_effect caddy_message w Huser) as [-> | [Hno _]];
      [reflexivity | contradiction].
  - intros thread_id w.
    destruct (mark_call_complete_effect thread_id w)
      as (item & user_item & He & Hcomplete & Hu & Hcall).
    cbv zeta. rewrite He, Hu.
    exists item, user_item. now rewrite !lookup_insert_eq.
Qed.

End Calls.

(** A call on thread A, marked complete on thread A, then a call on
    thread B: one open record. *)
Lemma single_active_call_witness :
  (size (open_calls
           (run Example.control_env Example.user
              [SendMessage (Example.message "A"); MarkCallComplete "A";
               SendMessage (Example.message "B")] empty_world)) <= 1)%nat.
Proof.
  apply (proj1 (single_active_call Example.control_env Example.user)).
  unfold run. cbn [foldl].
  apply reachable_step; [apply reachable_step; [apply reachable_step |..] |..].
  - apply reachable_empty.
  - reflexivity.
  - exact I.
  - exact I.
  - eexists. split; vm_compute; reflexivity.
  - reflexivity.
  - exact I.
Defined.

(** The claim as it is written fails when a call is marked complete on a
    thread that is not the active one. The user opens a call on thread A and
    writes on thread B while it is active; the message on B runs under the
    call of A and its card offers "Mark call complete" on thread B. Pressed
    there, it completes a record for B and clears [activeCall], and the record
    of A stays open; the next message, on thread C, opens a second one. *)
Lemma two_open_calls_for_one_user :
  let offered_on_b e :=
    match e with
    | CallCompleteConfirmation _ _ (VStr thread_id) => bool_decide (thread_id = ("B" : str))
    | _ => false
    end in
  let after_b :=
    run Example.control_env Example.user
      [SendMessage (Example.message "A"); SendMessage (Example.message "B")] empty_world in
  let w :=
    run Example.control_env Example.user
      [MarkCallComplete "B"; SendMessage (Example.message "C")] after_b in
  (existsb offered_on_b (trace after_b),
   size (open_calls after_b),
   is_open <$> evaluation_table w !! ("A" : str),
   is_open <$> evaluation_table w !! ("B" : str),
   is_open <$> evaluation_table w !! ("C" : str),
   size (open_calls w))
  = (true, 1%nat, Some true, Some false, Some true, 2%nat).
Proof. vm_compute. reflexivity. Qed.

(** ** Supervisor approval *)

Section Approval.

Variable env : collaborators.

Lemma path_of_text (s : str) (ks : list key) (x : value) :
  path (VStr s) ks = inr x -> exists s', x = VStr s'.
Proof.
  revert s. induction ks as [|k ks IH]; intros s; simpl.
  - intros H. injection H as <-. now exists s.
  - destruct k as [k | i]; simpl; [discriminate |].
    destruct (s !! i); [apply IH | discriminate].
Qed.

(** After a change at the end of a path, the path leads to the changed
    object (a change that strings refuse, as [append] and the splice of the
    sections do). *)
Lemma update_at_path (ks : list key) (f : value -> exn + value) (v x y : value) :
  (forall s, exists e, f (VStr s) = inl e) ->
  path v ks = inr x -> f x = inr y ->
  exists v', update_at v ks f = inr v' /\ path v' ks = inr y.
Proof.
  intros Htext. revert v. induction ks as [|k ks IH]; intros v; simpl.
  - intros H Hf. injection H as ->. now exists y.
  - destruct (subscript v k) as [e | child] eqn:Hsub; [discriminate |].
    intros Hpath Hf. destruct (IH child Hpath Hf) as (child' & -> & Hpath').
    eexists. split; [reflexivity |]. simpl.
    destruct v as [| | | s | l | d]; destruct k as [k | i]; simpl in *; try discriminate.
    + destruct (s !! i) as [c|]; [| discriminate]. injection Hsub as <-.
      apply path_of_text in Hpath as [s' ->].
      destruct (Htext s') as [e He]. congruence.
    + destruct (l !! i) as [c|] eqn:Hl; [| discriminate].
      rewrite list_lookup_insert_eq by (now apply lookup_lt_Some in Hl). exact Hpath'.
    + unfold getitem. rewrite lookup_insert_eq. exact Hpath'.
Qed.


(** Text has no fields. *)
Lemma path_of_text_field (s : str) (ks : list key) (k : str) :
  exists e, path (VStr s) (ks ++ [Field k]) = inl e.
Proof.
  revert s. induction ks as [|k0 ks IH]; intros s; simpl.
  - now exists TypeError.
  - destruct k0 as [k0 | i]; simpl; [now exists TypeError |].
    destruct (s !! i); [apply IH | now exists IndexError].
Qed.

(** After a change at a field, the path leads to the changed object. *)
Lemma update_at_path_field (ks : list key) (k : str) (f : value -> exn + value)
    (v x y : value) :
  path v (ks ++ [Field k]) = inr x -> f x = inr y ->
  exists v', update_at v (ks ++ [Field k]) f = inr v' /\
             path v' (ks ++ [Field k]) = inr y.
Proof.
  revert v. induction ks as [|k0 ks IH]; intros v; simpl.
  - destruct v as [| | | | | d]; simpl; try discriminate.
    unfold getitem. destruct (d !! k) as [x'|]; [| discriminate].
    intros H Hf. injection H as ->. rewrite Hf. eexists. split; [reflexivity |].
    simpl. unfold getitem. now rewrite lookup_insert_eq.
  - destruct (subscript v k0) as [e | child] eqn:Hsub; [discriminate |].
    intros Hpath Hf. destruct (IH child Hpath Hf) as (child' & -> & Hpath').
    eexists. split; [reflexivity |]. simpl.
    destruct v as [| | | s | l | d]; destruct k0 as [k0 | i]; simpl in *; try discriminate.
    + destruct (s !! i) as [c|]; [| discriminate]. injection Hsub as <-.
      destruct (path_of_text_field [c] ks k) as [e He]. congruence.
    + destruct (l !! i) as [c|] eqn:Hl; [| discriminate].
      rewrite list_lookup_insert_eq by (now apply lookup_lt_Some in Hl). exact Hpath'.
    + unfold getitem. rewrite lookup_insert_eq. exact Hpath'.
Qed.

(** The decision takes the place of the last section of a card. *)
Lemma create_updated_supervision_card_replaces (supervision_card approver
    supervisor_message : value) (approved : bool) (kept : list value) (buttons : value) :
  path supervision_card sections = inr (VList (kept ++ [buttons])) ->
  exists updated,
    create_updated_supervision_card env supervision_card approver approved
      supervisor_message = inr updated /\
    path updated sections
    = inr (VList (kept ++ [if approved then approval_json_widget env approver
                           else rejection_json_widget env approver supervisor_message])).
Proof.
  intros Hsections. unfold create_updated_supervision_card.
  change sections with ([Field "cardsV2"; Index 0; Field "card"] ++ [Field "sections"])
    in Hsections |- *.
  apply (update_at_path_field _ _ _ _ _ _ Hsections).
  cbn [iterate]. rewrite rev_app_distr. cbn. rewrite rev_involutive. reflexivity.
Qed.



End Approval.


(** ** Before the first attempt ([send_to_llm], lines 338 to 381) *)

Section BeforeStreaming.

Variable env : collaborators.

Lemma split_on_absent (sep : N) (s : str) :
  sep ∉ s -> split_on sep s = [s].
Proof.
  induction s as [|c s IH]; intros Hsep; simpl; [reflexivity |].
  destruct (N.eqb_spec c sep) as [-> | Hne].
  - exfalso. apply Hsep. left.
  - rewrite IH; [reflexivity |]. intros Hin. apply Hsep. now right.
Qed.

(** What [send_to_llm] does up to the retry loop, for a user with a
    supervisor space. *)
Lemma send_to_llm_enters_loop (caddy_query : UserMessage.t) (w : world)
    (history : list (value * value)) (domain : str) :
  let user := caddy_query.(UserMessage.user_email) in
  let space := get_designated_supervisor_space env user in
  let processing :=
    SupervisionRequest request_processing user caddy_query.(UserMessage.message) in
  format_chat_history (query (responses_table w) caddy_query.(UserMessage.thread_id))
  = inr history ->
  split_on 64 user !! 1%nat = Some domain ->
  space <> VStr "Unknown" ->
  send_to_llm env caddy_query w
  = (l ← run_retry_loop env
           {| caddy_query := caddy_query; chat_history := history;
              supervisor_space := space;
              supervision_thread_id :=
                (supervision_thread_and_message env space processing).1;
              supervision_message_id :=
                (supervision_thread_and_message env space processing).2 |};
     finalise_answer env
       {| caddy_query := caddy_query; chat_history := history;
          supervisor_space := space;
          supervision_thread_id :=
            (supervision_thread_and_message env space processing).1;
          supervision_message_id :=
            (supervision_thread_and_message env space processing).2 |} l)
      (emit_to (SendMessageToSupervisorSpace space processing) w).
Proof.
  intros user space processing Hhistory Hdomain Hspace.
  unfold send_to_llm, get_chat_history. run_M. rewrite Hhistory.
  cbn [subscript]. rewrite list_lookup_fmap. fold user. rewrite Hdomain. cbn [fmap option_fmap option_map].
  fold space. fold processing.
  destruct (supervision_thread_and_message env space processing) as [thread message] eqn:Hids.
  cbn [fst snd].
  destruct space as [| | | s | |]; try reflexivity.
  rewrite bool_decide_eq_false_2; [reflexivity |].
  intros ->. now apply Hspace.
Qed.

(** X1. A user whose supervisor space is unknown: [send_to_llm] raises
    before anything is sent to either surface, and nothing is stored. *)
Theorem unknown_supervisor_space_stops_send_to_llm (caddy_query : UserMessage.t)
    (w : world) (history : list (value * value)) (domain : str) :
  format_chat_history (query (responses_table w) caddy_query.(UserMessage.thread_id))
  = inr history ->
  split_on 64 caddy_query.(UserMessage.user_email) !! 1%nat = Some domain ->
  get_designated_supervisor_space env caddy_query.(UserMessage.user_email)
  = VStr "Unknown" ->
  send_to_llm env caddy_query w = (inl SupervisionSpaceUnknown, w).
Proof.
  intros Hhistory Hdomain Hspace.
  unfold send_to_llm, get_chat_history. run_M. rewrite Hhistory.
  cbn [subscript]. rewrite list_lookup_fmap, Hdomain. cbn [fmap option_fmap option_map].
  rewrite Hspace. rewrite bool_decide_eq_true_2 by reflexivity. reflexivity.
Qed.

(** X2. An email address without [@] has no domain part:
    [caddy_query.user_email.split("@")[1]] raises [IndexError] before
    anything is sent, whatever the supervisor space of the user. *)
Theorem email_without_domain_stops_send_to_llm (caddy_query : UserMessage.t)
    (w : world) (history : list (value * value)) :
  format_chat_history (query (responses_table w) caddy_query.(UserMessage.thread_id))
  = inr history ->
  64%N ∉ caddy_query.(UserMessage.user_email) ->
  send_to_llm env caddy_query w = (inl IndexError, w).
Proof.
  intros Hhistory Hat.
  unfold send_to_llm, get_chat_history. run_M. rewrite Hhistory.
  cbn [subscript]. rewrite split_on_absent by exact Hat. reflexivity.
Qed.

End BeforeStreaming.

(** ** The retry loop, for any generator *)

Section AnyGenerator.

Variable env : collaborators.
Variable r : request.

Lemma schedule_app (tr tr' : list event) :
  schedule (tr ++ tr') = schedule tr ++ schedule tr'.
Proof. unfold schedule. apply omap_app. Qed.

Lemma retried_cons (first failed : nat) :
  retried first (S failed)
  = Attempt :: Wait (Z.of_nat first ^ 2) :: retried (S first) failed.
Proof. reflexivity. Qed.

(** The loop over the attempts [first], ..., 3. *)
Lemma retry_loop_from (remaining first : nat) (l : locals) (w : world) :
  (first + S remaining = 4)%nat ->
  exists (failed : nat) outcome l' w',
    retry_loop env r (map Z.of_nat (seq first (S remaining))) l w = (outcome, l', w') /\
    (failed <= remaining)%nat /\
    schedule (trace w') = schedule (trace w) ++ retried first failed ++ [Attempt] /\
    match outcome with
    | None =>
        user_failure_notices (trace w') = user_failure_notices (trace w) /\
        supervisor_failure_notices (trace w') = supervisor_failure_notices (trace w)
    | Some e =>
        failed = remaining /\ (exists error, e = CaddyFailed error) /\
        user_failure_notices (trace w') = S (user_failure_notices (trace w)) /\
        supervisor_failure_notices (trace w') = S (supervisor_failure_notices (trace w))
    end.
Proof.
  revert first l w. induction remaining as [|remaining IH]; intros first l w Hsum.
  - assert (first = 3%nat) as -> by lia. cbn [seq map retry_loop].
    pose proof (attempt_body_notices env r (Z.of_nat 3) l w) as N. cbv zeta in N.
    destruct (attempt_body env r (Z.of_nat 3) l w) as [[fl l1] w1]. cbn [snd] in N.
    destruct N as (S1 & U1 & V1).
    destruct fl as [| | error].
    + exists 0%nat, None, l1, w1. cbn. rewrite S1. auto.
    + exists 0%nat, None, l1, w1. cbn. rewrite S1. auto.
    + exists 0%nat. eexists _, _, _. split; [reflexivity |]. split; [lia |].
      rewrite !schedule_emit, !user_failure_notices_emit, !supervisor_failure_notices_emit.
      cbn. rewrite !app_nil_r, S1, U1, V1. repeat split; eauto with lia.
  - cbn [seq map retry_loop].
    pose proof (attempt_body_notices env r (Z.of_nat first) l w) as N. cbv zeta in N.
    destruct (attempt_body env r (Z.of_nat first) l w) as [[fl l1] w1]. cbn [snd] in N.
    destruct N as (S1 & U1 & V1).
    destruct fl as [| | error].
    + exists 0%nat, None, l1, w1. cbn. rewrite S1. auto with lia.
    + exists 0%nat, None, l1, w1. cbn. rewrite S1. auto with lia.
    + destruct (Z.eqb_spec (Z.of_nat first) 3) as [E | _]; [lia |].
      set (w2 := emit_to (Sleep (Z.of_nat first ^ 2))
                   (emit_to (adviser_update r COMPOSING_MESSAGE_RETRY) w1)).
      destruct (IH (S first) l1 w2) as (failed & outcome & l' & w' & Hrun & Hle & Hs & Hout);
        [lia |].
      exists (S failed), outcome, l', w'.
      change (map Z.of_nat (seq (S first) (S remaining))) with
        (map Z.of_nat (seq (S first) (S remaining))) in Hrun.
      split; [exact Hrun |]. split; [lia |].
      assert (schedule (trace w2) = schedule (trace w) ++ [Attempt; Wait (Z.of_nat first ^ 2)] /\
              user_failure_notices (trace w2) = user_failure_notices (trace w) /\
              supervisor_failure_notices (trace w2) = supervisor_failure_notices (trace w))
        as (S2 & U2 & V2).
      { subst w2. rewrite !schedule_emit, !user_failure_notices_emit,
          !supervisor_failure_notices_emit, S1, U1, V1.
        cbn. rewrite !app_nil_r, <- !app_assoc. cbn. auto with lia. }
      split.
      * rewrite Hs, S2, retried_cons, <- !app_assoc. reflexivity.
      * destruct outcome as [e|].
        -- destruct Hout as (-> & Herr & Hu & Hv). rewrite Hu, Hv, U2, V2. auto.
        -- destruct Hout as (Hu & Hv). rewrite Hu, Hv, U2, V2. auto.
Qed.

(** X3. Whatever the generator does, the retry loop makes at least one and
    at most four attempts; every attempt but the last is followed by its
    backoff wait (0, 1 and 4 after the first, second and third attempt) and
    nothing waits before the first attempt or after the last. The loop
    raises only after four attempts, the error it raises is the fatal
    [Caddy failed] error, and it has then sent exactly one terminal failure
    notice to each surface; when it ends normally it has sent none. *)
Theorem retry_loop_is_bounded (l : locals) (w : world) :
  exists (failed : nat) outcome l' w',
    retry_loop env r (range 4) l w = (outcome, l', w') /\
    (failed <= 3)%nat /\
    schedule (trace w') = schedule (trace w) ++ retried 0 failed ++ [Attempt] /\
    match outcome with
    | None =>
        user_failure_notices (trace w') = user_failure_notices (trace w) /\
        supervisor_failure_notices (trace w') = supervisor_failure_notices (trace w)
    | Some e =>
        failed = 3%nat /\ (exists error, e = CaddyFailed error) /\
        user_failure_notices (trace w') = S (user_failure_notices (trace w)) /\
        supervisor_failure_notices (trace w') = S (supervisor_failure_notices (trace w))
    end.
Proof. exact (retry_loop_from 3 0 l w eq_refl). Qed.

(** *** The trace of one attempt *)

(** One chunk, once the answer has been announced: only interim updates
    of the announced message are sent. *)
Lemma stream_body_announced (chunk : dict) (l : locals) (w : world) (id : value) :
  first_chunk l = false -> supervision_caddy_message_id l = Some id ->
  exists fl l' updates,
    stream_body env r chunk l w = (fl, l', emit_all updates w) /\
    first_chunk l' = false /\ supervision_caddy_message_id l' = Some id /\
    Forall (rewrites r.(supervisor_space) id) updates.
Proof.
  intros Hfirst Hid. unfold stream_body, flush, getitem. cbn. rewrite Hfirst, Hid.
  repeat (case_match; cbn; simplify_eq).
  all: first [ eexists _, _, []; split; [reflexivity |]
             | eexists _, _, [_]; split; [reflexivity |] ]; cbn.
  all: repeat split; auto.
  all: try (constructor; [| constructor]; eexists; reflexivity).
Qed.

Lemma consume_announced (chunks : list dict) (failure : option exn) (l : locals)
    (w : world) (id : value) :
  first_chunk l = false -> supervision_caddy_message_id l = Some id ->
  exists fl l' updates,
    consume env r chunks failure l w
    = (fl, l', emit_all updates w) /\
    Forall (rewrites r.(supervisor_space) id) updates.
Proof.
  revert l w. induction chunks as [|chunk chunks IH]; intros l w Hfirst Hid; simpl.
  - destruct failure; eexists _, _, []; split; try reflexivity; constructor.
  - destruct (stream_body_announced chunk l w id Hfirst Hid)
      as (fl & l1 & updates & -> & Hfirst1 & Hid1 & Hall).
    destruct fl; try (eexists _, _, updates; split; [reflexivity | exact Hall]).
    destruct (IH l1 (emit_all updates w) Hfirst1 Hid1)
      as (fl & l' & updates' & -> & Hall').
    exists fl, l', (updates ++ updates'). split.
    + unfold emit_all. now rewrite foldl_app.
    + now apply Forall_app.
Qed.

Lemma trace_emit_all (updates : list event) (w : world) :
  trace (emit_all updates w) = trace w ++ updates.
Proof.
  unfold emit_all. revert w. induction updates as [|e updates IH]; intros w; simpl.
  - now rewrite app_nil_r.
  - rewrite IH. cbn. now rewrite <- app_assoc.
Qed.

(** The chunks of an attempt, from its start: nothing is sent before the
    first chunk that has an answer; that chunk sends the card of its answer
    and the notice, and only interim updates follow. *)
Lemma consume_from_start (chunks : list dict) (failure : option exn) (l : locals)
    (w : world) :
  first_chunk l = true ->
  caddy_response l !! ("answer" : str) = None ->
  match omap (fun chunk : dict => chunk !! ("answer" : str)) chunks with
  | [] => trace (consume env r chunks failure l w).2 = trace w
  | answer :: _ =>
      let card := ResponseCard answer true in
      exists updates,
        trace (consume env r chunks failure l w).2
        = trace w
          ++ RespondToSupervisorThread r.(supervisor_space) card r.(supervision_thread_id)
             :: adviser_update r SUPERVISOR_REVIEWING_RESPONSE :: updates /\
        Forall (rewrites r.(supervisor_space)
                  (supervision_reply_message env r.(supervisor_space) card
                     r.(supervision_thread_id))) updates
  end.
Proof.
  revert l w. induction chunks as [|chunk chunks IH]; intros l w Hfirst Hnone.
  - simpl. now destruct failure.
  - cbn [omap list_omap consume].
    destruct (chunk !! ("answer" : str)) as [answer|] eqn:Hchunk.
    + assert (merge_chunk (caddy_response l) chunk !! ("answer" : str) = Some answer)
        as Hanswer.
      { rewrite merge_chunk_lookup, Hchunk, Hnone. now destruct answer. }
      set (card := ResponseCard answer true).
      set (id := supervision_reply_message env r.(supervisor_space) card
                   r.(supervision_thread_id)).
      set (w1 := emit_to (adviser_update r SUPERVISOR_REVIEWING_RESPONSE)
                   (emit_to (RespondToSupervisorThread r.(supervisor_space) card
                               r.(supervision_thread_id)) w)).
      assert (exists fl l1 updates,
                 stream_body env r chunk l w
                 = (fl, l1, emit_all updates w1) /\
                 first_chunk l1 = false /\ supervision_caddy_message_id l1 = Some id /\
                 Forall (rewrites r.(supervisor_space) id) updates)
        as (fl & l1 & updates & -> & Hfirst1 & Hid1 & Hall).
      { unfold stream_body, announce_answer, flush, getitem. cbn.
        rewrite Hchunk, Hfirst, Hanswer. cbn. rewrite ?Hanswer. fold card id w1.
        repeat (case_match; cbn; simplify_eq).
        all: first [ eexists _, _, []; split; [reflexivity |]
                   | eexists _, _, [_]; split; [reflexivity |] ]; cbn.
        all: repeat split; auto.
        all: try (constructor; [| constructor]; eexists; reflexivity). }
      assert (exists updates',
                 trace (match fl with
                        | Next => consume env r chunks failure l1
                                    (emit_all updates w1)
                        | _ => (fl, l1, emit_all updates w1)
                        end).2
                 = trace w1 ++ updates' /\
                 Forall (rewrites r.(supervisor_space) id) updates') as (updates' & Htrace & Hall').
      { destruct fl; try (exists updates; split; [apply trace_emit_all | exact Hall]).
        destruct (consume_announced chunks failure l1
                    (emit_all updates w1) id Hfirst1 Hid1)
          as (fl & l' & more & -> & Hmore).
        exists (updates ++ more). split; [| now apply Forall_app].
        cbn [snd]. now rewrite !trace_emit_all, app_assoc. }
      exists updates'. split; [| exact Hall'].
      destruct fl; rewrite Htrace; subst w1; cbn; rewrite <- !app_assoc; reflexivity.
    + unfold stream_body. rewrite Hchunk. cbn beta iota zeta.
      apply IH; [exact Hfirst |]. cbn [caddy_response].
      now rewrite merge_chunk_lookup, Hchunk.
Qed.

(** X4. The trace of one attempt, whatever the generator yields and
    whatever the earlier attempts left behind. The stream is opened. When
    no chunk has an answer, nothing else is sent. Otherwise the first chunk
    that has one sends the answer-started card, which shows the answer of
    that chunk, to the supervisor's thread, and tells the adviser that a
    supervisor is reviewing; both are sent once, since after them only
    interim updates are sent, and every one of them rewrites the message
    that this attempt's card created. *)
Theorem attempt_trace (attempt : Z) (l : locals) (w : world) :
  let yielded :=
    chunks (chain_stream env r.(caddy_query).(UserMessage.message) r.(chat_history)
              attempt) in
  let opened := ChainStream r.(caddy_query).(UserMessage.message) r.(chat_history) in
  match omap (fun chunk : dict => chunk !! ("answer" : str)) yielded with
  | [] => trace (attempt_body env r attempt l w).2 = trace w ++ [opened]
  | answer :: _ =>
      let card := ResponseCard answer true in
      exists updates,
        trace (attempt_body env r attempt l w).2
        = trace w
          ++ opened
             :: RespondToSupervisorThread r.(supervisor_space) card r.(supervision_thread_id)
             :: adviser_update r SUPERVISOR_REVIEWING_RESPONSE :: updates /\
        Forall (rewrites r.(supervisor_space)
                  (supervision_reply_message env r.(supervisor_space) card
                     r.(supervision_thread_id))) updates
  end.
Proof.
  intros yielded opened. unfold attempt_body.
  match goal with
  | |- context [consume env r ?cs ?f ?l0 ?w0] =>
      pose proof (consume_from_start cs f l0 w0 eq_refl (lookup_empty _)) as Hsent;
      assert (forall X : flow * locals * world,
                trace (match X with
                       | (Raise e, l1, w1) => (Raise e, l1, w1)
                       | (_, l1, w1) => (Break, l1, w1)
                       end).2 = trace X.2) as Hsame
        by (intros [[[] ?] ?]; reflexivity);
      rewrite (Hsame (consume env r cs f l0 w0))
  end.
  fold yielded in Hsent |- *.
  destruct (omap (fun chunk : dict => chunk !! ("answer" : str)) yielded) as [|answer rest].
  - rewrite Hsent. reflexivity.
  - destruct Hsent as (updates & Htrace & Hall). exists updates. split; [| exact Hall].
    rewrite Htrace. cbn. now rewrite <- app_assoc.
Qed.

(** *** A stream without answer *)

Lemma merge_chunks_without_answer (chunks : list dict) (caddy_response : dict) :
  Forall (fun chunk => chunk !! ("answer" : str) = None) chunks ->
  foldl merge_chunk caddy_response chunks !! ("answer" : str)
  = caddy_response !! ("answer" : str).
Proof.
  intros Hall. revert caddy_response.
  induction Hall as [|chunk chunks Hchunk _ IH]; intros caddy_response; simpl.
  - reflexivity.
  - rewrite IH, merge_chunk_lookup, Hchunk. reflexivity.
Qed.

Lemma consume_without_answer (chunks : list dict) (l : locals) (w : world) :
  Forall (fun chunk => chunk !! ("answer" : str) = None) chunks ->
  consume env r chunks None l w
  = (Next,
     {| first_chunk := first_chunk l;
        caddy_response := foldl merge_chunk (caddy_response l) chunks;
        accumulated_answer := accumulated_answer l;
        supervision_caddy_message_id := supervision_caddy_message_id l |},
     w).
Proof.
  intros Hall. revert l.
  induction Hall as [|chunk chunks Hchunk _ IH]; intros l; simpl.
  - now destruct l.
  - unfold stream_body. rewrite Hchunk. rewrite IH. reflexivity.
Qed.

(** The first attempt of a generator that ends without an answer chunk
    leaves the retry loop. *)
Lemma retry_loop_without_answer (yielded : list dict) (w : world) :
  chain_stream env r.(caddy_query).(UserMessage.message) r.(chat_history) 0
  = {| chunks := yielded; failure := None |} ->
  Forall (fun chunk : dict => chunk !! ("answer" : str) = None) yielded ->
  exists l,
    retry_loop env r (range 4) initial_locals w
    = (None, l,
       emit_to (ChainStream r.(caddy_query).(UserMessage.message) r.(chat_history)) w) /\
    caddy_response l !! ("answer" : str) = None.
Proof.
  intros Hstream Hall. change (range 4) with [0; 1; 2; 3].
  cbn [retry_loop]. unfold attempt_body. rewrite Hstream. cbn [chunks failure].
  rewrite consume_without_answer by exact Hall.
  eexists. split; [reflexivity |]. cbn [caddy_response].
  rewrite merge_chunks_without_answer by exact Hall. apply lookup_empty.
Qed.

End AnyGenerator.

Section EmptyAnswer.

Variable env : collaborators.

(** X5. A generator that ends without having yielded any answer chunk
    does not count as a failure: the first attempt leaves the retry loop, and
    [send_to_llm] then raises [KeyError('answer')] at line 472. The request
    card in the supervisor space is the only thing sent; there is no retry,
    neither surface gets a failure notice, and nothing is stored. *)
Theorem stream_without_answer_is_not_retried (caddy_query : UserMessage.t) (w : world)
    (history : list (value * value)) (domain : str) (yielded : list dict) :
  let user := caddy_query.(UserMessage.user_email) in
  let message := caddy_query.(UserMessage.message) in
  let space := get_designated_supervisor_space env user in
  format_chat_history (query (responses_table w) caddy_query.(UserMessage.thread_id))
  = inr history ->
  split_on 64 user !! 1%nat = Some domain ->
  space <> VStr "Unknown" ->
  chain_stream env message history 0 = {| chunks := yielded; failure := None |} ->
  Forall (fun chunk => chunk !! ("answer" : str) = None) yielded ->
  send_to_llm env caddy_query w
  = (inl (KeyError (VStr "answer")),
     emit_to (ChainStream message history)
       (emit_to (SendMessageToSupervisorSpace space
                   (SupervisionRequest request_processing user message)) w)).
Proof.
  intros user message space Hhistory Hdomain Hspace Hstream Hall.
  subst user message space.
  rewrite (send_to_llm_enters_loop env caddy_query w history domain Hhistory Hdomain Hspace).
  unfold mbind, M_bind.
  match goal with
  | |- context [run_retry_loop env ?r ?w0] =>
      destruct (retry_loop_without_answer env r yielded w0 Hstream Hall)
        as (l & Hloop & Hanswer)
  end.
  unfold run_retry_loop. rewrite Hloop.
  unfold finalise_answer, getitem. run_M. rewrite Hanswer. reflexivity.
Qed.

End EmptyAnswer.

(** ** The control group and the opening of a call *)

Section OpeningACall.

Variable env : collaborators.

(** X6. A call in the control group ([continueConversation] is [False]):
    [handle_message] stores the message, shows the control group card in
    place of the message being processed, offers to mark the call complete
    and returns. The module outputs are not parsed and no answer is
    generated: nothing reaches the generator or the supervisor space. *)
Theorem control_group_gets_no_answer (caddy_message : ProcessChatMessageEvent.t)
    (w w1 : world) (module_values : dict) (moduleOutputs controlGroupMessage : value) :
  check_existing_call env caddy_message w = (inr (module_values, false), w1) ->
  module_values !! ("moduleOutputs" : str) = Some moduleOutputs ->
  module_values !! ("continueConversation" : str) = Some (VBool false) ->
  module_values !! ("controlGroupMessage" : str) = Some controlGroupMessage ->
  handle_message env caddy_message w
  = (inr (Some {| status_code := HTTP_204_NO_CONTENT |}),
     emit_all
       [UpdateMessageInAdviserSpace "cardsV2"
          (VStr caddy_message.(ProcessChatMessageEvent.space_id))
          (VStr caddy_message.(ProcessChatMessageEvent.message_id))
          (ControlGroupSelection controlGroupMessage);
        CallCompleteConfirmation
          (VStr caddy_message.(ProcessChatMessageEvent.user))
          (VStr caddy_message.(ProcessChatMessageEvent.space_id))
          (VStr caddy_message.(ProcessChatMessageEvent.thread_id))]
       (store_message env (format_chat_message env caddy_message) w1).2).
Proof.
  intros Hgate Hmo Hcc Hcg.
  unfold handle_message. unfold mbind at 1. unfold M_bind. rewrite Hgate.
  unfold getitem. rewrite Hmo, Hcc, Hcg. run_M. reflexivity.
Qed.

Lemma path_app (v : value) (ks ks' : list key) :
  path v (ks ++ ks') = match path v ks with
                       | inl e => inl e
                       | inr x => path x ks'
                       end.
Proof.
  revert v. induction ks as [|k ks IH]; intros v; simpl; [reflexivity |].
  destruct (subscript v k); [reflexivity | apply IH].
Qed.

(** A change below a field of a dictionary leaves the other fields. *)
Lemma update_at_field (d : dict) (k : str) (ks : list key) (f : value -> exn + value)
    (v' : value) :
  update_at (VDict d) (Field k :: ks) f = inr v' ->
  exists child, v' = VDict (<[k := child]> d).
Proof.
  simpl. destruct (getitem d k) as [e | child]; [discriminate |].
  destruct (update_at child ks f) as [e | child']; [discriminate |].
  intros H. injection H as <-. now exists child'.
Qed.

(** A change that succeeded has read the object at the end of the path. *)
Lemma update_at_reads (ks : list key) (f : value -> exn + value) (v v' : value) :
  update_at v ks f = inr v' ->
  exists x y, path v ks = inr x /\ f x = inr y.
Proof.
  revert v v'. induction ks as [|k ks IH]; intros v v'; simpl.
  - intros H. eauto.
  - destruct (subscript v k) as [e | child]; [discriminate |].
    destruct (update_at child ks f) as [e | child'] eqn:Hchild; [discriminate |].
    intros _. exact (IH child child' Hchild).
Qed.

(** What [store_evaluation_module] does when it returns. *)
Lemma store_evaluation_module_returns (user thread_id : str) (module_values returned : dict)
    (w w' : world) :
  store_evaluation_module env user thread_id module_values w = (inr returned, w') ->
  exists item user_item split,
    evaluation_table w' = <[thread_id := item]> (evaluation_table w) /\
    users_table w' = <[user := user_item]> (users_table w) /\
    responses_table w' = responses_table w /\
    message_table w' = message_table w /\
    trace w' = trace w /\
    item !! ("threadId" : str) = Some (VStr thread_id) /\
    item !! ("callComplete" : str) = Some (VBool false) /\
    item !! ("surveyResponse" : str) = None /\
    user_item !! ("activeCall" : str) = Some (VBool true) /\
    user_item !! ("activeThreadId" : str) = Some (VStr thread_id) /\
    (forall field, field ∈ (py "callStart") :: configuration ->
       is_Some (item !! field) /\ user_item !! field = item !! field) /\
    path (VDict item) [Field "modulesUsed"; Field "module_arguments"; Field "split"]
    = inr (VStr split) /\
    (forall field, field ∈ read_by_handle_message ->
       item !! field = module_values !! field /\
       returned !! field = module_values !! field).
Proof.
  unfold store_evaluation_module. run_M.
  destruct (path (VDict module_values) [Field "modulesUsed"; Index 0])
    as [e | user_arguments0] eqn:Harguments0; [discriminate |].
  unfold getitem.
  destruct (module_values !! ("moduleOutputs" : str)) as [argument_output|] eqn:Hmo;
    [| discriminate].
  destruct (module_values !! ("continueConversation" : str)) as [continue_conversation|]
    eqn:Hcc; [| discriminate].
  destruct (module_values !! ("controlGroupMessage" : str)) as [control_group_message|]
    eqn:Hcg; [| discriminate].
  match goal with
  | |- context [update_at ?v ?ks ?f] =>
      destruct (update_at v ks f) as [e | module_values'] eqn:Hupdate; [discriminate |];
      set (stringify := f) in *
  end.
  destruct (path module_values' [Field "modulesUsed"; Index 0])
    as [e | user_arguments] eqn:Harguments; [discriminate |].
  intros H. injection H as <- <-.
  destruct (update_at_field _ _ _ _ _ Hupdate) as [child ->].
  (* the object whose [split] was rewritten *)
  destruct (update_at_reads _ _ _ _ Hupdate)
    as (module_arguments & stringified & Hpath & Hstringify).
  destruct (update_at_path [Field "modulesUsed"; Index 0; Field "module_arguments"]
              stringify (VDict module_values) module_arguments stringified)
    as (v' & Hv' & Hpath'); [| exact Hpath | exact Hstringify |].
  { intros s. now exists TypeError. }
  rewrite Hupdate in Hv'. injection Hv' as <-.
  change ([Field "modulesUsed"; Index 0; Field "module_arguments"])
    with ([Field (py "modulesUsed"); Index 0] ++ [Field (py "module_arguments")]) in Hpath'.
  rewrite path_app, Harguments in Hpath'.
  assert (exists split, path stringified [Field "split"] = inr (VStr split)) as [split Hsplit].
  { subst stringify. cbv beta in Hstringify.
    destruct (subscript module_arguments (Field "split")) as [e | split]; [discriminate |].
    destruct module_arguments as [| | | | | d]; try discriminate.
    injection Hstringify as <-. eexists. cbn. unfold getitem.
    rewrite lookup_insert_eq. reflexivity. }
  eexists _, _, split. cbn.
  split; [reflexivity |]. split; [reflexivity |].
  split; [reflexivity |]. split; [reflexivity |]. split; [reflexivity |].
  unfold update_item, set_attributes, mk_dict. cbn.
  split; [now map_lookup |]. split; [now map_lookup |]. split; [now map_lookup |].
  split; [now map_lookup |]. split; [now map_lookup |].
  split; [| split].
  - intros field Hfield. unfold configuration in Hfield.
    repeat (apply elem_of_cons in Hfield as [-> | Hfield]); [.. | now apply elem_of_nil in Hfield];
      map_lookup; split; eauto.
  - unfold getitem at 1. map_lookup. cbn [path] in Hpath', Hsplit.
    destruct (subscript user_arguments (Field "module_arguments")) as [e | arguments];
      [discriminate |].
    injection Hpath' as ->. exact Hsplit.
  - intros field Hfield. unfold read_by_handle_message in Hfield.
    repeat (apply elem_of_cons in Hfield as [-> | Hfield]); [.. | now apply elem_of_nil in Hfield];
      map_lookup; split; congruence.
Qed.

(** X7. [store_evaluation_module] opens a call all at once or not at all.
    When it raises (a field of the module values is missing, or the split
    cannot be reached) nothing has been written. When it returns, the
    thread has a fresh open record without survey response, the user's
    record says that a call is active on this thread and caches the same
    call start and configuration as the record, the [split] stored with the
    modules used is a string, and the three fields that [handle_message]
    reads are stored and returned as they were given. *)
Theorem store_evaluation_module_all_or_nothing (user thread_id : str)
    (module_values : dict) (w : world) :
  match store_evaluation_module env user thread_id module_values w with
  | (inl e, w') => w' = w
  | (inr returned, w') =>
      exists item user_item split,
        evaluation_table w' = <[thread_id := item]> (evaluation_table w) /\
        users_table w' = <[user := user_item]> (users_table w) /\
        responses_table w' = responses_table w /\
        message_table w' = message_table w /\
        trace w' = trace w /\
        item !! ("threadId" : str) = Some (VStr thread_id) /\
        item !! ("callComplete" : str) = Some (VBool false) /\
        item !! ("surveyResponse" : str) = None /\
        user_item !! ("activeCall" : str) = Some (VBool true) /\
        user_item !! ("activeThreadId" : str) = Some (VStr thread_id) /\
        (forall field, field ∈ (py "callStart") :: configuration ->
           is_Some (item !! field) /\ user_item !! field = item !! field) /\
        path (VDict item) [Field "modulesUsed"; Field "module_arguments"; Field "split"]
        = inr (VStr split) /\
        (forall field, field ∈ read_by_handle_message ->
           item !! field = module_values !! field /\
           returned !! field = module_values !! field)
  end.
Proof.
  destruct (store_evaluation_module env user thread_id module_values w)
    as [[e | returned] w'] eqn:Hrun.
  - revert Hrun. unfold store_evaluation_module. run_M.
    repeat (case_match; cbn; simplify_eq); congruence.
  - exact (store_evaluation_module_returns _ _ _ _ _ _ Hrun).
Qed.

(** X8. The call gate is stable: when [check_existing_call] has returned
    for a message, asking again for the same message returns the same
    survey flag and the same values of the three fields that
    [handle_message] reads, and writes nothing. In particular a call that
    was just opened is found again, and not opened twice. *)
Theorem check_existing_call_is_stable (caddy_message : ProcessChatMessageEvent.t)
    (w w1 : world) (module_values : dict) (survey_complete : bool) :
  check_existing_call env caddy_message w = (inr (module_values, survey_complete), w1) ->
  exists again,
    check_existing_call env caddy_message w1 = (inr (again, survey_complete), w1) /\
    forall field, field ∈ read_by_handle_message ->
      again !! field = module_values !! field.
Proof.
  intros Hgate.
  assert (w1 = w \/
          exists executed,
            store_evaluation_module env (ProcessChatMessageEvent.user caddy_message)
              (ProcessChatMessageEvent.thread_id caddy_message) executed w
            = (inr module_values, w1) /\ survey_complete = false)
    as [-> | (executed & Hstore & ->)].
  { pose proof Hgate as Hrun.
    unfold check_existing_call in Hrun. revert Hrun. unfold query, getitem. run_M.
    assert (match execute_optional_modules env caddy_message with
            | inl e => (inl e, w)
            | inr x =>
                match store_evaluation_module env
                        (ProcessChatMessageEvent.user caddy_message)
                        (ProcessChatMessageEvent.thread_id caddy_message) x w with
                | (inl e, w') => (inl e, w')
                | (inr x0, w') => (inr (x0, false), w')
                end
            end = (inr (module_values, survey_complete), w1) ->
            w1 = w \/
            exists executed,
              store_evaluation_module env (ProcessChatMessageEvent.user caddy_message)
                (ProcessChatMessageEvent.thread_id caddy_message) executed w
              = (inr module_values, w1) /\ survey_complete = false) as Hopened.
    { destruct (execute_optional_modules env caddy_message) as [e | executed];
        [discriminate |].
      destruct (store_evaluation_module env (ProcessChatMessageEvent.user caddy_message)
                  (ProcessChatMessageEvent.thread_id caddy_message) executed w)
        as [[e | returned] w'] eqn:Hstore; [discriminate |].
      intros H. injection H as <- <- <-. right. now exists executed. }
    destruct (users_table w !! ProcessChatMessageEvent.user caddy_message)
      as [user_item|] eqn:Hitem; cbn; [| exact Hopened].
    destruct (user_item !! ("activeCall" : str)) as [v|] eqn:Hv; cbn; [| discriminate].
    destruct (is_True v) eqn:Htrue; cbn; [| exact Hopened].
    intros H. left. repeat (case_match; cbn in *; simplify_eq); reflexivity. }
  - (* nothing was written: the same question has the same answer *)
    exists module_values. split; [exact Hgate | auto].
  - (* the call was opened by this message *)
    destruct (store_evaluation_module_returns _ _ _ _ _ _ Hstore)
      as (item & user_item & split & He & Hu & _ & _ & _ & _ & _ & Hsurvey & Hcall & _
          & Hcached & _ & Hfields).
    assert (forall field, field ∈ configuration -> is_Some (item !! field)) as Hconfigured.
    { intros field Hfield. apply Hcached. now right. }
    destruct (Hconfigured "modulesUsed") as [mu Hmu]; [unfold configuration; rewrite !elem_of_cons; auto 10 |].
    destruct (Hconfigured "moduleOutputs") as [mo Hmo]; [unfold configuration; rewrite !elem_of_cons; auto 10 |].
    destruct (Hconfigured "continueConversation") as [cc Hcc];
      [unfold configuration; rewrite !elem_of_cons; auto 10 |].
    destruct (Hconfigured "controlGroupMessage") as [cg Hcg];
      [unfold configuration; rewrite !elem_of_cons; auto 10 |].
    eexists. split.
    + unfold check_existing_call, query, getitem. run_M.
      rewrite Hu, lookup_insert_eq, Hcall. cbn. rewrite He, lookup_insert_eq. cbn.
      rewrite Hmu, Hmo, Hcc, Hcg. unfold contains. rewrite Hsurvey. reflexivity.
    + intros field Hfield. destruct (Hfields field Hfield) as [Hitem Hreturned].
      rewrite Hreturned, <- Hitem.
      unfold read_by_handle_message in Hfield.
      repeat (apply elem_of_cons in Hfield as [-> | Hfield]);
        [.. | now apply elem_of_nil in Hfield];
        unfold mk_dict; cbn; map_lookup; congruence.
Qed.

End OpeningACall.

(** ** The chat history *)

Section ChatHistory.

Variable env : collaborators.

Lemma format_chat_history_raised (e : exn) (items : list dict) :
  foldl (fun history (message : dict) =>
           match history with
           | inl e => inl e
           | inr h =>
               match getitem message "llmPrompt" with
               | inl e => inl e
               | inr human =>
                   match getitem message "llmAnswer" with
                   | inl e => inl e
                   | inr ai => inr (h ++ [(human, ai)])
                   end
               end
           end) (inl e) items = inl e.
Proof. induction items as [|item items IH]; simpl; auto. Qed.

Lemma format_chat_history_from (items : list dict) (h0 history : list (value * value)) :
  foldl (fun history (message : dict) =>
           match history with
           | inl e => inl e
           | inr h =>
               match getitem message "llmPrompt" with
               | inl e => inl e
               | inr human =>
                   match getitem message "llmAnswer" with
                   | inl e => inl e
                   | inr ai => inr (h ++ [(human, ai)])
                   end
               end
           end) (inr h0) items = inr history
  <-> exists exchanges, history = h0 ++ exchanges /\ Forall2 exchange_of items exchanges.
Proof.
  revert h0. induction items as [|item items IH]; intros h0; simpl.
  - split.
    + intros H. injection H as <-. exists []. rewrite app_nil_r. split; [reflexivity | constructor].
    + intros (exchanges & -> & Hall). inversion Hall. now rewrite app_nil_r.
  - unfold getitem.
    destruct (item !! ("llmPrompt" : str)) as [human|] eqn:Hhuman.
    + destruct (item !! ("llmAnswer" : str)) as [ai|] eqn:Hai.
      * rewrite IH. split.
        -- intros (exchanges & -> & Hall). exists ((human, ai) :: exchanges).
           rewrite <- app_assoc. split; [reflexivity |]. constructor; [now split | exact Hall].
        -- intros (exchanges & -> & Hall).
           inversion Hall as [| item' [human' ai'] items' exchanges' [Hh Ha] Hrest]; subst.
           cbn in Hh, Ha. rewrite Hhuman in Hh. rewrite Hai in Ha.
           injection Hh as <-. injection Ha as <-.
           exists exchanges'. now rewrite <- app_assoc.
      * rewrite format_chat_history_raised. split; [discriminate |].
        intros (exchanges & _ & Hall).
        inversion Hall as [| ? ? ? ? [_ Ha] ?]; subst. congruence.
    + rewrite format_chat_history_raised. split; [discriminate |].
      intros (exchanges & _ & Hall).
      inversion Hall as [| ? ? ? ? [Hh _] ?]; subst. congruence.
Qed.

(** X9. [format_chat_history] returns a history exactly when every record
    has an [llmPrompt] and an [llmAnswer]; the history then has one
    exchange per record, in the order of the records, made of these two
    fields. A record without one of them makes it raise, whatever the other
    records hold. *)
Theorem format_chat_history_pairs (user_messages : list dict)
    (history : list (value * value)) :
  format_chat_history user_messages = inr history
  <-> Forall2 exchange_of user_messages history.
Proof.
  unfold format_chat_history. rewrite format_chat_history_from. split.
  - intros (exchanges & -> & Hall). exact Hall.
  - intros Hall. now exists history.
Qed.

(** X10. Once [send_to_llm] has finalised an answer, the chat history of
    the thread is the single exchange made of the question and the answer
    that was stored, whatever the thread held before: the answer record of
    a thread is replaced by [store_response], and the two timestamps set
    afterwards keep its prompt and answer. *)
Theorem history_after_an_answer (r : request) (l : locals) (w w' : world) :
  finalise_answer env r l w = (inr tt, w') ->
  exists answer,
    l.(caddy_response) !! ("answer" : str) = Some (VStr answer) /\
    get_chat_history r.(caddy_query) w'
    = (inr [(VStr r.(caddy_query).(UserMessage.message),
             VStr (remove_role_played_responses answer).2)], w').
Proof.
  unfold finalise_answer, getitem. run_M.
  destruct (caddy_response l !! ("answer" : str)) as [[| | | answer | |]|] eqn:Hanswer;
    try discriminate.
  destruct (supervision_caddy_message_id l) as [id|]; [| discriminate].
  unfold store_response, store_user_thanked_timestamp, store_approver_received_timestamp.
  run_M. cbn. intros H. injection H as <-.
  exists answer. split; [reflexivity |].
  unfold get_chat_history, query. run_M. cbn.
  unfold update_item, put_item, set_attributes. cbn. rewrite !lookup_insert_eq. cbn.
  unfold format_chat_history, getitem, mk_dict. cbn. map_lookup. reflexivity.
Qed.

End ChatHistory.

(** ** What [remove_role_played_responses] returns *)

Section CleanedAnswer.

Lemma occurs_inside (sub a s b : str) : occurs sub s -> occurs sub (a ++ s ++ b).
Proof.
  intros (pre & post & ->). exists (a ++ pre), (post ++ b).
  now rewrite <- !app_assoc.
Qed.

(** The text before the first occurrence holds no occurrence. *)
Lemma before_first_clean (sub s pre : str) :
  sub <> [] -> before_first sub s pre -> ~ occurs sub pre.
Proof.
  intros Hsub [[post Hs] Hmin] (a & b & Hpre).
  assert (s = a ++ sub ++ (b ++ sub ++ post)) as Hocc.
  { rewrite Hs, Hpre, <- !app_assoc. reflexivity. }
  specialize (Hmin _ _ Hocc). rewrite Hpre, !length_app in Hmin.
  destruct sub; [congruence | simpl in Hmin; lia].
Qed.

(** X11. The text that [remove_role_played_responses] returns is a part of
    the response without white space at either end, cut from the text in
    front of the marker when there is one; it never contains ["Adviser: "];
    and the flag is [True] exactly when the response contains one of the two
    markers. The text can still contain ["Advisor: "]: the function is not
    idempotent. *)
Theorem cleaned_answer (response : str) :
  let '(early_terminate, cleaned) := remove_role_played_responses response in
  (exists before after, response = before ++ cleaned ++ after) /\
  (match cleaned with c :: _ => is_space c = false | [] => True end) /\
  (match rev cleaned with c :: _ => is_space c = false | [] => True end) /\
  ~ occurs "Adviser: " cleaned /\
  (early_terminate = true <-> occurs "Adviser: " response \/ occurs "Advisor: " response).
Proof.
  assert (forall s, (exists before after, s = before ++ strip s ++ after) /\
                    (match strip s with c :: _ => is_space c = false | [] => True end) /\
                    (match rev (strip s) with c :: _ => is_space c = false | [] => True end) /\
                    (~ occurs "Adviser: " s -> ~ occurs "Adviser: " (strip s))) as Hstrip.
  { intros s. destruct (strip_spec s) as (l & r & Hs & _ & _ & Hhead & Hlast).
    split; [now exists l, r |]. split; [exact Hhead |]. split; [exact Hlast |].
    intros Hno Hocc. apply Hno. rewrite Hs. now apply occurs_inside. }
  assert (forall sub s, find s sub <> -1 ->
            exists post, s = slice_to s (find s sub) ++ sub ++ post) as Hcut.
  { intros sub s Hfound. now destruct (find_found s sub Hfound) as [Hpost _]. }
  destruct (remove_role_played_responses_cases response)
    as [[F1 ->] | [(F1 & F2 & ->) | (F1 & F2 & ->)]].
  - destruct (Hstrip (slice_to response (find response "Adviser: ")))
      as ((before & after & Hpart) & Hhead & Hlast & Hclean).
    destruct (Hcut _ _ F1) as [post Hpost].
    split; [| split; [exact Hhead | split; [exact Hlast | split]]].
    + exists before, (after ++ py "Adviser: " ++ post).
      rewrite Hpost at 1. rewrite Hpart at 1. now rewrite <- !app_assoc.
    + apply Hclean. apply (before_first_clean "Adviser: " response).
      * intros H. vm_compute in H. discriminate H.
      * now apply find_found.
    + split; [intros _ | reflexivity]. left.
      exact (before_first_occurs _ _ _ (find_found _ _ F1)).
  - destruct (Hstrip (slice_to response (find response "Advisor: ")))
      as ((before & after & Hpart) & Hhead & Hlast & Hclean).
    destruct (Hcut _ _ F2) as [post Hpost].
    split; [| split; [exact Hhead | split; [exact Hlast | split]]].
    + exists before, (after ++ py "Advisor: " ++ post).
      rewrite Hpost at 1. rewrite Hpart at 1. now rewrite <- !app_assoc.
    + apply Hclean. intros (a & b & Hocc).
      apply (find_not_found _ _ F1). rewrite Hpost, Hocc.
      exists a, (b ++ py "Advisor: " ++ post). now rewrite <- !app_assoc.
    + split; [intros _ | reflexivity]. right.
      exact (before_first_occurs _ _ _ (find_found _ _ F2)).
  - destruct (Hstrip response) as (Hpart & Hhead & Hlast & Hclean).
    split; [exact Hpart |]. split; [exact Hhead |]. split; [exact Hlast |]. split.
    + apply Hclean. exact (find_not_found _ _ F1).
    + split; [discriminate |].
      intros [H | H]; exfalso; [exact (find_not_found _ _ F1 H) | exact (find_not_found _ _ F2 H)].
Qed.

(** The cleaned text of this response still holds a marker, and cleaning
    it again cuts it further. *)
Example cleaned_answer_cleaned_again :
  let cleaned := (remove_role_played_responses "a Advisor: b Adviser: c").2 in
  (cleaned, (remove_role_played_responses cleaned).2) = (py "a Advisor: b", py "a").
Proof. vm_compute. reflexivity. Qed.

End CleanedAnswer.

(** ** The chat client *)

Ltac run_G :=
  unfold mbind, G_bind, exn_bind, mret, G_ret, exn_ret, read, throw, send, on_tables.

Section ChatClient.

Variable env : collaborators.
Variable client : google_chat.

(** X12. A response type other than ["text"] and ["cardsV2"]: no case of
    the [match] applies. [send_dynamic_to_adviser_space] then raises
    [UnboundLocalError] ([response] was never bound) without having sent a
    request, while [update_message_in_adviser_space] returns as if the
    update had been made, without having sent one either. *)
Theorem unknown_response_type_sends_nothing (response_type : str)
    (space_id message_id message thread_id : value) (s : chat) :
  response_type <> py "text" -> response_type <> py "cardsV2" ->
  send_dynamic_to_adviser_space env client response_type space_id message thread_id s
  = (inl UnboundLocalError, s) /\
  update_message_in_adviser_space env client response_type space_id message_id message s
  = (inr tt, s).
Proof.
  intros Htext Hcards.
  unfold send_dynamic_to_adviser_space, update_message_in_adviser_space. run_G.
  rewrite !bool_decide_eq_false_2 by assumption. split; reflexivity.
Qed.

(** What a card sent into a thread of an adviser space leaves, when the
    platform answers with the names of the thread and of the message. *)
Lemma send_dynamic_card (space_id message thread_id cards thread message_id : value)
    (thread_path message_path : value) (s : chat) :
  let request :=
    MessagesCreate Caddy (space_name env space_id)
      (VDict (mk_dict
         ["cardsV2" =: cards;
          "thread" =: VDict (mk_dict ["name" =: VStr (thread_name env space_id thread_id)])]))
      REPLY_MESSAGE_FALLBACK_TO_NEW_THREAD in
  subscript message (Field "cardsV2") = inr cards ->
  path (execute client request) [Field "thread"; Field "name"] = inr thread_path ->
  split_component thread_path 3 = inr thread ->
  path (execute client request) [Field "name"] = inr message_path ->
  split_component message_path 3 = inr message_id ->
  send_dynamic_to_adviser_space env client "cardsV2" space_id message thread_id s
  = (inr (thread, message_id),
     {| tables := tables s; requests := requests s ++ [request] |}).
Proof.
  intros request Hcards Hthread Hsplit Hmessage Hsplit'.
  unfold send_dynamic_to_adviser_space. run_G.
  rewrite bool_decide_eq_false_2 by key_ne.
  rewrite bool_decide_eq_true_2 by reflexivity.
  rewrite Hcards. fold request. cbn [tables requests].
  rewrite Hthread, Hsplit, Hmessage, Hsplit'. reflexivity.
Qed.

(** *** Marking a call complete ([finalise_caddy_call]) *)

(** X13. The survey is parsed before the call is marked complete: when
    the survey text of the button cannot be parsed, [finalise_caddy_call]
    raises and the call stays open (no table is written and nothing is
    sent). *)
Theorem unreadable_survey_keeps_the_call_open (event survey : value) (e : exn) (s : chat) :
  path event [Field "common"; Field "parameters"; Field "survey"] = inr survey ->
  loads env survey = inl e ->
  finalise_caddy_call env client event s = (inl e, s).
Proof.
  intros Hsurvey Hloads. unfold finalise_caddy_call. run_G.
  rewrite Hsurvey, Hloads. reflexivity.
Qed.

(** X14. For an event that [finalise_caddy_call] can read, the call is
    marked complete on the thread of the pressed card for the user who
    pressed it, whatever happens afterwards. When no survey is required
    nothing is sent. When a survey is required the pressed card is replaced
    by the call-complete notice and the survey card that the button carried
    is sent into the thread, in this order. *)
Theorem finalise_caddy_call_marks_then_surveys (event survey survey_card thread_id
    user_space user : value) (s : chat) :
  completion_of event survey thread_id user_space user ->
  loads env survey = inr survey_card ->
  let marked := (mark_call_complete (py_str env user) (py_str env thread_id) (tables s)).2 in
  let outcome := finalise_caddy_call env client event s in
  tables outcome.2 = marked /\
  (is_True (check_if_survey_required client user) = false ->
   outcome = (inr tt, {| tables := marked; requests := requests s |})) /\
  (is_True (check_if_survey_required client user) = true ->
   forall name message_id cards thread_path message_path sent_thread sent_message,
     let notice :=
       MessagesPatch Caddy (message_name env user_space message_id) "cardsV2"
         (CALL_COMPLETE client) in
     let survey_request :=
       MessagesCreate Caddy (space_name env user_space)
         (VDict (mk_dict
            ["cardsV2" =: cards;
             "thread" =:
               VDict (mk_dict ["name" =: VStr (thread_name env user_space thread_id)])]))
         REPLY_MESSAGE_FALLBACK_TO_NEW_THREAD in
     path event [Field "message"; Field "name"] = inr name ->
     split_component name 3 = inr message_id ->
     subscript survey_card (Field "cardsV2") = inr cards ->
     path (execute client survey_request) [Field "thread"; Field "name"] = inr thread_path ->
     split_component thread_path 3 = inr sent_thread ->
     path (execute client survey_request) [Field "name"] = inr message_path ->
     split_component message_path 3 = inr sent_message ->
     outcome
     = (inr tt,
        {| tables := marked; requests := requests s ++ [notice; survey_request] |})).
Proof.
  intros (Hsurvey & (tname & Htname & Hthread) & (sname & Hsname & Hspace) & Huser) Hloads
    marked outcome.
  assert (outcome
          = (if is_True (check_if_survey_required client user) then
               name ← read (path event [Field "message"; Field "name"]);
               message_id ← read (split_component name 3);
               _ ← update_survey_card_in_adviser_space env client user_space message_id
                     (CALL_COMPLETE client);
               run_survey env client survey_card user_space thread_id
             else mret tt) {| tables := marked; requests := requests s |}) as Houtcome.
  { subst outcome marked. unfold finalise_caddy_call. run_G.
    rewrite Hsurvey, Hloads, Htname, Hthread, Hsname, Hspace, Huser.
    unfold mark_call_complete. run_M. cbn. reflexivity. }
  split; [| split].
  - rewrite Houtcome.
    destruct (is_True (check_if_survey_required client user)); [| reflexivity].
    unfold update_survey_card_in_adviser_space, run_survey, send_dynamic_to_adviser_space.
    run_G. cbn.
    repeat (case_match; cbn in *; simplify_eq); reflexivity.
  - intros Hrequired. rewrite Houtcome, Hrequired. reflexivity.
  - intros Hrequired name message_id cards thread_path message_path sent_thread sent_message
      notice survey_request Hname Hmessage Hcards Htp Hst Hmp Hsm.
    rewrite Houtcome, Hrequired.
    unfold update_survey_card_in_adviser_space, run_survey. run_G.
    rewrite Hname, Hmessage. cbn [tables requests].
    erewrite send_dynamic_card; [| exact Hcards | exact Htp | exact Hst | exact Hmp | exact Hsm].
    cbn [tables requests]. rewrite <- app_assoc. reflexivity.
Qed.

End ChatClient.

(** ** The post call survey *)

Section Survey.

Variable env : collaborators.
Variable client : google_chat.

(** The section of a question shows its text in the second widget. *)
Lemma survey_section_text (i : nat) (question_dict section : value) :
  survey_section env i question_dict = inr section ->
  exists question,
    subscript question_dict (Field "question") = inr question /\
    path section [Field "widgets"; Index 1; Field "textParagraph"; Field "text"]
    = inr (VStr (question_text env question)).
Proof.
  unfold survey_section. run_G.
  destruct (subscript question_dict (Field "question")) as [e | question]; [discriminate |].
  destruct (subscript question_dict (Field "values")) as [e | values]; [discriminate |].
  destruct (iterate values) as [e | answers]; [discriminate |].
  intros H. injection H as <-. exists question. split; [reflexivity |].
  cbn. unfold getitem, mk_dict. cbn. map_lookup. cbn. map_lookup. cbn. map_lookup.
  reflexivity.
Qed.

Lemma survey_sections_of (i : nat) (questions card_sections : list value) :
  survey_sections env i questions = inr card_sections ->
  sections_of env questions card_sections.
Proof.
  revert i card_sections. induction questions as [|question_dict questions IH];
    intros i card_sections; simpl.
  - intros H. injection H as <-. constructor.
  - run_G.
    destruct (survey_section env (S i) question_dict) as [e | section] eqn:Hsection;
      [discriminate |].
    destruct (survey_sections env (S i) questions) as [e | rest] eqn:Hrest; [discriminate |].
    intros H. injection H as <-. constructor; [now exists (S i) | exact (IH _ _ Hrest)].
Qed.

(** The loop of [handle_survey_response] deletes the section of the first
    question that is shown as the question answered. *)
Lemma delete_question_first_shown (target : str) (questions card_sections : list value) :
  sections_of env questions card_sections ->
  delete_question target card_sections
  = inr (match first_shown env target questions with
         | Some k => Some (delete k card_sections)
         | None => None
         end).
Proof.
  induction 1 as [| question_dict section questions card_sections [i Hsection] _ IH];
    [reflexivity |].
  destruct (survey_section_text _ _ _ Hsection) as (question & Hquestion & Htext).
  cbn [delete_question first_shown]. run_G. rewrite Htext. unfold shows. rewrite Hquestion. cbn [equals_text].
  destruct (bool_decide (question_text env question = target)); [reflexivity |].
  rewrite IH. destruct (first_shown env target questions); reflexivity.
Qed.

Lemma sections_of_delete (k : nat) (questions card_sections : list value) :
  sections_of env questions card_sections ->
  sections_of env (delete k questions) (delete k card_sections).
Proof.
  intros H. revert k.
  induction H as [| question_dict section questions card_sections Hhead Htail IH];
    intros [|k]; simpl.
  - constructor.
  - constructor.
  - exact Htail.
  - constructor; [exact Hhead | apply IH].
Qed.

(** The section at position [k] of the loop that starts after the
    question number [i]. *)
Lemma survey_sections_lookup (i : nat) (questions card_sections : list value) :
  survey_sections env i questions = inr card_sections ->
  forall (k : nat) question_dict,
    questions !! k = Some question_dict ->
    exists question values answers,
      subscript question_dict (Field "question") = inr question /\
      subscript question_dict (Field "values") = inr values /\
      iterate values = inr answers /\
      card_sections !! k
      = Some (widgets_section
                [VDict (mk_dict
                   ["decoratedText" =:
                      VDict (mk_dict
                        ["topLabel" =: VStr (py "Question " ++ decimal (S (i + k)))])]);
                 VDict (mk_dict
                   ["textParagraph" =:
                      VDict (mk_dict ["text" =: VStr (question_text env question)])]);
                 button_list (survey_button question <$> answers)]).
Proof.
  revert i card_sections.
  induction questions as [|question_dict' questions IH]; intros i card_sections; simpl.
  - intros _ k question_dict Hk. now rewrite lookup_nil in Hk.
  - run_G.
    destruct (survey_section env (S i) question_dict') as [e | section] eqn:Hsection;
      [discriminate |].
    destruct (survey_sections env (S i) questions) as [e | rest] eqn:Hrest; [discriminate |].
    intros H. injection H as <-. intros [|k] question_dict Hk; simpl in Hk.
    + injection Hk as ->. revert Hsection. unfold survey_section. run_G.
      destruct (subscript question_dict (Field "question")) as [e | question] eqn:H1;
        [discriminate |].
      destruct (subscript question_dict (Field "values")) as [e | values] eqn:H2;
        [discriminate |].
      destruct (iterate values) as [e | answers] eqn:H3; [discriminate |].
      intros H. injection H as <-. rewrite Nat.add_0_r.
      exists question, values, answers. repeat split; solve [assumption | reflexivity].
    + destruct (IH (S i) rest Hrest k question_dict Hk)
        as (question & values & answers & H1 & H2 & H3 & H4).
      exists question, values, answers.
      replace (i + S k)%nat with (S i + k)%nat by lia. auto.
Qed.

(** X15. [get_post_call_survey_card] lays out one section for each
    question, in the order of the questions. The section at position [k]
    is labelled [Question k+1], shows the question in bold in its second
    widget and has one button for each answer, which carries the question
    and the answer. *)
Theorem survey_card_layout (questions : list value) (card : value) :
  get_post_call_survey_card env (VList questions) = inr card ->
  exists card_sections,
    card = one_card "postCallSurvey" card_sections /\
    sections_of env questions card_sections /\
    forall (k : nat) question_dict,
      questions !! k = Some question_dict ->
      exists question values answers,
        subscript question_dict (Field "question") = inr question /\
        subscript question_dict (Field "values") = inr values /\
        iterate values = inr answers /\
        card_sections !! k
        = Some (widgets_section
                  [VDict (mk_dict
                     ["decoratedText" =:
                        VDict (mk_dict
                          ["topLabel" =: VStr (py "Question " ++ decimal (S k))])]);
                   VDict (mk_dict
                     ["textParagraph" =:
                        VDict (mk_dict ["text" =: VStr (question_text env question)])]);
                   button_list (survey_button question <$> answers)]).
Proof.
  unfold get_post_call_survey_card. cbn [iterate]. run_G.
  destruct (survey_sections env 0 questions) as [e | card_sections] eqn:Hsections;
    [discriminate |].
  intros H. injection H as <-. exists card_sections.
  split; [reflexivity |]. split; [exact (survey_sections_of _ _ _ Hsections) |].
  exact (survey_sections_lookup 0 questions card_sections Hsections).
Qed.

(** X16. An answer to a question of a survey card. The answer is appended
    to the survey responses of the thread's evaluation record, which is
    created when the thread has none, and the card is sent back without the
    section of the first question shown as the question answered; the other
    sections stay, in their order and with their labels. When no section is
    left the completion widget is the only section. A question that the
    card does not show leaves the sections as they are, and is recorded all
    the same. When the [surveyResponse] of the record is not a list, the
    store refuses the update: nothing is written and the card is not sent
    back. *)
Theorem survey_answer_is_recorded_and_removed (event : value) (question : str)
    (response threadId card spaceId messageId : value)
    (questions card_sections : list value) (s : chat) :
  answer_of event (VStr question) response threadId card spaceId messageId ->
  path card [Index 0; Field "card"; Field "sections"] = inr (VList card_sections) ->
  sections_of env questions card_sections ->
  let thread := py_str env threadId in
  let record := default {[ ("threadId" : str) := VStr thread ]}
                  (evaluation_table (tables s) !! thread) in
  let answered_at := first_shown env (question_text env (VStr question)) questions in
  let remaining := left_after answered_at card_sections in
  match survey_answers record with
  | Some answers =>
      exists card',
        handle_survey_response env client event s
        = (inr tt,
           {| tables :=
                set_evaluation_table
                  (<[thread :=
                       <[("surveyResponse" : str) :=
                           VList (answers ++ [VDict (mk_dict [question =: response])])]>
                         record]>
                     (evaluation_table (tables s)))
                  (tables s);
              requests := requests s ++
                          [MessagesPatch Caddy (message_name env spaceId messageId) "cardsV2"
                             (VDict (mk_dict ["cardsV2" =: card']))] |}) /\
        path card' [Index 0; Field "card"; Field "sections"]
        = inr (VList (match remaining with
                      | [] => [SURVEY_COMPLETE_WIDGET client]
                      | _ => remaining
                      end)) /\
        sections_of env (left_after answered_at questions) remaining
  | None => handle_survey_response env client event s = (inl ClientError, s)
  end.
Proof.
  intros (Hquestion & Hresponse & (tname & Htname & Hthread) & Hcard
          & (sname & Hsname & Hspace) & (mname & Hmname & Hmessage)) Hsections Hof
    thread record answered_at remaining.
  assert (answered client (question_text env (VStr question)) (VList card_sections)
          = inr (VList (match remaining with
                        | [] => [SURVEY_COMPLETE_WIDGET client]
                        | _ => remaining
                        end))) as Hanswered.
  { unfold answered. run_G.
    rewrite (delete_question_first_shown _ _ _ Hof). fold answered_at.
    subst remaining. destruct answered_at as [k|]; cbn [default left_after].
    - destruct (delete k card_sections); reflexivity.
    - destruct card_sections; reflexivity. }
  destruct (update_at_path [Index 0; Field "card"; Field "sections"]
              (answered client (question_text env (VStr question))) card _ _
              ltac:(intros [|c t]; eexists; reflexivity) Hsections Hanswered)
    as (card' & Hupdate & Hpath).
  unfold handle_survey_response, update_survey_card_in_adviser_space. run_G.
  rewrite Hquestion, Hresponse, Htname, Hthread, Hcard, Hsname, Hspace, Hmname, Hmessage.
  unfold record_survey_response. run_M. fold thread. fold record.
  unfold survey_answers.
  destruct (record !! ("surveyResponse" : str)) as [[| | | | answers |]|] eqn:Hrecord;
    cbn [tables requests]; try (destruct s; reflexivity).
  - exists card'. split; [| split; [exact Hpath |]].
    + rewrite Hupdate. reflexivity.
    + subst remaining. destruct answered_at as [k|]; cbn [left_after];
        [now apply sections_of_delete | exact Hof].
  - exists card'. split; [| split; [exact Hpath |]].
    + rewrite Hupdate. reflexivity.
    + subst remaining. destruct answered_at as [k|]; cbn [left_after];
        [now apply sections_of_delete | exact Hof].
Qed.

End Survey.

(** ** Supervisor rejection *)

Section Rejection.

Variable env : collaborators.
Variable client : google_chat.


(** One step of [handle_supervisor_rejection]: the event has the value
    read. *)
Ltac reads H :=
  rewrite H; cbn -[path mk_dict create_updated_supervision_card call_complete_confirmation
                   message_name].


(** X18. A supervision card without sections cannot take the decision
    (the pop from the empty deque raises [IndexError]). By then the request
    card of the supervisor space and the adviser's message have been
    updated; the rejection is not recorded, the supervision card keeps its
    buttons and the adviser is not offered to mark the call complete. *)
Theorem rejection_of_an_empty_card_is_not_recorded (event : value) (a : rejection)
    (s : chat) :
  carries_rejection env event a ->
  path a.(supervision_cards) [Index 0; Field "card"; Field "sections"] = inr (VList []) ->
  handle_supervisor_rejection env client event s
  = (inl IndexError,
     {| tables := tables s; requests := requests s ++ rejection_notices env client a |}).
Proof.
  intros (Hcards & Hspace & Happrover & Hresponse & (sname & Hsname & Hsplit1)
          & (mname & Hmname & Hsplit3) & Hmessage & Hreply & Hthread & Hrequest
          & (text & Htext & Hloads) & Huser) Hsections.
  cbv zeta in *.
  assert (create_updated_supervision_card env
            (VDict (mk_dict ["cardsV2" =: a.(supervision_cards)]))
            a.(rejected_by) false a.(supervisor_reply) = inl IndexError) as Hupdated.
  { unfold create_updated_supervision_card, sections. cbn [update_at subscript].
    unfold getitem, mk_dict. cbn [list_to_map foldr]. cbn [fst snd].
    rewrite lookup_insert_eq.
    revert Hsections. cbn [path].
    destruct (subscript a.(supervision_cards) (Index 0)) as [e | card0]; [discriminate |].
    destruct (subscript card0 (Field "card")) as [e | card]; [discriminate |].
    destruct (subscript card (Field "sections")) as [e | card_sections]; [discriminate |].
    intros H. injection H as ->. reflexivity. }
  unfold handle_supervisor_rejection, update_message_in_supervisor_space,
    update_dynamic_message_in_adviser_space. run_G.
  reads Hcards. reads Hspace. reads Happrover. reads Hresponse. reads Hsname.
  reads Hsplit1. reads Hmname. reads Hsplit3. reads Hmessage. reads Hreply.
  reads Hthread. reads Hrequest. reads Htext. reads Hloads. reads Huser.
  reads Hupdated. unfold rejection_notices. rewrite <- app_assoc. reflexivity.
Qed.

(** X19. The buttons that [create_supervision_card] appends are the
    section that [create_updated_supervision_card] takes away: a card that
    went through both has the sections of the answer card followed by the
    decision, for an approval and for a rejection. *)
Theorem decision_replaces_the_buttons (user_email new_request_message_id request_approved
    request_rejected approver supervisor_message : value) (event : supervision)
    (approved : bool) (card_sections : list value) :
  path event.(llm_response_json) sections = inr (VList card_sections) ->
  exists supervision_card updated,
    create_supervision_card client user_email event new_request_message_id
      request_approved request_rejected = inr supervision_card /\
    path supervision_card sections
    = inr (VList (card_sections
                  ++ [approval_buttons_section client user_email event
                        new_request_message_id request_approved request_rejected])) /\
    create_updated_supervision_card env supervision_card approver approved
      supervisor_message = inr updated /\
    path updated sections
    = inr (VList (card_sections
                  ++ [if approved then approval_json_widget env approver
                      else rejection_json_widget env approver supervisor_message])).
Proof.
  intros Hsections.
  unfold create_supervision_card.
  match goal with
  | |- context [update_at _ sections ?f] =>
      destruct (update_at_path_field [Field "cardsV2"; Index 0; Field "card"] "sections"
                  f event.(llm_response_json) (VList card_sections) _ Hsections eq_refl)
        as (supervision_card & Hcard & Hcard_path)
  end.
  change ([Field "cardsV2"; Index 0; Field "card"] ++ [Field "sections"]) with sections
    in Hcard, Hcard_path.
  exists supervision_card.
  destruct (create_updated_supervision_card_replaces env supervision_card approver
              supervisor_message approved card_sections _ Hcard_path)
    as (updated & Hupdated & Hupdated_path).
  exists updated. auto.
Qed.

End Rejection.

(** ** Incoming messages *)

Section IncomingMessages.

Variable env : collaborators.
Variable client : google_chat.



(** X21. [format_message] answers ["PII Detected"] only for an event that
    does not say [proceed] and whose text, without [@Caddy], [analyse]
    flags. The warning card is then the only request sent: the message is
    not acknowledged with the processing message, and both buttons of the
    warning carry the event. *)
Theorem pii_warning_is_the_only_request (event : value) (s s' : chat) (notice : str) :
  format_message env client event s = (inr (inl notice), s') ->
  exists d text space_id thread_id,
    notice = py "PII Detected" /\
    event = VDict d /\ contains d "proceed" = false /\
    path event [Field "message"; Field "text"] = inr (VStr text) /\
    truthy (analyse client (replace text "@Caddy" "")) = true /\
    s' = {| tables := tables s;
            requests :=
              requests s ++
              [MessagesCreate Caddy (space_name env space_id)
                 (VDict (mk_dict
                    ["cardsV2" =:
                       VList (pii_warning_card client (PII_DETECTED client) event);
                     "thread" =:
                       VDict (mk_dict
                         ["name" =: VStr (thread_name env space_id thread_id)])]))
                 REPLY_MESSAGE_FALLBACK_TO_NEW_THREAD] |}.
Proof.
  unfold format_message, send_dynamic_to_adviser_space, send_pii_warning_to_adviser_space.
  run_G. cbn -[replace pii_warning_card]. unfold getitem.
  destruct event as [| | | | | d]; cbn -[replace pii_warning_card]; try discriminate.
  repeat (case_match; cbn -[replace pii_warning_card] in *; simplify_eq; try discriminate).
  all: intros Hrun; simplify_eq.
  all: eexists _, _, _, _; repeat split; try reflexivity.
  all: try (destruct (contains d "proceed"); [discriminate | reflexivity]).
  all: try (destruct (contains d "proceed"); [discriminate | assumption]).
Qed.

End IncomingMessages.

(** ** The properties at work *)

(** A user without supervisor space asks a question. *)
Lemma unknown_supervisor_space_stops_send_to_llm_witness :
  send_to_llm Scenario.unenrolled_env (Scenario.query_of "adviser@example.org") empty_world
  = (inl SupervisionSpaceUnknown, empty_world).
Proof.
  apply (unknown_supervisor_space_stops_send_to_llm Scenario.unenrolled_env
           (Scenario.query_of "adviser@example.org") empty_world [] "example.org");
    vm_compute; reflexivity.
Defined.

(** The user [adviser], without domain. *)
Lemma email_without_domain_stops_send_to_llm_witness :
  send_to_llm Example.answering_env (Scenario.query_of "adviser") empty_world
  = (inl IndexError, empty_world).
Proof.
  apply (email_without_domain_stops_send_to_llm Example.answering_env
           (Scenario.query_of "adviser") empty_world []).
  - vm_compute. reflexivity.
  - apply (bool_decide_unpack _). vm_compute. exact I.
Defined.

(** A generator that yields nothing. *)
Lemma stream_without_answer_is_not_retried_witness :
  let env := Example.control_env in
  let query := Example.query env in
  send_to_llm env query empty_world
  = (inl (KeyError (VStr "answer")),
     emit_to (ChainStream (UserMessage.message query) [])
       (emit_to (SendMessageToSupervisorSpace (VStr "SUPERVISORS")
                   (SupervisionRequest request_processing (UserMessage.user_email query)
                      (UserMessage.message query))) empty_world)).
Proof.
  intros env query.
  apply (stream_without_answer_is_not_retried env query empty_world [] "example.org" []).
  - vm_compute. reflexivity.
  - vm_compute. reflexivity.
  - vm_compute. discriminate.
  - vm_compute. reflexivity.
  - constructor.
Defined.

(** The first message of a call in the control group. *)
Lemma control_group_gets_no_answer_witness :
  let env := Example.control_env in
  let message := Example.message "A" in
  handle_message env message empty_world
  = (inr (Some {| status_code := HTTP_204_NO_CONTENT |}),
     emit_all
       [UpdateMessageInAdviserSpace "cardsV2" (VStr "SPACE") (VStr "MESSAGE")
          (ControlGroupSelection (VStr "control group"));
        CallCompleteConfirmation (VStr Example.user) (VStr "SPACE") (VStr "A")]
       (store_message env (format_chat_message env message)
          (Example.gate_world env message empty_world)).2).
Proof.
  intros env message.
  apply (control_group_gets_no_answer env message empty_world
           (Example.gate_world env message empty_world)
           (Example.gate_values env message empty_world)
           (VStr "{}") (VStr "control group"));
    vm_compute; reflexivity.
Defined.

(** The call that the first message opened is found again. *)
Lemma check_existing_call_is_stable_witness :
  let env := Example.answering_env in
  let message := Example.message "A" in
  let opened := Example.gate_world env message empty_world in
  exists again,
    check_existing_call env message opened = (inr (again, false), opened) /\
    forall field, field ∈ read_by_handle_message ->
      again !! field = Example.gate_values env message empty_world !! field.
Proof.
  intros env message opened.
  apply (check_existing_call_is_stable env message empty_world opened
           (Example.gate_values env message empty_world) false).
  vm_compute. reflexivity.
Defined.

(** The answer of the example, finalised. *)
Lemma history_after_an_answer_witness :
  let env := Example.answering_env in
  let r := Example.request env in
  let w' := (finalise_answer env r Example.truncated_locals empty_world).2 in
  exists answer,
    caddy_response Example.truncated_locals !! ("answer" : str) = Some (VStr answer) /\
    get_chat_history (caddy_query r) w'
    = (inr [(VStr (UserMessage.message (caddy_query r)),
             VStr (remove_role_played_responses answer).2)], w').
Proof.
  intros env r w'.
  apply (history_after_an_answer env r Example.truncated_locals empty_world w').
  vm_compute. reflexivity.
Defined.

(** The response type [card]. *)
Lemma unknown_response_type_sends_nothing_witness :
  send_dynamic_to_adviser_space Example.control_env Scenario.client "card" (VStr "SPACE")
    (VStr "hello") (VStr "A") Scenario.no_requests
  = (inl UnboundLocalError, Scenario.no_requests) /\
  update_message_in_adviser_space Example.control_env Scenario.client "card" (VStr "SPACE")
    (VStr "MESSAGE") (VStr "hello") Scenario.no_requests
  = (inr tt, Scenario.no_requests).
Proof.
  apply (unknown_response_type_sends_nothing Example.control_env Scenario.client "card");
    key_ne.
Defined.

(** A button whose survey text is not JSON. *)
Lemma unreadable_survey_keeps_the_call_open_witness :
  finalise_caddy_call Example.control_env Scenario.client
    (Scenario.completion_event "not json") Scenario.no_requests
  = (inl JSONDecodeError, Scenario.no_requests).
Proof.
  apply (unreadable_survey_keeps_the_call_open Example.control_env Scenario.client
           (Scenario.completion_event "not json") (VStr "not json"));
    vm_compute; reflexivity.
Defined.

(** The adviser marks the call of thread A complete; a survey is
    required. *)
Lemma finalise_caddy_call_marks_then_surveys_witness :
  let env := Example.control_env in
  let outcome :=
    finalise_caddy_call env Scenario.client (Scenario.completion_event "card")
      Scenario.no_requests in
  tables outcome.2 = (mark_call_complete Example.user "A" empty_world).2 /\
  outcome.1 = inr tt /\
  length (requests outcome.2) = 2%nat.
Proof.
  intros env outcome.
  destruct (finalise_caddy_call_marks_then_surveys env Scenario.client
              (Scenario.completion_event "card") (VStr "card")
              (Example.card_of [Example.answer_section]) (VStr "A") (VStr "SPACE")
              (VStr Example.user) Scenario.no_requests)
    as (Htables & _ & Hsurvey).
  - unfold completion_of. repeat first [split | eexists]; vm_compute; reflexivity.
  - vm_compute. reflexivity.
  - split; [exact Htables |]. cbv zeta in Hsurvey. subst outcome.
    erewrite Hsurvey; [split; reflexivity | ..]; vm_compute; reflexivity.
Defined.

(** The card of the two questions of the example. *)
Lemma survey_card_layout_witness :
  exists card_sections,
    one_card "postCallSurvey" Scenario.survey_card_sections
    = one_card "postCallSurvey" card_sections /\
    sections_of Example.control_env [Scenario.helpful; Scenario.again] card_sections /\
    forall (k : nat) question_dict,
      [Scenario.helpful; Scenario.again] !! k = Some question_dict ->
      exists question values answers,
        subscript question_dict (Field "question") = inr question /\
        subscript question_dict (Field "values") = inr values /\
        iterate values = inr answers /\
        card_sections !! k
        = Some (widgets_section
                  [VDict (mk_dict
                     ["decoratedText" =:
                        VDict (mk_dict
                          ["topLabel" =: VStr (py "Question " ++ decimal (S k))])]);
                   VDict (mk_dict
                     ["textParagraph" =:
                        VDict (mk_dict
                          ["text" =: VStr (question_text Example.control_env question)])]);
                   button_list (survey_button question <$> answers)]).
Proof.
  apply (survey_card_layout Example.control_env [Scenario.helpful; Scenario.again]).
  vm_compute. reflexivity.
Defined.

(** The adviser answers the second question first: the section of the
    first question stays. *)
Lemma survey_answer_is_recorded_and_removed_witness :
  let env := Example.control_env in
  let event :=
    Scenario.answer_event "Would you use Caddy again?" "Yes" Scenario.survey_card_sections in
  exists card',
    handle_survey_response env Scenario.client event Scenario.no_requests
    = (inr tt,
       {| tables :=
            set_evaluation_table
              {[ ("A" : str) :=
                   mk_dict
                     ["threadId" =: VStr "A";
                      "surveyResponse" =:
                        VList [VDict (mk_dict ["Would you use Caddy again?" =: VStr "Yes"])]] ]}
              empty_world;
          requests := [MessagesPatch Caddy (message_name env (VStr "SPACE") (VStr "SURVEY"))
                         "cardsV2" (VDict (mk_dict ["cardsV2" =: card']))] |}) /\
    path card' [Index 0; Field "card"; Field "sections"]
    = inr (VList (take 1 Scenario.survey_card_sections)) /\
    sections_of env [Scenario.helpful] (take 1 Scenario.survey_card_sections).
Proof.
  intros env event.
  assert (survey_answers
            (default {[ ("threadId" : str) := VStr (py_str env (VStr "A")) ]}
               (evaluation_table (tables Scenario.no_requests) !! py_str env (VStr "A")))
          = Some []) as Hanswers by (vm_compute; reflexivity).
  pose proof (survey_answer_is_recorded_and_removed env Scenario.client event
           "Would you use Caddy again?" (VStr "Yes") (VStr "A")
           (VList [VDict (mk_dict
                     ["cardId" =: VStr "postCallSurvey";
                      "card" =:
                        VDict (mk_dict
                          ["sections" =: VList Scenario.survey_card_sections])])])
           (VStr "SPACE") (VStr "SURVEY")
           [Scenario.helpful; Scenario.again] Scenario.survey_card_sections
           Scenario.no_requests) as H.
  cbv zeta in H. rewrite Hanswers in H.
  destruct H as (card' & Hrun & Hpath & Hof).
  { unfold answer_of. repeat first [split | eexists]; vm_compute; reflexivity. }
  { vm_compute. reflexivity. }
  { apply (survey_sections_of Example.control_env 0). vm_compute. reflexivity. }
  exists card'. split; [| split; [exact Hpath | exact Hof]].
  rewrite Hrun. f_equal.
Defined.


(** The rejection of a supervision card that has lost its sections. *)
Lemma rejection_of_an_empty_card_is_not_recorded_witness :
  let env := Example.control_env in
  handle_supervisor_rejection env Scenario.client (Scenario.rejection_event [])
    Scenario.no_requests
  = (inl IndexError,
     {| tables := empty_world;
        requests := rejection_notices env Scenario.client (Scenario.rejected []) |}).
Proof.
  intros env.
  apply (rejection_of_an_empty_card_is_not_recorded env Scenario.client
           (Scenario.rejection_event []) (Scenario.rejected []) Scenario.no_requests).
  - unfold carries_rejection. cbv zeta.
    repeat first [split | eexists]; vm_compute; reflexivity.
  - vm_compute. reflexivity.
Defined.

(** The answer card of the example, sent for supervision and approved. *)
Lemma decision_replaces_the_buttons_witness :
  let env := Example.control_env in
  exists supervision_card updated,
    create_supervision_card Scenario.client (VStr Example.user) Scenario.supervised
      (VStr "srequest") Example.approved_request_card Example.approved_request_card
    = inr supervision_card /\
    path supervision_card sections
    = inr (VList ([Example.answer_section]
                  ++ [approval_buttons_section Scenario.client (VStr Example.user)
                        Scenario.supervised (VStr "srequest") Example.approved_request_card
                        Example.approved_request_card])) /\
    create_updated_supervision_card env supervision_card (VStr "a@b.org") true (VStr "")
    = inr updated /\
    path updated sections
    = inr (VList ([Example.answer_section] ++ [approval_json_widget env (VStr "a@b.org")])).
Proof.
  intros env.
  apply (decision_replaces_the_buttons env Scenario.client (VStr Example.user)
           (VStr "srequest") Example.approved_request_card Example.approved_request_card
           (VStr "a@b.org") (VStr "") Scenario.supervised true [Example.answer_section]).
  vm_compute. reflexivity.
Defined.


(** A message with a name in it. *)
Lemma pii_warning_is_the_only_request_witness :
  let env := Example.control_env in
  let outcome := format_message env Scenario.client Scenario.flagged Scenario.no_requests in
  exists d text space_id thread_id,
    py "PII Detected" = py "PII Detected" /\
    Scenario.flagged = VDict d /\ contains d "proceed" = false /\
    path Scenario.flagged [Field "message"; Field "text"] = inr (VStr text) /\
    truthy (analyse Scenario.client (replace text "@Caddy" "")) = true /\
    outcome.2
    = {| tables := empty_world;
         requests :=
           [] ++
           [MessagesCreate Caddy (space_name env space_id)
              (VDict (mk_dict
                 ["cardsV2" =:
                    VList (pii_warning_card Scenario.client
                             (PII_DETECTED Scenario.client) Scenario.flagged);
                  "thread" =:
                    VDict (mk_dict
                      ["name" =: VStr (thread_name env space_id thread_id)])]))
              REPLY_MESSAGE_FALLBACK_TO_NEW_THREAD] |}.
Proof.
  intros env outcome.
  apply (pii_warning_is_the_only_request env Scenario.client Scenario.flagged
           Scenario.no_requests outcome.2 (py "PII Detected")).
  subst outcome env. vm_compute. reflexivity.
Defined.
